(** * TripGenie: itinerary reconciliation, region selection and split pane

    A shallow embedding of the TypeScript sources
    ([types.ts], [App.tsx], [components/ItineraryList.tsx],
    [components/TripInput.tsx], [components/HomeMap.tsx],
    [services/geminiService.ts]) and the properties of the specification
    that are checked against them.

    Conventions.
    - A JavaScript [number] is a rational ([Q]): every finite double is a
      rational, and comparisons, [min] and [max] agree with the rational
      order.  Arithmetic rounds: [a - b] and [a * b] are the exact results
      rounded to a double ([Js.sub], [Js.mul]).  The rounding is an
      argument of the code that computes; the language's is
      [Js.binary64], and what is proved of it is proved of every rounding
      that is monotone and leaves a double as it is ([Js.Rounding]).
      [Infinity] and [NaN] are not modelled.
    - A JavaScript string is a [string] whose characters are read as code
      units below 256.
    - An optional member ([x?: T], [T | null]) is an [option].
    - An array is a dense [list]; what an out-of-range read or write does
      in JavaScript is written out where the sources perform it.
    - An [async] handler is a value of type [async]: the state set by its
      synchronous prefix, the call it awaits, and its continuation, which
      takes what the awaited call settles to. *)

From Stdlib Require Import QArith Qminmax Qabs Qround Qpower Lqa.
From stdpp Require Import base list strings.
From Stdlib Require Import Permutation.

Close Scope Q_scope.
Open Scope string_scope.
Open Scope list_scope.

(** ** JavaScript runtime pieces used by the sources *)

Module Js.

Inductive error : Type :=
| TypeError              (* member access on undefined or null *)
| SyntaxError            (* JSON.parse on text that is not JSON *)
| Error (message : string)   (* [throw new Error(message)] *)
| Rejection (reason : string). (* the collaborator's promise rejected *)

(** Result of running a piece of code: a value, an exception, or a value
    that is no longer of the declared TypeScript type (an array with a
    hole or an [undefined] element), which the model does not follow
    further. *)
Inductive outcome (A : Type) : Type :=
| Returns (a : A)
| Throws (e : error)
| Untyped.
Arguments Returns {A} a.
Arguments Throws {A} e.
Arguments Untyped {A}.

Definition bind {A B} (m : outcome A) (k : A -> outcome B) : outcome B :=
  match m with
  | Returns a => k a
  | Throws e => Throws e
  | Untyped => Untyped
  end.

(** [arr.splice(start, 1)] for [0 <= start]: the removed elements and
    what is left in [arr]. *)
Definition splice_delete1 {A} (arr : list A) (start : nat) : list A * list A :=
  (take 1 (drop start arr), take start arr ++ drop (S start) arr).

(** [arr.splice(start, 0, item)] for [0 <= start]: [start] is clamped to
    the length, so an index past the end appends. *)
Definition splice_insert {A} (arr : list A) (start : nat) (item : A) : list A :=
  take start arr ++ item :: drop start arr.

(** [arr[i] = v] on a dense array.  A negative [i] is an ordinary
    property key and leaves the elements alone; [i = arr.length] extends
    the array by one; a larger [i] leaves holes. *)
Definition assign {A} (arr : list A) (i : Z) (v : A) : outcome (list A) :=
  if (i <? 0)%Z then Returns arr
  else
    let n := Z.to_nat i in
    if (n <? length arr)%nat then Returns (<[n := v]> arr)
    else if (n =? length arr)%nat then Returns (arr ++ [v])
    else Untyped.

(** ECMAScript WhiteSpace and LineTerminator code units below 256:
    TAB, LF, VT, FF, CR, SP, NBSP. *)
Definition is_white_space (c : Ascii.ascii) : bool :=
  let n := Ascii.nat_of_ascii c in
  ((9 <=? n) && (n <=? 13) || (n =? 32) || (n =? 160))%nat.

Fixpoint trimStart (s : string) : string :=
  match s with
  | EmptyString => EmptyString
  | String c s' => if is_white_space c then trimStart s' else s
  end.

Fixpoint trimEnd (s : string) : string :=
  match s with
  | EmptyString => EmptyString
  | String c s' =>
      match trimEnd s' with
      | EmptyString => if is_white_space c then EmptyString else String c EmptyString
      | t => String c t
      end
  end.

Definition trim (s : string) : string := trimEnd (trimStart s).

(** Truthiness of a string: [!s] holds exactly for the empty string. *)
Definition truthy (s : string) : bool :=
  match s with EmptyString => false | _ => true end.

(** [x || fallback] where [x] is a possibly missing string. *)
Definition or_else (x : option string) (fallback : string) : string :=
  match x with
  | Some s => if truthy s then s else fallback
  | None => fallback
  end.

(** [parts.join(sep)] *)
Definition join (sep : string) (parts : list string) : string :=
  String.concat sep parts.

Definition dash : Ascii.ascii := Ascii.ascii_of_nat 45.

(** [s.replace(/\s+/g, '-')]: every maximal run of white space becomes
    one dash.  [inRun] tells that the character before was white space. *)
Fixpoint replaceRuns (inRun : bool) (s : string) : string :=
  match s with
  | EmptyString => EmptyString
  | String c s' =>
      if is_white_space c then
        if inRun then replaceRuns true s'
        else String dash (replaceRuns true s')
      else String c (replaceRuns false s')
  end.

Definition dashed (s : string) : string := replaceRuns false s.


(** Rounding of an exact result to a [number].  IEEE 754 rounding to the
    nearest double is monotone and leaves a double as it is; nothing else
    about it is used. *)
Class Rounding (round : Q -> Q) : Prop := {
  round_monotone : forall x y, (x <= y)%Q -> (round x <= round y)%Q;
  round_idempotent : forall x, (round (round x) == round x)%Q
}.

(** [a - b] and [a * b] on numbers. *)
Definition sub (round : Q -> Q) (a b : Q) : Q := round (a - b)%Q.
Definition mul (round : Q -> Q) (a b : Q) : Q := round (a * b)%Q.

(** The rounding that rounds nothing: what happens when every exact
    result is a double. *)
Definition exactly (q : Q) : Q := q.

(** The rounding of the language: to the nearest double (IEEE 754
    binary64), ties to the even significand.  A double is a whole
    multiple [m * 2^k] with [|m| <= 2^53] and [k >= -1074]; the doubles
    around [q] are the multiples of [2^k] for [k] the [exponent] of [q].
    Results too large for a double ([Infinity]) are not modelled. *)
Definition pow2 (k : Z) : Q := ((2 # 1) ^ k)%Q.

(** [floor (log2 q)], for [q > 0]. *)
Definition ilog2 (q : Q) : Z :=
  let e := (Z.log2 (Qnum q) - Z.log2 (Zpos (Qden q)))%Z in
  if Qle_bool (pow2 e) q then e else (e - 1)%Z.

(** The whole number nearest to [q], the even one of two equally near. *)
Definition nearest_even (q : Q) : Z :=
  let f := Qfloor q in
  match (q - inject_Z f ?= 1 # 2)%Q with
  | Lt => f
  | Gt => (f + 1)%Z
  | Eq => if Z.even f then f else (f + 1)%Z
  end.

(** The multiple of [2^k] nearest to [q]. *)
Definition to_grid (k : Z) (q : Q) : Q :=
  (inject_Z (nearest_even (q / pow2 k)) * pow2 k)%Q.

(** The exponent of the last place of the doubles around [q > 0]: 52
    places below the leading bit, and never below that of the subnormal
    numbers. *)
Definition exponent (q : Q) : Z := Z.max (ilog2 q - 52) (-1074).

Definition binary64 (q : Q) : Q :=
  match Qnum q with
  | Z0 => 0%Q
  | Zpos _ => to_grid (exponent q) q
  | Zneg _ => (- to_grid (exponent (- q)) (- q))%Q
  end.

End Js.

(** [outcome] is an error monad; [x ← m; k] sequences two steps and
    stops at the first exception. *)
#[global] Instance outcome_ret : MRet Js.outcome := @Js.Returns.
#[global] Instance outcome_bind : MBind Js.outcome :=
  fun A B k m => Js.bind m k.

(** ** types.ts *)

Module Coordinates.
Record t : Type := mk { lat : Q; lng : Q }.
End Coordinates.

Module TripBounds.
Record t : Type := mk { north : Q; south : Q; east : Q; west : Q }.
End TripBounds.

Module GroundingLink.
Record t : Type := mk { title : string; uri : string }.
End GroundingLink.

Module ActivityType.
Inductive t : Type := food | landmark | activity | relax | stay.
End ActivityType.

Inductive Currency : Type := USD | INR.

Module Activity.
Record t : Type := mk {
  name : string;
  description : string;
  location : Coordinates.t;
  time : string;
  type : ActivityType.t;
  price : option string;
  items : option (list string);
  groundingLinks : option (list GroundingLink.t);
  travelDistance : option string;
  travelTime : option string
}.


(** [a.groundingLinks = links] *)
Definition set_groundingLinks (links : list GroundingLink.t) (a : t) : t :=
  mk (name a) (description a) (location a) (time a) (type a) (price a)
     (items a) (Some links) (travelDistance a) (travelTime a).

(** [{ ...a, time: t', travelDistance: d, travelTime: tt }] *)
Definition with_logistics (t' d tt : string) (a : t) : t :=
  mk (name a) (description a) (location a) t' (type a) (price a)
     (items a) (groundingLinks a) (Some d) (Some tt).
End Activity.

Module DayPlan.
Record t : Type := mk {
  dayNumber : Z;
  theme : string;
  activities : list Activity.t
}.

(** [day.activities = acts] *)
Definition set_activities (acts : list Activity.t) (d : t) : t :=
  mk (dayNumber d) (theme d) acts.
End DayPlan.

Module TripPlan.
Record t : Type := mk {
  id : string;
  destination : string;
  summary : string;
  itinerary : list DayPlan.t;
  centerCoordinates : Coordinates.t;
  currency : Currency;
  totalEstimatedCost : Q;
  weatherAdvisory : string;
  createdAt : option Z;
  stayLocation : option Activity.t;
  postcardUrl : option string
}.

Definition set_itinerary (days : list DayPlan.t) (p : t) : t :=
  mk (id p) (destination p) (summary p) days (centerCoordinates p)
     (currency p) (totalEstimatedCost p) (weatherAdvisory p)
     (createdAt p) (stayLocation p) (postcardUrl p).

Definition set_stayLocation (s : option Activity.t) (p : t) : t :=
  mk (id p) (destination p) (summary p) (itinerary p) (centerCoordinates p)
     (currency p) (totalEstimatedCost p) (weatherAdvisory p)
     (createdAt p) s (postcardUrl p).

Definition set_createdAt (c : option Z) (p : t) : t :=
  mk (id p) (destination p) (summary p) (itinerary p) (centerCoordinates p)
     (currency p) (totalEstimatedCost p) (weatherAdvisory p)
     c (stayLocation p) (postcardUrl p).

Definition set_postcardUrl (u : option string) (p : t) : t :=
  mk (id p) (destination p) (summary p) (itinerary p) (centerCoordinates p)
     (currency p) (totalEstimatedCost p) (weatherAdvisory p)
     (createdAt p) (stayLocation p) u.

(** [plan.itinerary[dayIndex]]: the day, or [TypeError] when a member
    of the missing day is then accessed. *)
Definition day (dayIndex : nat) (p : t) : Js.outcome DayPlan.t :=
  match itinerary p !! dayIndex with
  | Some d => Js.Returns d
  | None => Js.Throws Js.TypeError
  end.
End TripPlan.

Module TripRequest.
Record t : Type := mk {
  destination : string;
  days : Z;
  interests : string;
  selectedAreas : option (list TripBounds.t);
  currency : Currency;
  startTime : option string;
  endTime : option string;
  customInstructions : option string;
  budgetCap : option Z;
  travelMonth : option string;
  includeStay : option bool;
  preSelectedStay : option Activity.t
}.
End TripRequest.

(** ** services/geminiService.ts

    The hosted model is outside the repository.  What it sends back is an
    input of the functions below; what is done with it is the code's.
    The prompts only travel to the model; the one that carries the
    excluded names is spelled out, the others are kept as the data they
    are built from.  Replies are taken to have the JSON shape the response
    schema asks for (an object, an array of objects or [null]s); inside
    that shape every member may be missing. *)

Module GeminiService.

(** How one [ai.models.generateContent] call ends, seen after
    [JSON.parse(response.text!)]. *)
Inductive generated (A : Type) : Type :=
| Failed (reason : string)   (* the call rejects: transport or service error *)
| Malformed                  (* [response.text] is missing or is not JSON *)
| Parsed (value : A).        (* the parsed value, cast to the expected type *)
Arguments Failed {A} reason.
Arguments Malformed {A}.
Arguments Parsed {A} value.

Definition parse {A} (r : generated A) : Js.outcome A :=
  match r with
  | Failed reason => Js.Throws (Js.Rejection reason)
  | Malformed => Js.Throws Js.SyntaxError
  | Parsed v => Js.Returns v
  end.

(** [process.env.API_KEY] read through [getApiKey]. *)
Definition getApiKey (API_KEY : option string) : Js.outcome string :=
  match API_KEY with
  | Some key =>
      if Js.truthy key then Js.Returns key
      else Js.Throws (Js.Error "API Key not found in environment variables")
  | None => Js.Throws (Js.Error "API Key not found in environment variables")
  end.

(** An element of a parsed activity array.  The cast [as Activity[]]
    checks nothing, so every member may be missing. *)
Module RawActivity.
Record t : Type := mk {
  name : option string;
  description : option string;
  location : option Coordinates.t;
  time : option string;
  type : option string;
  price : option string;
  items : option (list string);
  travelDistance : option string;
  travelTime : option string
}.
End RawActivity.

(** The parsed trip plan before [generateTripPlan] completes it. *)
Module RawTripPlan.
Record t : Type := mk {
  id : option string;
  destination : string;
  summary : string;
  itinerary : option (list DayPlan.t);
  centerCoordinates : Coordinates.t;
  currency : option string;
  totalEstimatedCost : Q;
  weatherAdvisory : string;
  createdAt : option Z;
  stayLocation : option Activity.t;
  postcardUrl : option string
}.
End RawTripPlan.

(** A grounding chunk: its [web] member, when it has one. *)
Definition GroundingChunk : Type := option GroundingLink.t.

(** [chunks.filter(c => c.web).map(c => ({ title: c.web.title, uri: c.web.uri }))] *)
Definition globalLinks (chunks : list GroundingChunk) : list GroundingLink.t :=
  omap (fun c => c) chunks.

(** [data.itinerary.forEach(day => day.activities.forEach(act =>
      act.groundingLinks = globalLinks.slice(0, 2)))] *)
Definition attach_links (links : list GroundingLink.t)
    (days : list DayPlan.t) : list DayPlan.t :=
  map (fun day =>
         DayPlan.set_activities
           (map (Activity.set_groundingLinks (take 2 links))
                (DayPlan.activities day))
           day)
      days.

Definition generateTripPlan (API_KEY : option string) (randomUUID : string)
    (request : TripRequest.t)
    (reply : generated (RawTripPlan.t * list GroundingChunk))
    : Js.outcome TripPlan.t :=
  _ ← getApiKey API_KEY;
  '(data, chunks) ← parse reply;
  let id := randomUUID in
  let currency := TripRequest.currency request in
  let stayLocation :=
    match TripRequest.preSelectedStay request with
    | Some chosen => Some chosen
    | None => RawTripPlan.stayLocation data
    end in
  match RawTripPlan.itinerary data with
  | None => Js.Throws Js.TypeError
  | Some days =>
      Js.Returns
        (TripPlan.mk id (RawTripPlan.destination data)
           (RawTripPlan.summary data)
           (attach_links (globalLinks chunks) days)
           (RawTripPlan.centerCoordinates data)
           currency
           (RawTripPlan.totalEstimatedCost data)
           (RawTripPlan.weatherAdvisory data)
           (RawTripPlan.createdAt data)
           stayLocation
           (RawTripPlan.postcardUrl data))
  end.

(** What [recalculateLogistics] puts into its prompt. *)
Module LogisticsPrompt.
Record t : Type := mk {
  destination : string;
  simplifiedActivities : list (string * Coordinates.t);
  startTime : string;
  simplifiedStay : option (string * Coordinates.t)
}.
End LogisticsPrompt.

Definition simplify (a : Activity.t) : string * Coordinates.t :=
  (Activity.name a, Activity.location a).

Definition logistics_prompt (activities : list Activity.t)
    (destination : string) (stayLocation : option Activity.t)
    (startTime : option string) : LogisticsPrompt.t :=
  LogisticsPrompt.mk destination (map simplify activities)
    (default "09:00 AM" startTime) (simplify <$> stayLocation).

(** [updatedLogistics[i]?.member]: [undefined] when the array is too
    short, when the element is [null], or when the member is missing. *)
Definition member (updatedLogistics : list (option RawActivity.t)) (i : nat)
    (get : RawActivity.t -> option string) : option string :=
  match updatedLogistics !! i with
  | Some (Some u) => get u
  | _ => None
  end.

(** The final [activities.map((original, i) => ({ ...original, ... }))]. *)
Definition merge_logistics (activities : list Activity.t)
    (updatedLogistics : list (option RawActivity.t)) : list Activity.t :=
  imap (fun i original =>
          Activity.with_logistics
            (Js.or_else (member updatedLogistics i RawActivity.time)
                        (Activity.time original))
            (Js.or_else (member updatedLogistics i RawActivity.travelDistance) "")
            (Js.or_else (member updatedLogistics i RawActivity.travelTime) "")
            original)
       activities.

Definition recalculateLogistics (API_KEY : option string)
    (activities : list Activity.t) (destination : string)
    (stayLocation : option Activity.t) (startTime : option string)
    (reply : generated (list (option RawActivity.t)))
    : Js.outcome (list Activity.t) :=
  _ ← getApiKey API_KEY;
  updatedLogistics ← parse reply;
  Js.Returns (merge_logistics activities updatedLogistics).

Definition dquote : string := String (Ascii.ascii_of_nat 34) EmptyString.

(** [`Alternative to "${currentActivity.name}" in ${destination}.
     Exclude: ${excludedPlaces.join(',')}.`] *)
Definition replacement_prompt (currentActivity : Activity.t)
    (destination : string) (excludedPlaces : list string) : string :=
  "Alternative to " +:+ dquote +:+ Activity.name currentActivity +:+ dquote
  +:+ " in " +:+ destination +:+ ". Exclude: "
  +:+ Js.join "," excludedPlaces +:+ ".".

Definition generateReplacementActivity (API_KEY : option string)
    (currentActivity : Activity.t) (destination theme : string)
    (currency : Currency) (excludedPlaces : list string)
    (reply : generated Activity.t) : Js.outcome Activity.t :=
  _ ← getApiKey API_KEY;
  parse reply.


#[global] Instance ActivityType_eq_dec : EqDecision ActivityType.t.
Proof. solve_decision. Defined.

(** What [generateTripPoster] puts into its prompt. *)
Module PosterPrompt.
Record t : Type := mk {
  destination : string;
  landmarks : string
}.
End PosterPrompt.

(** [plan.itinerary.flatMap(d => d.activities.filter(a => a.type ===
      'landmark').map(a => a.name)).slice(0, 4)] *)
Definition landmarkNames (plan : TripPlan.t) : list string :=
  take 4
    (flat_map
       (fun d =>
          map Activity.name
            (filter (fun a => Activity.type a = ActivityType.landmark)
                    (DayPlan.activities d)))
       (TripPlan.itinerary plan)).

Definition poster_prompt (plan : TripPlan.t) : PosterPrompt.t :=
  PosterPrompt.mk (TripPlan.destination plan) (Js.join ", " (landmarkNames plan)).

(** [response.candidates?.[0]?.content?.parts]: no first candidate or no
    content, a content without [parts], or the parts, each with the
    [data] of its [inlineData] when it has one. *)
Inductive PosterContent : Type :=
| NoContent
| NoParts
| Parts (parts : list (option string)).

(** How the image generation call ends. *)
Inductive PosterReply : Type :=
| PosterFailed (reason : string)
| PosterResponse (content : PosterContent).

Definition generateTripPoster (API_KEY : option string) (plan : TripPlan.t)
    (reply : PosterReply) : Js.outcome string :=
  _ ← getApiKey API_KEY;
  match reply with
  | PosterFailed reason => Js.Throws (Js.Rejection reason)
  | PosterResponse NoContent =>
      Js.Throws (Js.Error "No image data received from model")
  | PosterResponse NoParts => Js.Throws Js.TypeError
  | PosterResponse (Parts parts) =>
      match omap (fun p => p) parts with
      | data :: _ => Js.Returns ("data:image/png;base64," +:+ data)
      | [] => Js.Throws (Js.Error "No image data received from model")
      end
  end.

End GeminiService.

(** ** Suspended handlers

    An [async] handler either finishes without awaiting, or stops at its
    [await] with the state it has set so far, the call it is waiting for,
    and the rest of its body.  The rest runs on the state found at
    resumption; an exception ends the handler without a state change. *)

Inductive async (S Call Reply R : Type) : Type :=
| Finished (result : Js.outcome (S * R))
| Awaiting (suspended : S) (call : Call)
           (resume : Reply -> S -> Js.outcome (S * R)).
Arguments Finished {S Call Reply R} result.
Arguments Awaiting {S Call Reply R} suspended call resume.

(** The state a reader sees once the synchronous prefix has run. *)
Definition visible {S Call Reply R} (before : S) (t : async S Call Reply R) : S :=
  match t with
  | Finished (Js.Returns (s, _)) => s
  | Finished _ => before
  | Awaiting s _ _ => s
  end.

(** The call the handler is waiting for, if it waits. *)
Definition issued {S Call Reply R} (t : async S Call Reply R) : option Call :=
  match t with
  | Finished _ => None
  | Awaiting _ call _ => Some call
  end.

(** The handler run to its end when nothing else happens in between:
    the awaited call settles to [answer call]. *)
Definition complete {S Call Reply R} (answer : Call -> Reply)
    (t : async S Call Reply R) : Js.outcome (S * R) :=
  match t with
  | Finished result => result
  | Awaiting s call resume => resume (answer call) s
  end.

(** ** App.tsx

    The handlers copy the plan with [{ ...plan }] and then assign into
    the day objects and activity arrays that the copy shares with the
    original, so the value held in the [plan] state after [setPlan] is the
    plan with that one member replaced.  The state below holds that
    value.  A continuation works on the plan its closure captured; the
    statements about completed handlers are for runs in which no other
    handler ran while the call was awaited. *)

Module App.

Record DOMRect : Type := mkRect { left : Q; width : Q }.

Inductive PointerEvent : Type :=
| MouseEvent (clientX : Q)
| TouchEvent (touches : list Q).   (* [clientX] of each touch point *)

Record State : Type := mk {
  plan : option TripPlan.t;
  loading : bool;
  error : option string;
  selectedDayIndex : nat;
  areaSelections : list TripBounds.t;
  loadingMsgIndex : nat;
  savedPlans : list TripPlan.t;
  showHistory : bool;
  isRefreshingLogistics : bool;
  itineraryWidth : Q;
  isResizing : bool;
  (* [localStorage['tripgenie_saved_plans']], before serialisation *)
  storedPlans : option (list TripPlan.t)
}.

Definition initial : State :=
  mk None false None 0 [] 0 [] false false (480 # 1) false None.

Definition setPlan (v : option TripPlan.t) (s : State) : State :=
  mk v (loading s) (error s) (selectedDayIndex s) (areaSelections s)
     (loadingMsgIndex s) (savedPlans s) (showHistory s)
     (isRefreshingLogistics s) (itineraryWidth s) (isResizing s)
     (storedPlans s).

Definition setLoading (v : bool) (s : State) : State :=
  mk (plan s) v (error s) (selectedDayIndex s) (areaSelections s)
     (loadingMsgIndex s) (savedPlans s) (showHistory s)
     (isRefreshingLogistics s) (itineraryWidth s) (isResizing s)
     (storedPlans s).

Definition setError (v : option string) (s : State) : State :=
  mk (plan s) (loading s) v (selectedDayIndex s) (areaSelections s)
     (loadingMsgIndex s) (savedPlans s) (showHistory s)
     (isRefreshingLogistics s) (itineraryWidth s) (isResizing s)
     (storedPlans s).

Definition setSelectedDayIndex (v : nat) (s : State) : State :=
  mk (plan s) (loading s) (error s) v (areaSelections s)
     (loadingMsgIndex s) (savedPlans s) (showHistory s)
     (isRefreshingLogistics s) (itineraryWidth s) (isResizing s)
     (storedPlans s).

Definition setAreaSelections (v : list TripBounds.t) (s : State) : State :=
  mk (plan s) (loading s) (error s) (selectedDayIndex s) v
     (loadingMsgIndex s) (savedPlans s) (showHistory s)
     (isRefreshingLogistics s) (itineraryWidth s) (isResizing s)
     (storedPlans s).

Definition setLoadingMsgIndex (v : nat) (s : State) : State :=
  mk (plan s) (loading s) (error s) (selectedDayIndex s) (areaSelections s)
     v (savedPlans s) (showHistory s)
     (isRefreshingLogistics s) (itineraryWidth s) (isResizing s)
     (storedPlans s).

Definition setSavedPlans (v : list TripPlan.t) (s : State) : State :=
  mk (plan s) (loading s) (error s) (selectedDayIndex s) (areaSelections s)
     (loadingMsgIndex s) v (showHistory s)
     (isRefreshingLogistics s) (itineraryWidth s) (isResizing s)
     (storedPlans s).

Definition setShowHistory (v : bool) (s : State) : State :=
  mk (plan s) (loading s) (error s) (selectedDayIndex s) (areaSelections s)
     (loadingMsgIndex s) (savedPlans s) v
     (isRefreshingLogistics s) (itineraryWidth s) (isResizing s)
     (storedPlans s).

Definition setIsRefreshingLogistics (v : bool) (s : State) : State :=
  mk (plan s) (loading s) (error s) (selectedDayIndex s) (areaSelections s)
     (loadingMsgIndex s) (savedPlans s) (showHistory s)
     v (itineraryWidth s) (isResizing s) (storedPlans s).

Definition setItineraryWidth (v : Q) (s : State) : State :=
  mk (plan s) (loading s) (error s) (selectedDayIndex s) (areaSelections s)
     (loadingMsgIndex s) (savedPlans s) (showHistory s)
     (isRefreshingLogistics s) v (isResizing s) (storedPlans s).

Definition setIsResizing (v : bool) (s : State) : State :=
  mk (plan s) (loading s) (error s) (selectedDayIndex s) (areaSelections s)
     (loadingMsgIndex s) (savedPlans s) (showHistory s)
     (isRefreshingLogistics s) (itineraryWidth s) v (storedPlans s).

(** [localStorage.setItem('tripgenie_saved_plans', JSON.stringify(v))] *)
Definition setStoredPlans (v : list TripPlan.t) (s : State) : State :=
  mk (plan s) (loading s) (error s) (selectedDayIndex s) (areaSelections s)
     (loadingMsgIndex s) (savedPlans s) (showHistory s)
     (isRefreshingLogistics s) (itineraryWidth s) (isResizing s) (Some v).

Definition startResizing (s : State) : State := setIsResizing true s.

Definition stopResizing (s : State) : State := setIsResizing false s.

(** [e.clientX] of a mouse event, [e.touches[0].clientX] of a touch
    event. *)
Definition clientX (e : PointerEvent) : Js.outcome Q :=
  match e with
  | MouseEvent x => Js.Returns x
  | TouchEvent (x :: _) => Js.Returns x
  | TouchEvent [] => Js.Throws Js.TypeError
  end.

(** [resize], the handler of [mousemove] and [touchmove] on the window;
    [container] is [containerRef.current?.getBoundingClientRect()] and
    [round] the rounding of the subtraction and of the product. *)
Definition resize (round : Q -> Q) (e : PointerEvent)
    (container : option DOMRect) (s : State) : Js.outcome State :=
  match isResizing s, container with
  | true, Some rect =>
      x ← clientX e;
      let containerLeft := left rect in
      let containerWidth := width rect in
      let newWidth := Js.sub round x containerLeft in
      if Qlt_le_dec (320 # 1) newWidth then
        if Qlt_le_dec newWidth (Js.mul round containerWidth (3 # 4))
        then Js.Returns (setItineraryWidth newWidth s)
        else Js.Returns s
      else Js.Returns s
  | _, _ => Js.Returns s
  end.

(** [err.message]; the text of an engine error is some non-empty
    string. *)
Definition message (e : Js.error) : string :=
  match e with
  | Js.TypeError => "TypeError"
  | Js.SyntaxError => "SyntaxError"
  | Js.Error m => m
  | Js.Rejection m => m
  end.

Definition handlePlanTrip (request : TripRequest.t) (s : State)
    : async State TripRequest.t (Js.outcome TripPlan.t) unit :=
  let s := setPlan None (setError None (setLoadingMsgIndex 0 (setLoading true s))) in
  Awaiting s request
    (fun reply s =>
       match reply with
       | Js.Returns result =>
           Js.Returns (setLoading false (setSelectedDayIndex 0 (setPlan (Some result) s)), tt)
       | Js.Throws err =>
           Js.Returns
             (setLoading false
                (setError
                   (Some (Js.or_else (Some (message err))
                            "Something went wrong. Please try a different area."))
                   s), tt)
       | Js.Untyped => Js.Untyped
       end).

(** [p.itinerary[dayIndex].activities = acts], on a day that exists. *)
Definition with_activities (dayIndex : nat) (acts : list Activity.t)
    (p : TripPlan.t) : TripPlan.t :=
  TripPlan.set_itinerary
    (alter (DayPlan.set_activities acts) dayIndex (TripPlan.itinerary p)) p.

(** Arguments of a [recalculateLogistics] call. *)
Record LogisticsCall : Type := mkLogisticsCall {
  lc_activities : list Activity.t;
  lc_destination : string;
  lc_stayLocation : option Activity.t
}.

Definition handleReorderActivities (dayIndex : nat)
    (newActivities : list Activity.t) (s : State)
    : async State LogisticsCall (Js.outcome (list Activity.t)) unit :=
  match plan s with
  | None => Finished (Js.Returns (s, tt))
  | Some plan =>
      match TripPlan.day dayIndex plan with
      | Js.Returns _ =>
          let updatedPlan := with_activities dayIndex newActivities plan in
          let s := setIsRefreshingLogistics true (setPlan (Some updatedPlan) s) in
          Awaiting s
            (mkLogisticsCall newActivities (TripPlan.destination plan)
               (TripPlan.stayLocation plan))
            (fun reply s =>
               match reply with
               | Js.Returns syncedActivities =>
                   let finalPlan := with_activities dayIndex syncedActivities updatedPlan in
                   Js.Returns (setIsRefreshingLogistics false (setPlan (Some finalPlan) s), tt)
               | _ => Js.Returns (setIsRefreshingLogistics false s, tt)
               end)
      | Js.Throws e => Finished (Js.Throws e)
      | Js.Untyped => Finished Js.Untyped
      end
  end.

Definition handleEditActivity (dayIndex : nat) (activityIndex : Z)
    (updatedActivity : Activity.t) (s : State) : Js.outcome State :=
  match plan s with
  | None => Js.Returns s
  | Some plan =>
      if (activityIndex =? -1)%Z then
        Js.Returns (setPlan (Some (TripPlan.set_stayLocation (Some updatedActivity) plan)) s)
      else
        day ← TripPlan.day dayIndex plan;
        acts ← Js.assign (DayPlan.activities day) activityIndex updatedActivity;
        Js.Returns (setPlan (Some (with_activities dayIndex acts plan)) s)
  end.

(** Arguments of a [generateReplacementActivity] call. *)
Record ReplacementCall : Type := mkReplacementCall {
  rc_currentActivity : Activity.t;
  rc_destination : string;
  rc_theme : string;
  rc_currency : Currency;
  rc_excludedPlaces : list string
}.

(** [plan.itinerary.flatMap(day => day.activities.map(act => act.name))] *)
Definition excludedPlaces (p : TripPlan.t) : list string :=
  flat_map (fun day => map Activity.name (DayPlan.activities day))
           (TripPlan.itinerary p).

Definition handleReplaceActivity (dayIndex : nat) (activityIndex : Z)
    (currentActivity : Activity.t) (s : State)
    : async State ReplacementCall (Js.outcome Activity.t) (option Activity.t) :=
  match plan s with
  | None => Finished (Js.Returns (s, None))
  | Some plan =>
      let excluded := excludedPlaces plan in
      match TripPlan.day dayIndex plan with
      | Js.Returns day =>
          Awaiting s
            (mkReplacementCall currentActivity (TripPlan.destination plan)
               (DayPlan.theme day) (TripPlan.currency plan) excluded)
            (fun reply s =>
               newActivity ← reply;
               acts ← Js.assign (DayPlan.activities day) activityIndex newActivity;
               Js.Returns (setPlan (Some (with_activities dayIndex acts plan)) s,
                           Some newActivity))
      | Js.Throws e => Finished (Js.Throws e)
      | Js.Untyped => Finished Js.Untyped
      end
  end.

Definition handleSavePlan (now : Z) (planToSave : TripPlan.t) (s : State) : State :=
  let timestampedPlan := TripPlan.set_createdAt (Some now) planToSave in
  let newSaved :=
    timestampedPlan
      :: filter (fun p => TripPlan.id p ≠ TripPlan.id planToSave) (savedPlans s) in
  setStoredPlans newSaved (setSavedPlans newSaved s).

Definition handleDeleteSaved (id : string) (s : State) : State :=
  let newSaved := filter (fun p => TripPlan.id p ≠ id) (savedPlans s) in
  setStoredPlans newSaved (setSavedPlans newSaved s).

Definition loadSavedPlan (saved : TripPlan.t) (s : State) : State :=
  setShowHistory false (setSelectedDayIndex 0 (setPlan (Some saved) s)).

Definition resetApp (s : State) : State :=
  setAreaSelections [] (setPlan None s).


Definition LOADING_MESSAGES : list string :=
  [ "Scouring the map for hidden gems...";
    "Checking local opening hours...";
    "Calculating the best routes for you...";
    "Fact-checking locations with Google Search...";
    "Staying within your budget...";
    "Consulting the seasonal weather...";
    "Almost there! Polishing your itinerary..." ].

(** One firing of the interval, which exists only while [loading]
    holds. *)
Definition tick (s : State) : State :=
  if loading s
  then setLoadingMsgIndex ((loadingMsgIndex s + 1) mod length LOADING_MESSAGES) s
  else s.

(** [LOADING_MESSAGES[loadingMsgIndex]], the text under the spinner. *)
Definition shownMessage (s : State) : option string :=
  LOADING_MESSAGES !! loadingMsgIndex s.

(** The effect run once on mount: the archive is read from local
    storage when something is stored there (stored text that does not
    parse is logged and ignored; the model stores parsed lists only). *)
Definition mount (s : State) : State :=
  match storedPlans s with
  | Some stored => setSavedPlans stored s
  | None => s
  end.

(** [savedPlans.some(p => p.id === plan.id)] *)
Definition isAlreadySaved (plan : TripPlan.t) (s : State) : bool :=
  bool_decide (Exists (fun p => TripPlan.id p = TripPlan.id plan) (savedPlans s)).

End App.

(** ** components/ItineraryList.tsx *)

Module ItineraryList.

(** Calls made on the props handed down by [App]. *)
Inductive Call : Type :=
| onReorderActivities (dayIndex : nat) (newActivities : list Activity.t)
| onReplaceActivity (dayIndex : nat) (activityIndex : Z) (currentActivity : Activity.t)
| onEditActivity (dayIndex : nat) (activityIndex : Z) (updatedActivity : Activity.t)
| onSavePlan (plan : TripPlan.t).

Record State : Type := mk {
  selectedActivity : option (Activity.t * Z);
  isEditing : bool;
  editName : string;
  editDesc : string;
  postcardUrl : option string;
  draggedIndex : option nat;
  dropTargetIndex : option nat
}.

Definition setSelectedActivity (v : option (Activity.t * Z)) (u : State) : State :=
  mk v (isEditing u) (editName u) (editDesc u) (postcardUrl u)
     (draggedIndex u) (dropTargetIndex u).


Definition setDraggedIndex (v : option nat) (u : State) : State :=
  mk (selectedActivity u) (isEditing u) (editName u) (editDesc u)
     (postcardUrl u) v (dropTargetIndex u).

Definition setDropTargetIndex (v : option nat) (u : State) : State :=
  mk (selectedActivity u) (isEditing u) (editName u) (editDesc u)
     (postcardUrl u) (draggedIndex u) v.

(** Click on the card of activity [index] of the current day. *)
Definition selectCard (activity : Activity.t) (index : nat) (u : State) : State :=
  setSelectedActivity (Some (activity, Z.of_nat index)) u.

(** Click on one of the two base-camp cards, shown when the plan has a
    stay location. *)
Definition selectStayCard (plan : TripPlan.t) (u : State) : State :=
  match TripPlan.stayLocation plan with
  | Some s => setSelectedActivity (Some (s, (-1)%Z)) u
  | None => u
  end.

Definition handleSave (plan : TripPlan.t) (u : State) : Call :=
  onSavePlan
    (TripPlan.set_postcardUrl
       (match postcardUrl u with
        | Some url => if Js.truthy url then Some url else None
        | None => None
        end)
       plan).

(** The call made by [handleReplace], the handler of "Swap Spot". *)
Definition handleReplace (selectedDayIndex : nat) (u : State) : option Call :=
  match selectedActivity u with
  | None => None
  | Some (activity, index) => Some (onReplaceActivity selectedDayIndex index activity)
  end.


Definition onDragStart (index : nat) (u : State) : State :=
  setDraggedIndex (Some index) u.

Definition onDragOver (index : nat) (u : State) : State :=
  if decide (draggedIndex u = Some index) then u
  else setDropTargetIndex (Some index) u.

(** [onDrop]; [App] always passes the optional [onReorderActivities]
    prop.  The result is the new drag state and the call made on that
    prop, if one is made. *)
Definition onDrop (plan : TripPlan.t) (selectedDayIndex : nat)
    (targetIndex : nat) (u : State) : Js.outcome (State * option Call) :=
  let cleared := setDropTargetIndex None (setDraggedIndex None u) in
  match draggedIndex u with
  | None => Js.Returns (cleared, None)
  | Some dragged =>
      if decide (dragged = targetIndex) then Js.Returns (cleared, None)
      else
        currentDay ← TripPlan.day selectedDayIndex plan;
        let newActivities := DayPlan.activities currentDay in
        let '(removed, newActivities) := Js.splice_delete1 newActivities dragged in
        match removed with
        | item :: _ =>
            let newActivities := Js.splice_insert newActivities targetIndex item in
            Js.Returns (cleared, Some (onReorderActivities selectedDayIndex newActivities))
        | [] => Js.Untyped   (* [item] is [undefined] *)
        end
  end.




Definition setPostcardUrl (v : option string) (u : State) : State :=
  mk (selectedActivity u) (isEditing u) (editName u) (editDesc u) v
     (draggedIndex u) (dropTargetIndex u).


(** The cells of the component that the handlers above do not touch,
    beside those they do. *)
Record View : Type := mkView {
  cells : State;
  isReplacing : bool;
  isGeneratingPostcard : bool;
  showPostcardModal : bool
}.

Definition setCells (v : State) (w : View) : View :=
  mkView v (isReplacing w) (isGeneratingPostcard w) (showPostcardModal w).

Definition setIsReplacing (v : bool) (w : View) : View :=
  mkView (cells w) v (isGeneratingPostcard w) (showPostcardModal w).

Definition setIsGeneratingPostcard (v : bool) (w : View) : View :=
  mkView (cells w) (isReplacing w) v (showPostcardModal w).

Definition setShowPostcardModal (v : bool) (w : View) : View :=
  mkView (cells w) (isReplacing w) (isGeneratingPostcard w) v.

(** [handleReplace] with its [try]/[finally]: the awaited call is
    [onReplaceActivity]; the result is the exception that leaves the
    handler, if one does. *)
Definition handleReplaceAsync (selectedDayIndex : nat) (w : View)
    : async View Call (Js.outcome (option Activity.t)) (option Js.error) :=
  match handleReplace selectedDayIndex (cells w) with
  | None => Finished (Js.Returns (w, None))
  | Some call =>
      Awaiting (setIsReplacing true w) call
        (fun reply w =>
           match reply with
           | Js.Returns _ =>
               Js.Returns
                 (setIsReplacing false (setCells (setSelectedActivity None (cells w)) w),
                  None)
           | Js.Throws e => Js.Returns (setIsReplacing false w, Some e)
           | Js.Untyped => Js.Untyped
           end)
  end.

(** [handleGeneratePostcard]: the awaited call is [generateTripPoster(plan)];
    the result is the text of the alert, if one is shown. *)
Definition handleGeneratePostcard (plan : TripPlan.t) (w : View)
    : async View TripPlan.t (Js.outcome string) (option string) :=
  if match postcardUrl (cells w) with
     | Some url => Js.truthy url
     | None => false
     end
  then Finished (Js.Returns (setShowPostcardModal true w, None))
  else
    Awaiting (setIsGeneratingPostcard true w) plan
      (fun reply w =>
         match reply with
         | Js.Returns url =>
             Js.Returns
               (setIsGeneratingPostcard false
                  (setShowPostcardModal true
                     (setCells (setPostcardUrl (Some url) (cells w)) w)),
                None)
         | Js.Throws _ =>
             Js.Returns
               (setIsGeneratingPostcard false w,
                Some "Failed to generate AI postcard. Please try again.")
         | Js.Untyped => Js.Untyped
         end).

(** The file name given to [pdf.save] by [handleExportPdf]. *)
Definition pdfFileName (plan : TripPlan.t) : string :=
  "TripGenie-" +:+ Js.dashed (TripPlan.destination plan) +:+ ".pdf".

Inductive Icon : Type := Coffee | Camera | Armchair | Home | Footprints.

(** [ActivityIcon]: the icon and its colour class. *)
Definition ActivityIcon (type : ActivityType.t) : Icon * string :=
  match type with
  | ActivityType.food => (Coffee, "text-orange-500")
  | ActivityType.landmark => (Camera, "text-purple-600")
  | ActivityType.relax => (Armchair, "text-green-500")
  | ActivityType.stay => (Home, "text-blue-600")
  | ActivityType.activity => (Footprints, "text-blue-600")
  end.

End ItineraryList.

(** ** components/TripInput.tsx *)

Module TripInput.

Record State : Type := mk {
  destination : string;
  days : Z;
  interests : string;
  currency : Currency;
  includeStay : bool;
  preSelectedStay : option Activity.t;
  startTime : string;
  endTime : string;
  customInstructions : string;
  budgetCap : option Z;
  travelMonth : string
}.

(** The [onPlanTrip] call made by [handleSubmit], if it makes one. *)
Definition handleSubmit (selectedAreas : list TripBounds.t) (f : State)
    : option TripRequest.t :=
  if negb (Js.truthy (Js.trim (destination f))) && (length selectedAreas =? 0)%nat
  then None
  else
    Some (TripRequest.mk
            (destination f)
            (days f)
            (interests f)
            (if (0 <? length selectedAreas)%nat then Some selectedAreas else None)
            (currency f)
            (Some (startTime f))
            (Some (endTime f))
            (Some (customInstructions f))
            (budgetCap f)
            (Some (travelMonth f))
            (Some (includeStay f))
            (preSelectedStay f)).


Definition setDestination (v : string) (f : State) : State :=
  mk v (days f) (interests f) (currency f) (includeStay f) (preSelectedStay f)
     (startTime f) (endTime f) (customInstructions f) (budgetCap f) (travelMonth f).


(** The effect on [selectedAreas]: a region selection clears the
    destination text. *)
Definition onSelectedAreas (selectedAreas : list TripBounds.t) (f : State) : State :=
  if (0 <? length selectedAreas)%nat then setDestination "" f else f.







End TripInput.

(** ** components/HomeMap.tsx *)

Module HomeMap.

Definition LatLng : Type := Coordinates.t.

(** Leaflet's [L.latLngBounds(a, b)]: the smallest box that contains
    both corners, with [getNorth]/[getEast] its larger and
    [getSouth]/[getWest] its smaller latitude and longitude. *)
Record LatLngBounds : Type := mkBounds { southWest : LatLng; northEast : LatLng }.

Definition latLngBounds (a b : LatLng) : LatLngBounds :=
  mkBounds
    (Coordinates.mk (Qmin (Coordinates.lat a) (Coordinates.lat b))
                    (Qmin (Coordinates.lng a) (Coordinates.lng b)))
    (Coordinates.mk (Qmax (Coordinates.lat a) (Coordinates.lat b))
                    (Qmax (Coordinates.lng a) (Coordinates.lng b))).

Definition getNorth (b : LatLngBounds) : Q := Coordinates.lat (northEast b).
Definition getSouth (b : LatLngBounds) : Q := Coordinates.lat (southWest b).
Definition getEast (b : LatLngBounds) : Q := Coordinates.lng (northEast b).
Definition getWest (b : LatLngBounds) : Q := Coordinates.lng (southWest b).

Definition handleDrawComplete (selectedAreas : list TripBounds.t)
    (newBounds : TripBounds.t) : list TripBounds.t :=
  selectedAreas ++ [newBounds].

(** [newAreas.pop()] on a copy, only when the list is not empty. *)
Definition handleUndo (selectedAreas : list TripBounds.t) : list TripBounds.t :=
  if (0 <? length selectedAreas)%nat
  then take (length selectedAreas - 1) selectedAreas
  else selectedAreas.

Inductive MapEvent : Type :=
| mousedown (latlng : LatLng)
| mousemove (latlng : LatLng)
| mouseup.

Module AreaDrawer.

Record State : Type := mk {
  startPoint : option LatLng;
  currentPoint : option LatLng
}.

Definition idle : State := mk None None.

Section Handlers.

(** Leaflet's [LatLng.distanceTo], in metres; the library is not
    part of the repository. *)
Variable distanceTo : LatLng -> LatLng -> Q.

Variable isDrawingMode : bool.

(** One map event: the new drawer state and the [onDrawComplete]
    call, if one is made. *)
Definition handle (e : MapEvent) (d : State) : State * option TripBounds.t :=
  match e with
  | mousedown latlng =>
      if isDrawingMode then (mk (Some latlng) (Some latlng), None)
      else (d, None)
  | mousemove latlng =>
      match isDrawingMode, startPoint d with
      | true, Some _ => (mk (startPoint d) (Some latlng), None)
      | _, _ => (d, None)
      end
  | mouseup =>
      match startPoint d, currentPoint d, isDrawingMode with
      | Some startPoint, Some currentPoint, true =>
          let bounds := latLngBounds startPoint currentPoint in
          (mk None None,
           if Qlt_le_dec (100 # 1) (distanceTo startPoint currentPoint)
           then Some (TripBounds.mk (getNorth bounds) (getSouth bounds)
                                    (getEast bounds) (getWest bounds))
           else None)
      | _, _, _ => (d, None)
      end
  end.

(** The drawer inside [HomeMap]: [onDrawComplete] is
    [handleDrawComplete]. *)
Definition step (st : State * list TripBounds.t) (e : MapEvent)
    : State * list TripBounds.t :=
  let '(d, selectedAreas) := st in
  match handle e d with
  | (d', Some newBounds) => (d', handleDrawComplete selectedAreas newBounds)
  | (d', None) => (d', selectedAreas)
  end.

Definition run (events : list MapEvent) (st : State * list TripBounds.t)
    : State * list TripBounds.t :=
  foldl step st events.

End Handlers.

(** A completed drawing gesture: press at [anchor], drag through
    [path], release. *)
Definition gesture (anchor : LatLng) (path : list LatLng) : list MapEvent :=
  mousedown anchor :: map mousemove path ++ [mouseup].

(** Where the pointer is released. *)
Definition release (anchor : LatLng) (path : list LatLng) : LatLng :=
  List.last path anchor.

End AreaDrawer.

(** A stand-in for [distanceTo] with which the handlers can be run: the
    arc length of the legs along a parallel and along a meridian, at
    111195 m per degree (a sphere of radius 6371 km).  For two points on
    the equator it is the great-circle distance to within a metre per
    degree. *)
Definition arcDistance (a b : LatLng) : Q :=
  ((111195 # 1)
   * (Qabs (Coordinates.lat a - Coordinates.lat b)
      + Qabs (Coordinates.lng a - Coordinates.lng b)))%Q.


(** The box reported for the bounds of the visible map. *)
Definition boundsBox (b : LatLngBounds) : TripBounds.t :=
  TripBounds.mk (getNorth b) (getSouth b) (getEast b) (getWest b).

(** [handleSelectVisible]: the counter observed by [SelectVisibleHelper]. *)
Definition handleSelectVisible (selectVisibleTrigger : nat) : nat :=
  selectVisibleTrigger + 1.

(** The effect of [SelectVisibleHelper], run on mount and whenever
    [trigger] has changed; [mapBounds] is [map.getBounds()] at that
    moment. *)
Definition selectVisibleEffect (trigger : nat) (mapBounds : LatLngBounds)
    (selectedAreas : list TripBounds.t) : list TripBounds.t :=
  if (0 <? trigger)%nat
  then handleDrawComplete selectedAreas (boundsBox mapBounds)
  else selectedAreas.

(** A click on "Select Whole View" followed by the effect it triggers. *)
Definition clickSelectVisible (st : nat * list TripBounds.t)
    (mapBounds : LatLngBounds) : nat * list TripBounds.t :=
  let trigger := handleSelectVisible (fst st) in
  (trigger, selectVisibleEffect trigger mapBounds (snd st)).

End HomeMap.

(** ** components/TripMap.tsx *)

Module TripMap.

Inductive Glyph : Type :=
| House
| Number (n : Z).

(** [createCustomIcon]: the colour class and what is written in the
    marker. *)
Definition createCustomIcon (index : Z) (type : ActivityType.t) : string * Glyph :=
  let colorClass :=
    match type with
    | ActivityType.food => "bg-orange-500"
    | ActivityType.landmark => "bg-purple-600"
    | ActivityType.relax => "bg-green-500"
    | ActivityType.stay => "bg-blue-700 ring-4 ring-blue-200"
    | ActivityType.activity => "bg-blue-600"
    end in
  let inner :=
    match type with
    | ActivityType.stay => House
    | _ => Number (index + 1)
    end in
  (colorClass, inner).

Definition position (a : Activity.t) : Q * Q :=
  (Coordinates.lat (Activity.location a), Coordinates.lng (Activity.location a)).

(** [pathPositions]: the day's positions, between two copies of the
    stay's position when the plan has a stay. *)
Definition pathPositions (plan : TripPlan.t) (selectedDay : nat)
    : Js.outcome (list (Q * Q)) :=
  dayPlan ← TripPlan.day selectedDay plan;
  let pathPositions := map position (DayPlan.activities dayPlan) in
  match TripPlan.stayLocation plan with
  | Some stayLocation =>
      let stayPos := position stayLocation in
      Js.Returns ([stayPos] ++ pathPositions ++ [stayPos])
  | None => Js.Returns pathPositions
  end.

(** What [MapUpdater] asks of the map. *)
Inductive MapView : Type :=
| fitBounds (points : list (Q * Q))     (* [L.latLngBounds(pathPositions)] *)
| setView (center : Q * Q) (zoom : Z).

Definition mapView (plan : TripPlan.t) (selectedDay : nat) : Js.outcome MapView :=
  pathPositions ← pathPositions plan selectedDay;
  if (0 <? length pathPositions)%nat
  then Js.Returns (fitBounds pathPositions)
  else
    Js.Returns
      (setView (Coordinates.lat (TripPlan.centerCoordinates plan),
                Coordinates.lng (TripPlan.centerCoordinates plan)) 13).

(** Whether the connecting [Polyline] is drawn. *)
Definition showsPath (points : list (Q * Q)) : bool := (1 <? length points)%nat.

(** The markers of the map: the stay's, then one per activity. *)
Definition markers (plan : TripPlan.t) (selectedDay : nat)
    : Js.outcome (list ((Q * Q) * (string * Glyph))) :=
  dayPlan ← TripPlan.day selectedDay plan;
  let stayMarker :=
    match TripPlan.stayLocation plan with
    | Some s => [(position s, createCustomIcon (-1) ActivityType.stay)]
    | None => []
    end in
  Js.Returns
    (stayMarker
     ++ imap (fun index act =>
                (position act, createCustomIcon (Z.of_nat index) (Activity.type act)))
             (DayPlan.activities dayPlan)).

End TripMap.

(** ** Vocabulary of the specification *)

(** The reordering a drag-and-drop asks for, in the specification's words:
    remove the item at the source index, insert it at the target index. *)
Definition requested_order {A} (source target : nat) (l : list A) : list A :=
  match l !! source with
  | Some item =>
      let rest := delete source l in
      take target rest ++ item :: drop target rest
  | None => l
  end.

(** Reading the activities of a day from the application state. *)
Definition activities_of (s : App.State) (dayIndex : nat) : option (list Activity.t) :=
  p ← App.plan s;
  DayPlan.activities <$> TripPlan.itinerary p !! dayIndex.

(** The wiring of [ItineraryList] into [App] for a drop: the state a
    reader sees right after the drop handler has run, before the awaited
    logistics call settles. *)
Definition after_drop (s : App.State) (call : option ItineraryList.Call) : App.State :=
  match call with
  | Some (ItineraryList.onReorderActivities dayIndex newActivities) =>
      visible s (App.handleReorderActivities dayIndex newActivities s)
  | _ => s
  end.

(** Two activities are the same place: same name, same location. *)
Definition same_place (a b : Activity.t) : Prop :=
  Activity.name a = Activity.name b /\ Activity.location a = Activity.location b.

(** Everything in an activity except its logistics-derived members. *)
Definition same_identity (a b : Activity.t) : Prop :=
  Activity.name a = Activity.name b
  /\ Activity.description a = Activity.description b
  /\ Activity.location a = Activity.location b
  /\ Activity.type a = Activity.type b
  /\ Activity.price a = Activity.price b
  /\ Activity.items a = Activity.items b
  /\ Activity.groundingLinks a = Activity.groundingLinks b.

(** Reading the base camp from the application state. *)
Definition stay_of (s : App.State) : option Activity.t :=
  p ← App.plan s; TripPlan.stayLocation p.

(** The wiring of [TripInput] into [App] for a form submission. *)
Definition submit (selectedAreas : list TripBounds.t) (f : TripInput.State)
    (s : App.State) : async App.State TripRequest.t (Js.outcome TripPlan.t) unit :=
  match TripInput.handleSubmit selectedAreas f with
  | Some request => App.handlePlanTrip request s
  | None => Finished (Js.Returns (s, tt))
  end.

(** The pane width a resize event asks for lies in the band in which it
    is applied. *)
Definition in_band (newWidth containerWidth : Q) : Prop :=
  (320 # 1 < newWidth)%Q /\ (newWidth < containerWidth * (3 # 4))%Q.

(** The test [resize] makes on the numbers it has computed: the bound is
    the rounded product. *)
Definition passes_test (round : Q -> Q) (newWidth containerWidth : Q) : Prop :=
  (320 # 1 < newWidth)%Q /\ (newWidth < Js.mul round containerWidth (3 # 4))%Q.


(** The box the drawer reports for a drag from [a] to [b]. *)
Definition drawn_box (a b : HomeMap.LatLng) : TripBounds.t :=
  TripBounds.mk
    (Qmax (Coordinates.lat a) (Coordinates.lat b))
    (Qmin (Coordinates.lat a) (Coordinates.lat b))
    (Qmax (Coordinates.lng a) (Coordinates.lng b))
    (Qmin (Coordinates.lng a) (Coordinates.lng b)).

(** An archive entry [q] that a save of [p] keeps: its id is not [p]'s. *)
Definition other_id (p q : TripPlan.t) : Prop := TripPlan.id q ≠ TripPlan.id p.

#[global] Instance other_id_dec (p q : TripPlan.t) : Decision (other_id p q).
Proof. unfold other_id. apply _. Defined.

(** A destination text that is empty or consists of white space only. *)
Definition blank (s : string) : Prop :=
  Forall (fun c => Js.is_white_space c = true) (String.list_ascii_of_string s).

(** The wiring of [ItineraryList] into [App] for "Swap Spot", run to the
    end with the collaborator answering [answer]: the two states and the
    exception that leaves [handleReplace], if one does. *)
Definition swap_spot (answer : App.ReplacementCall -> Js.outcome Activity.t)
    (selectedDayIndex : nat) (s : App.State) (w : ItineraryList.View)
    : Js.outcome (App.State * ItineraryList.View * option Js.error) :=
  match ItineraryList.handleReplaceAsync selectedDayIndex w with
  | Finished r => '(w', e) ← r; Js.Returns (s, w', e)
  | Awaiting w1 (ItineraryList.onReplaceActivity d i current) resume =>
      match complete answer (App.handleReplaceActivity d i current s) with
      | Js.Returns (s', result) =>
          '(w', e) ← resume (Js.Returns result) w1; Js.Returns (s', w', e)
      | Js.Throws err =>
          '(w', e) ← resume (Js.Throws err) w1; Js.Returns (s, w', e)
      | Js.Untyped => Js.Untyped
      end
  | Awaiting _ _ _ => Js.Untyped
  end.


(** The wiring of [ItineraryList] into [App] for the "Save" button. *)
Definition save_from_list (now : Z) (plan : TripPlan.t) (s : App.State)
    (u : ItineraryList.State) : App.State :=
  match ItineraryList.handleSave plan u with
  | ItineraryList.onSavePlan planToSave => App.handleSavePlan now planToSave s
  | _ => s
  end.

(** The width of the pane lies in the band for a container of the given
    width. *)
Definition width_in_band (containerWidth : Q) (s : App.State) : Prop :=
  in_band (App.itineraryWidth s) containerWidth.

(** A run of resize events, each over the container as it is then; an
    event that throws leaves the state as it is. *)
Definition resize_all (round : Q -> Q)
    (events : list (App.PointerEvent * option App.DOMRect))
    (s : App.State) : App.State :=
  foldl (fun s ev =>
           match App.resize round ev.1 ev.2 s with
           | Js.Returns s' => s'
           | _ => s
           end) s events.

(** The drawer holds both points or neither. *)
Definition paired (d : HomeMap.AreaDrawer.State) : Prop :=
  HomeMap.AreaDrawer.startPoint d = None
  <-> HomeMap.AreaDrawer.currentPoint d = None.

(** A text without any white-space character. *)
Definition no_white_space (s : string) : Prop :=
  Forall (fun c => Js.is_white_space c = false) (String.list_ascii_of_string s).

(** The application after a page reload: every cell as on start, local
    storage as it was left, and the mount effect run. *)
Definition reloaded (s : App.State) : App.State :=
  App.mount
    (App.mk None false None 0 [] 0 [] false false (480 # 1) false (App.storedPlans s)).

(** The ids of the archive, in order. *)
Definition archive_ids (s : App.State) : list string :=
  TripPlan.id <$> App.savedPlans s.

(** The number of releases among map events. *)
Fixpoint releases (events : list HomeMap.MapEvent) : nat :=
  match events with
  | [] => 0
  | HomeMap.mouseup :: events => S (releases events)
  | _ :: events => releases events
  end.

(** A box whose south edge is not above its north edge and whose west
    edge is not right of its east edge. *)
Definition upright (b : TripBounds.t) : Prop :=
  (TripBounds.south b <= TripBounds.north b)%Q
  /\ (TripBounds.west b <= TripBounds.east b)%Q.

(** ** A sample itinerary

    Concrete data on which the handlers are run. *)

Module Sample.

Definition at_ (lat lng : Q) : Coordinates.t := Coordinates.mk lat lng.

Definition place (name : string) (where_ : Coordinates.t) (time : string)
    (type : ActivityType.t) : Activity.t :=
  Activity.mk name ("Visit " +:+ name) where_ time type (Some "10")
    (Some []) None (Some "2 km") (Some "10 min").

Definition louvre : Activity.t :=
  place "Louvre" (at_ (48861 # 1000) (2336 # 1000)) "09:00 AM" ActivityType.landmark.
Definition bistro : Activity.t :=
  place "Bistro" (at_ (48857 # 1000) (2340 # 1000)) "12:00 PM" ActivityType.food.
Definition tower : Activity.t :=
  place "Tower" (at_ (48858 # 1000) (2294 # 1000)) "02:00 PM" ActivityType.landmark.
Definition river : Activity.t :=
  place "River" (at_ (48853 # 1000) (2349 # 1000)) "05:00 PM" ActivityType.relax.
Definition garden : Activity.t :=
  place "Garden" (at_ (48846 # 1000) (2337 # 1000)) "10:00 AM" ActivityType.relax.
Definition hotel : Activity.t :=
  place "Hotel" (at_ (48860 # 1000) (2330 # 1000)) "Check-in" ActivityType.stay.
Definition museum : Activity.t :=
  place "Museum" (at_ (48860 # 1000) (2327 # 1000)) "09:30 AM" ActivityType.landmark.

Definition day1 : DayPlan.t := DayPlan.mk 1 "Classics" [louvre; bistro; tower; river].
Definition day2 : DayPlan.t := DayPlan.mk 2 "Left bank" [garden].

Definition paris : TripPlan.t :=
  TripPlan.mk "plan-1" "Paris" "Two days in Paris" [day1; day2]
    (at_ (48857 # 1000) (2335 # 1000)) USD (120 # 1) "Mild" None (Some hotel) None.

Definition rome : TripPlan.t :=
  TripPlan.mk "plan-2" "Rome" "One day in Rome" [day2]
    (at_ (41900 # 1000) (12500 # 1000)) INR (80 # 1) "Warm" (Some 5%Z) None None.

(** The application with [paris] loaded. *)
Definition loaded : App.State := App.setPlan (Some paris) App.initial.

(** The itinerary view while the card at index 2 is being dragged. *)
Definition dragging : ItineraryList.State :=
  ItineraryList.mk None false "" "" None (Some 2) (Some 0).

(** The itinerary view after a click on the base-camp card. *)
Definition stay_selected : ItineraryList.State :=
  ItineraryList.selectStayCard paris (ItineraryList.mk None false "" "" None None None).

(** An archive that already holds an older save of [paris]. *)
Definition archive : App.State :=
  App.setSavedPlans [rome; TripPlan.set_createdAt (Some 7%Z) paris] loaded.

Definition form (destination : string) : TripInput.State :=
  TripInput.mk destination 3 "Food" USD false None "09:00" "20:00" "" None "May".

Definition box : TripBounds.t := TripBounds.mk (49 # 1) (48 # 1) (3 # 1) (2 # 1).

Definition container : App.DOMRect := App.mkRect (0 # 1) (1600 # 1).



Definition leg (time distance duration : option string)
    : GeminiService.RawActivity.t :=
  GeminiService.RawActivity.mk None None None time None None None distance duration.

(** A logistics reply that is shorter than the day it is for: a full
    entry, a [null], an entry without a time, and nothing for the
    fourth activity. *)
Definition short_reply : list (option GeminiService.RawActivity.t) :=
  [ Some (leg (Some "09:15 AM") (Some "1 km") (Some "5 min"));
    None;
    Some (leg None (Some "3 km") None) ].

(** Raw output of the collaborator that carries an id, a currency and
    a stay of its own. *)
Definition raw_paris : GeminiService.RawTripPlan.t :=
  GeminiService.RawTripPlan.mk (Some "made-up") "Paris" "Two days in Paris"
    (Some [day1; day2]) (at_ (48857 # 1000) (2335 # 1000)) (Some "EUR")
    (120 # 1) "Mild" None (Some museum) None.

Definition chunks : list GeminiService.GroundingChunk :=
  [ Some (GroundingLink.mk "Guide" "https://example.org/guide"); None ].

Definition request : TripRequest.t :=
  TripRequest.mk "Paris" 2 "Food" None INR (Some "09:00") (Some "20:00")
    (Some "") None (Some "May") (Some true) (Some hotel).

(** The itinerary view with nothing selected, and after a click on the
    second card of the first day. *)
Definition view : ItineraryList.View :=
  ItineraryList.mkView (ItineraryList.mk None false "" "" None None None)
    false false false.

Definition bistro_selected : ItineraryList.View :=
  ItineraryList.setCells (ItineraryList.selectCard bistro 1 (ItineraryList.cells view))
    view.



(** The bounds of the visible map: south-west and north-east corners. *)
Definition viewport : HomeMap.LatLngBounds :=
  HomeMap.mkBounds (at_ (47 # 1) (1 # 1)) (at_ (50 # 1) (4 # 1)).

End Sample.

(** ** Lists *)

Section ListFacts.
Context {A : Type}.
Implicit Types (l : list A) (x : A) (i j : nat).

Lemma splice_delete1_lookup l i x :
  l !! i = Some x -> Js.splice_delete1 l i = ([x], delete i l).
Proof.
  intros Hx. unfold Js.splice_delete1.
  rewrite (drop_S _ _ _ Hx), delete_take_drop. reflexivity.
Qed.

Lemma splice_delete1_out_of_range l i :
  length l <= i -> Js.splice_delete1 l i = ([], l).
Proof.
  intros Hi. unfold Js.splice_delete1.
  rewrite (drop_ge l i), (drop_ge l (S i)), (take_ge l i) by lia.
  simpl. by rewrite app_nil_r.
Qed.

Lemma requested_order_same l i : requested_order i i l = l.
Proof.
  unfold requested_order. destruct (l !! i) as [x|] eqn:Hx; [|done].
  assert (i < length l) by (by eapply lookup_lt_Some).
  rewrite delete_take_drop.
  rewrite take_app_length', drop_app_length' by (rewrite length_take; lia).
  by apply take_drop_middle.
Qed.

Lemma requested_order_Permutation l i j : l ≡ₚ requested_order i j l.
Proof.
  unfold requested_order. destruct (l !! i) as [x|] eqn:Hx; [|done].
  rewrite <- Permutation_middle, take_drop. by apply delete_Permutation.
Qed.

Lemma requested_order_length l i j : length (requested_order i j l) = length l.
Proof. symmetry. apply Permutation_length, requested_order_Permutation. Qed.

End ListFacts.

(** ** Reordering by drag and drop *)

Lemma plan_setPlan (v : option TripPlan.t) (s : App.State) :
  App.plan (App.setPlan v s) = v.
Proof. reflexivity. Qed.

Lemma activities_of_with_activities (s s' : App.State) (p : TripPlan.t)
    (d d' : nat) (acts : list Activity.t) :
  App.plan s = Some p ->
  App.plan s' = Some (App.with_activities d acts p) ->
  activities_of s' d' =
    if decide (d = d')
    then (fun _ => acts) <$> TripPlan.itinerary p !! d
    else activities_of s d'.
Proof.
  intros Hp Hp'. unfold activities_of. rewrite Hp, Hp'. simpl.
  destruct (decide (d = d')) as [<-|Hne].
  - rewrite list_lookup_alter_eq. by destruct (TripPlan.itinerary p !! d).
  - by rewrite list_lookup_alter_ne.
Qed.

Lemma onDrop_requested_order (p : TripPlan.t) (d : nat) (day : DayPlan.t)
    (u : ItineraryList.State) (src tgt : nat) :
  TripPlan.itinerary p !! d = Some day ->
  ItineraryList.draggedIndex u = Some src ->
  src < length (DayPlan.activities day) ->
  src ≠ tgt ->
  ItineraryList.onDrop p d tgt u =
    Js.Returns
      (ItineraryList.setDropTargetIndex None (ItineraryList.setDraggedIndex None u),
       Some (ItineraryList.onReorderActivities d
               (requested_order src tgt (DayPlan.activities day)))).
Proof.
  intros Hday Hdrag Hsrc Hne.
  destruct (lookup_lt_is_Some_2 _ _ Hsrc) as [item Hitem].
  unfold ItineraryList.onDrop, TripPlan.day, requested_order.
  rewrite Hdrag, Hday, Hitem. rewrite decide_False by done.
  cbn [mbind outcome_bind Js.bind DayPlan.activities].
  by rewrite (splice_delete1_lookup _ _ _ Hitem).
Qed.

(** C1.  With a plan loaded, a valid day [d] on display and the card at a
    valid index [src] being dragged, dropping it on index [tgt] makes the
    day's activities, read right after the drop handler has run and while
    the logistics refresh is still awaited, exactly the list obtained by
    removing the item at [src] and inserting it at [tgt].  That list is a
    permutation of the original one, each of its members is one of the
    original activities (same name and location), and the other days are
    untouched. *)
Theorem reorder_is_requested_permutation
    (s : App.State) (u : ItineraryList.State) (p : TripPlan.t)
    (d : nat) (day : DayPlan.t) (src tgt : nat) :
  App.plan s = Some p ->
  TripPlan.itinerary p !! d = Some day ->
  ItineraryList.draggedIndex u = Some src ->
  src < length (DayPlan.activities day) ->
  exists u' call,
    ItineraryList.onDrop p d tgt u = Js.Returns (u', call)
    /\ activities_of (after_drop s call) d
       = Some (requested_order src tgt (DayPlan.activities day))
    /\ requested_order src tgt (DayPlan.activities day) ≡ₚ DayPlan.activities day
    /\ (forall a, a ∈ requested_order src tgt (DayPlan.activities day) ->
          exists b, b ∈ DayPlan.activities day /\ same_place a b)
    /\ (forall d', d' ≠ d -> activities_of (after_drop s call) d' = activities_of s d')
    /\ (src ≠ tgt -> App.isRefreshingLogistics (after_drop s call) = true).
Proof.
  intros Hp Hday Hdrag Hsrc.
  pose proof (requested_order_Permutation (DayPlan.activities day) src tgt) as Hperm.
  assert (Hin : forall a, a ∈ requested_order src tgt (DayPlan.activities day) ->
                  exists b, b ∈ DayPlan.activities day /\ same_place a b).
  { intros a Ha. exists a. split; [by rewrite Hperm | by split]. }
  destruct (decide (src = tgt)) as [<-|Hne].
  - exists (ItineraryList.setDropTargetIndex None (ItineraryList.setDraggedIndex None u)), None.
    rewrite requested_order_same in *. repeat split; try done.
    + unfold ItineraryList.onDrop. rewrite Hdrag. by rewrite decide_True.
    + unfold after_drop, activities_of. rewrite Hp. simpl. by rewrite Hday.
  - eexists _, _. split; [by apply onDrop_requested_order|].
    assert (Hvis : App.plan (after_drop s
                     (Some (ItineraryList.onReorderActivities d
                              (requested_order src tgt (DayPlan.activities day)))))
                   = Some (App.with_activities d
                             (requested_order src tgt (DayPlan.activities day)) p)).
    { unfold after_drop, App.handleReorderActivities, TripPlan.day.
      by rewrite Hp, Hday. }
    repeat split; try done.
    + rewrite (activities_of_with_activities s _ p d d _ Hp Hvis).
      rewrite decide_True by done. by rewrite Hday.
    + intros d' Hd'. rewrite (activities_of_with_activities s _ p d d' _ Hp Hvis).
      by rewrite decide_False.
    + intros _. unfold after_drop, App.handleReorderActivities, TripPlan.day.
      by rewrite Hp, Hday.
Qed.

(** The specification's example: moving index 2 to index 0 in a day of
    four gives the order [a2; a0; a1; a3]. *)
Lemma reorder_is_requested_permutation_witness :
  exists u' call,
    ItineraryList.onDrop Sample.paris 0 0 Sample.dragging = Js.Returns (u', call)
    /\ activities_of (after_drop Sample.loaded call) 0
       = Some [Sample.tower; Sample.louvre; Sample.bistro; Sample.river].
Proof.
  destruct (reorder_is_requested_permutation Sample.loaded Sample.dragging
              Sample.paris 0 Sample.day1 2 0)
    as (u' & call & Hdrop & Hread & _); [reflexivity | reflexivity | reflexivity | simpl; lia |].
  exists u', call. split; [exact Hdrop | exact Hread].
Defined.

(** ** Logistics refresh *)

Lemma getApiKey_configured (key : string) :
  Js.truthy key = true -> GeminiService.getApiKey (Some key) = Js.Returns key.
Proof. intros Hkey. unfold GeminiService.getApiKey. by rewrite Hkey. Qed.

Lemma with_logistics_identity (t d tt : string) (a : Activity.t) :
  same_identity a (Activity.with_logistics t d tt a).
Proof. by repeat split. Qed.

Lemma merge_logistics_lookup (acts : list Activity.t)
    (l : list (option GeminiService.RawActivity.t)) (i : nat) :
  GeminiService.merge_logistics acts l !! i =
    (fun original =>
       Activity.with_logistics
         (Js.or_else (GeminiService.member l i GeminiService.RawActivity.time)
                     (Activity.time original))
         (Js.or_else (GeminiService.member l i GeminiService.RawActivity.travelDistance) "")
         (Js.or_else (GeminiService.member l i GeminiService.RawActivity.travelTime) "")
         original) <$> acts !! i.
Proof. unfold GeminiService.merge_logistics. by rewrite list_lookup_imap. Qed.

Lemma merge_logistics_length (acts : list Activity.t)
    (l : list (option GeminiService.RawActivity.t)) :
  length (GeminiService.merge_logistics acts l) = length acts.
Proof. apply length_imap. Qed.

Lemma merge_logistics_frame (acts : list Activity.t)
    (l : list (option GeminiService.RawActivity.t)) :
  Forall2 same_identity acts (GeminiService.merge_logistics acts l).
Proof.
  apply Forall2_same_length_lookup. split.
  - symmetry. apply merge_logistics_length.
  - intros i a b Ha Hb. rewrite merge_logistics_lookup, Ha in Hb.
    injection Hb as <-. apply with_logistics_identity.
Qed.

Lemma recalculateLogistics_inv (API_KEY : option string)
    (acts : list Activity.t) (dest : string) (stay : option Activity.t)
    (start : option string)
    (reply : GeminiService.generated (list (option GeminiService.RawActivity.t)))
    (out : list Activity.t) :
  GeminiService.recalculateLogistics API_KEY acts dest stay start reply = Js.Returns out ->
  exists l, reply = GeminiService.Parsed l /\ out = GeminiService.merge_logistics acts l.
Proof.
  unfold GeminiService.recalculateLogistics.
  destruct (GeminiService.getApiKey API_KEY); [|done..].
  destruct reply as [r| |l]; simpl; [done..|].
  intros [= <-]. by exists l.
Qed.

(** C2.  Whatever the collaborator answers, a list returned by
    [recalculateLogistics] has the length and the order of its input, and
    at each position everything but [time], [travelDistance] and
    [travelTime] is the input's: name, description, location, type, price,
    items and groundingLinks are unchanged.  With an API key configured,
    every parsed answer does produce such a list. *)
Theorem logistics_refresh_preserves_identity
    (acts : list Activity.t) (dest : string) (stay : option Activity.t)
    (start : option string)
    (reply : GeminiService.generated (list (option GeminiService.RawActivity.t))) :
  (forall API_KEY out,
      GeminiService.recalculateLogistics API_KEY acts dest stay start reply
        = Js.Returns out ->
      length out = length acts
      /\ Forall2 same_identity acts out)
  /\ (forall key l,
        Js.truthy key = true ->
        reply = GeminiService.Parsed l ->
        exists out,
          GeminiService.recalculateLogistics (Some key) acts dest stay start reply
            = Js.Returns out).
Proof.
  split.
  - intros API_KEY out Hout.
    destruct (recalculateLogistics_inv _ _ _ _ _ _ _ Hout) as (l & _ & ->).
    split; [apply merge_logistics_length | apply merge_logistics_frame].
  - intros key l Hkey ->. eexists.
    unfold GeminiService.recalculateLogistics.
    by rewrite (getApiKey_configured _ Hkey).
Qed.

Lemma logistics_refresh_preserves_identity_witness :
  exists out,
    GeminiService.recalculateLogistics (Some "k") (DayPlan.activities Sample.day1)
      "Paris" (Some Sample.hotel) None (GeminiService.Parsed Sample.short_reply)
      = Js.Returns out
    /\ length out = 4
    /\ Forall2 same_identity (DayPlan.activities Sample.day1) out.
Proof.
  destruct (logistics_refresh_preserves_identity (DayPlan.activities Sample.day1)
              "Paris" (Some Sample.hotel) None
              (GeminiService.Parsed Sample.short_reply)) as [Hframe Htotal].
  destruct (Htotal "k" Sample.short_reply) as [out Hout]; [reflexivity | reflexivity |].
  exists out. split; [exact Hout|]. exact (Hframe (Some "k") out Hout).
Defined.

(** C10.  With an API key configured, [recalculateLogistics] returns a
    list on every parsed array, however short: the output has exactly the
    input's length, and where the answer has no entry for position [i] (the
    array is too short or the entry is [null]) the output keeps the
    original activity with its own [time] and the empty string for
    [travelDistance] and [travelTime].  The same fallbacks apply member by
    member when an entry lacks one of the three. *)
Theorem logistics_refresh_total_on_short_reply
    (key : string) (acts : list Activity.t) (dest : string)
    (stay : option Activity.t) (start : option string)
    (l : list (option GeminiService.RawActivity.t)) :
  Js.truthy key = true ->
  exists out,
    GeminiService.recalculateLogistics (Some key) acts dest stay start
      (GeminiService.Parsed l) = Js.Returns out
    /\ length out = length acts
    /\ (forall i a,
          acts !! i = Some a ->
          l !! i = None \/ l !! i = Some None ->
          out !! i = Some (Activity.with_logistics (Activity.time a) "" "" a))
    /\ (forall i a,
          acts !! i = Some a ->
          exists b,
            out !! i = Some b
            /\ (GeminiService.member l i GeminiService.RawActivity.time = None ->
                Activity.time b = Activity.time a)
            /\ (GeminiService.member l i GeminiService.RawActivity.travelDistance = None ->
                Activity.travelDistance b = Some "")
            /\ (GeminiService.member l i GeminiService.RawActivity.travelTime = None ->
                Activity.travelTime b = Some "")).
Proof.
  intros Hkey. exists (GeminiService.merge_logistics acts l).
  split; [|split; [|split]].
  - unfold GeminiService.recalculateLogistics.
    by rewrite (getApiKey_configured _ Hkey).
  - apply merge_logistics_length.
  - intros i a Ha Hmissing. rewrite merge_logistics_lookup, Ha.
    unfold GeminiService.member. by destruct Hmissing as [-> | ->].
  - intros i a Ha. eexists. rewrite merge_logistics_lookup, Ha.
    split; [reflexivity|].
    repeat split; intros ->; reflexivity.
Qed.

Lemma logistics_refresh_total_on_short_reply_witness :
  exists out,
    GeminiService.recalculateLogistics (Some "k") (DayPlan.activities Sample.day1)
      "Paris" (Some Sample.hotel) None (GeminiService.Parsed Sample.short_reply)
    = Js.Returns out
    /\ length out = 4
    /\ out !! 1 = Some (Activity.with_logistics "12:00 PM" "" "" Sample.bistro)
    /\ out !! 3 = Some (Activity.with_logistics "05:00 PM" "" "" Sample.river).
Proof.
  destruct (logistics_refresh_total_on_short_reply "k"
              (DayPlan.activities Sample.day1) "Paris" (Some Sample.hotel) None
              Sample.short_reply) as (out & Hout & Hlen & Hmissing & _);
    [reflexivity|].
  exists out. repeat split.
  - exact Hout.
  - exact Hlen.
  - apply (Hmissing 1 Sample.bistro); [reflexivity | right; reflexivity].
  - apply (Hmissing 3 Sample.river); [reflexivity | left; reflexivity].
Defined.

(** ** Reorder, then refresh *)

(** X16.  When the awaited refresh succeeds the day shows the refreshed list;
    when it fails the reorder stays and only the syncing flag is reset. *)
Lemma reorder_then_refresh
    (s : App.State) (p : TripPlan.t) (d : nat) (day : DayPlan.t)
    (newActivities : list Activity.t) :
  App.plan s = Some p ->
  TripPlan.itinerary p !! d = Some day ->
  (forall synced,
      exists s',
        complete (fun _ => Js.Returns synced)
          (App.handleReorderActivities d newActivities s) = Js.Returns (s', tt)
        /\ activities_of s' d = Some synced
        /\ App.isRefreshingLogistics s' = false)
  /\ (forall e,
        exists s',
          complete (fun _ => Js.Throws e)
            (App.handleReorderActivities d newActivities s) = Js.Returns (s', tt)
          /\ activities_of s' d = Some newActivities
          /\ App.isRefreshingLogistics s' = false).
Proof.
  intros Hp Hday. split.
  - intros synced. eexists.
    unfold App.handleReorderActivities, TripPlan.day. rewrite Hp, Hday.
    cbn [complete]. split; [reflexivity|]. split; [|reflexivity].
    unfold activities_of. simpl. by rewrite !list_lookup_alter_eq, Hday.
  - intros e. eexists.
    unfold App.handleReorderActivities, TripPlan.day. rewrite Hp, Hday.
    cbn [complete]. split; [reflexivity|]. split; [|reflexivity].
    unfold activities_of. simpl. by rewrite list_lookup_alter_eq, Hday.
Qed.

(** The specification's scenario, end to end: index 2 is moved to index 0
    in a day of four, the refresh answers with [Sample.short_reply], and
    the day ends up in the new order with fresh logistics and the same
    names and locations. *)
Example reorder_then_refresh_paris :
  exists s',
    complete
      (fun call =>
         GeminiService.recalculateLogistics (Some "k") (App.lc_activities call)
           (App.lc_destination call) (App.lc_stayLocation call) None
           (GeminiService.Parsed Sample.short_reply))
      (App.handleReorderActivities 0
         (requested_order 2 0 (DayPlan.activities Sample.day1)) Sample.loaded)
    = Js.Returns (s', tt)
    /\ activities_of s' 0
       = Some [ Activity.with_logistics "09:15 AM" "1 km" "5 min" Sample.tower;
                Activity.with_logistics "09:00 AM" "" "" Sample.louvre;
                Activity.with_logistics "12:00 PM" "3 km" "" Sample.bistro;
                Activity.with_logistics "05:00 PM" "" "" Sample.river ].
Proof. eexists. split; reflexivity. Qed.

(** ** The saved-plan archive *)

Section Archive.
Implicit Types (p q : TripPlan.t) (saved : list TripPlan.t).

Lemma filter_keeps_all p saved :
  (forall q, q ∈ saved -> other_id p q) -> filter (other_id p) saved = saved.
Proof.
  induction saved as [|q saved IH]; intros Hall; [done|].
  rewrite filter_cons_True by (apply Hall; left).
  f_equal. apply IH. intros q' Hq'. apply Hall. by right.
Qed.

Lemma filter_drops_one p q saved :
  NoDup (TripPlan.id <$> saved) ->
  q ∈ saved -> TripPlan.id q = TripPlan.id p ->
  S (length (filter (other_id p) saved)) = length saved.
Proof.
  induction saved as [|q' saved IH]; intros Hnd Hq Hid.
  - by apply elem_of_nil in Hq.
  - rewrite fmap_cons in Hnd. apply NoDup_cons in Hnd as [Hfresh Hnd].
    destruct (decide (TripPlan.id q' = TripPlan.id p)) as [Heq|Hne].
    + rewrite filter_cons_False by (unfold other_id; tauto).
      simpl. f_equal. f_equal. apply filter_keeps_all.
      intros r Hr Hbad. apply Hfresh. rewrite Heq, <- Hbad.
      by apply list_elem_of_fmap_2.
    + rewrite filter_cons_True by done. simpl. f_equal.
      apply IH; [done| |done].
      apply elem_of_cons in Hq as [->|Hq]; [congruence|done].
Qed.

End Archive.

(** C3.  [savePlan p] puts a copy of [p] stamped with the save time at the
    front of the archive: the first entry has [createdAt] equal to the
    save time and every other member, [id] included, as in [p].  It is
    followed by the former entries whose id differs from [p]'s, in their
    former order, so no later entry has [p]'s id; the same list is written
    to local storage.  If an entry with [p]'s id was present the archive
    does not grow (and keeps its length when ids were unique); if none
    was, it grows by exactly one and every former entry is kept. *)
Theorem save_plan_upserts_at_front (now : Z) (p : TripPlan.t) (s : App.State) :
  let saved := App.savedPlans s in
  let saved' := App.savedPlans (App.handleSavePlan now p s) in
  let kept := filter (fun q => TripPlan.id q ≠ TripPlan.id p) saved in
  saved' = TripPlan.set_createdAt (Some now) p :: kept
  /\ App.storedPlans (App.handleSavePlan now p s) = Some saved'
  /\ (forall q, q ∈ kept <-> q ∈ saved /\ TripPlan.id q ≠ TripPlan.id p)
  /\ kept `sublist_of` saved
  /\ ((exists q, q ∈ saved /\ TripPlan.id q = TripPlan.id p) ->
      length saved' <= length saved)
  /\ ((exists q, q ∈ saved /\ TripPlan.id q = TripPlan.id p) ->
      NoDup (TripPlan.id <$> saved) ->
      length saved' = length saved)
  /\ ((forall q, q ∈ saved -> TripPlan.id q ≠ TripPlan.id p) ->
      length saved' = S (length saved) /\ kept = saved)
  /\ (exists entry,
        saved' !! 0 = Some entry
        /\ drop 1 saved' = kept
        /\ TripPlan.createdAt entry = Some now
        /\ TripPlan.id entry = TripPlan.id p
        /\ TripPlan.destination entry = TripPlan.destination p
        /\ TripPlan.summary entry = TripPlan.summary p
        /\ TripPlan.itinerary entry = TripPlan.itinerary p
        /\ TripPlan.centerCoordinates entry = TripPlan.centerCoordinates p
        /\ TripPlan.currency entry = TripPlan.currency p
        /\ TripPlan.totalEstimatedCost entry = TripPlan.totalEstimatedCost p
        /\ TripPlan.weatherAdvisory entry = TripPlan.weatherAdvisory p
        /\ TripPlan.stayLocation entry = TripPlan.stayLocation p
        /\ TripPlan.postcardUrl entry = TripPlan.postcardUrl p)
  /\ (forall i q, saved' !! S i = Some q -> TripPlan.id q ≠ TripPlan.id p)
  /\ (forall i q, saved' !! i = Some q -> TripPlan.id q = TripPlan.id p ->
        i = 0 /\ TripPlan.createdAt q = Some now).
Proof.
  cbn zeta. change (App.savedPlans (App.handleSavePlan now p s))
    with (TripPlan.set_createdAt (Some now) p
            :: filter (other_id p) (App.savedPlans s)).
  change (fun q => TripPlan.id q ≠ TripPlan.id p) with (other_id p).
  assert (Hlater : forall i q,
             (TripPlan.set_createdAt (Some now) p
                :: filter (other_id p) (App.savedPlans s)) !! S i = Some q ->
             TripPlan.id q ≠ TripPlan.id p).
  { intros i q Hq. cbn [lookup list_lookup] in Hq.
    apply list_elem_of_lookup_2, list_elem_of_filter in Hq. by destruct Hq. }
  split; [reflexivity|]. split; [reflexivity|].
  split; [|split; [|split; [|split; [|split; [|split; [|split]]]]]].
  - intros q. rewrite list_elem_of_filter. unfold other_id. tauto.
  - apply sublist_filter.
  - intros (q & Hq & Hid). simpl.
    apply (length_filter_lt (other_id p) _ q Hq). unfold other_id. tauto.
  - intros (q & Hq & Hid) Hnd. simpl. by eapply filter_drops_one.
  - intros Hfresh. rewrite (filter_keeps_all p _ Hfresh). by split.
  - eexists. split; [reflexivity|]. by repeat split.
  - exact Hlater.
  - intros [|i] q Hq Hid.
    + injection Hq as <-. by split.
    + by destruct (Hlater i q Hq).
Qed.

Lemma save_plan_upserts_at_front_witness :
  App.savedPlans (App.handleSavePlan 9 Sample.paris Sample.archive)
    = [TripPlan.set_createdAt (Some 9%Z) Sample.paris; Sample.rome]
  /\ length (App.savedPlans (App.handleSavePlan 9 Sample.paris Sample.archive))
     = length (App.savedPlans Sample.archive)
  /\ length (App.savedPlans (App.handleSavePlan 9 Sample.paris Sample.loaded))
     = S (length (App.savedPlans Sample.loaded))
  /\ (exists entry,
        App.savedPlans (App.handleSavePlan 9 Sample.paris Sample.archive) !! 0
        = Some entry
        /\ TripPlan.createdAt entry = Some 9%Z
        /\ TripPlan.id entry = TripPlan.id Sample.paris
        /\ TripPlan.itinerary entry = [Sample.day1; Sample.day2]).
Proof.
  destruct (save_plan_upserts_at_front 9 Sample.paris Sample.archive)
    as (Hfront & _ & _ & _ & _ & Hsame & _ & Hhead & _).
  destruct (save_plan_upserts_at_front 9 Sample.paris Sample.loaded)
    as (_ & _ & _ & _ & _ & _ & Hnew & _).
  split; [|split; [|split]].
  - rewrite Hfront. reflexivity.
  - apply Hsame.
    + exists (TripPlan.set_createdAt (Some 7%Z) Sample.paris).
      split; [|reflexivity]. right. left.
    + apply (bool_decide_unpack _). vm_compute. exact I.
  - apply Hnew. intros q Hq. inversion Hq.
  - destruct Hhead as (entry & Hat & _ & Hstamp & Hid & _ & _ & Hdays & _).
    exists entry. split; [exact Hat|]. split; [exact Hstamp|].
    split; [exact Hid|]. rewrite Hdays. reflexivity.
Defined.

(** ** Manual edits *)

Lemma assign_in_range {A} (l : list A) (i : nat) (v : A) :
  i < length l -> Js.assign l (Z.of_nat i) v = Js.Returns (<[i := v]> l).
Proof.
  intros Hi. unfold Js.assign.
  destruct (Z.ltb_spec (Z.of_nat i) 0) as [Hneg|_]; [lia|].
  rewrite Nat2Z.id. by rewrite (proj2 (Nat.ltb_lt _ _) Hi).
Qed.

Lemma assign_at_length {A} (l : list A) (v : A) :
  Js.assign l (Z.of_nat (length l)) v = Js.Returns (l ++ [v]).
Proof.
  unfold Js.assign.
  destruct (Z.ltb_spec (Z.of_nat (length l)) 0) as [Hneg|_]; [lia|].
  rewrite Nat2Z.id, Nat.ltb_irrefl. by rewrite Nat.eqb_refl.
Qed.

Lemma assign_past_length {A} (l : list A) (i : nat) (v : A) :
  length l < i -> Js.assign l (Z.of_nat i) v = Js.Untyped.
Proof.
  intros Hi. unfold Js.assign.
  destruct (Z.ltb_spec (Z.of_nat i) 0) as [Hneg|_]; [lia|].
  rewrite Nat2Z.id.
  destruct (Nat.ltb_spec i (length l)); [lia|].
  destruct (Nat.eqb_spec i (length l)); [lia|done].
Qed.

Lemma assign_negative {A} (l : list A) (i : Z) (v : A) :
  (i < 0)%Z -> Js.assign l i v = Js.Returns l.
Proof.
  intros Hi. unfold Js.assign. by rewrite (proj2 (Z.ltb_lt _ _) Hi).
Qed.

Lemma stay_of_with_activities (s s' : App.State) (p : TripPlan.t)
    (d : nat) (acts : list Activity.t) :
  App.plan s = Some p ->
  App.plan s' = Some (App.with_activities d acts p) ->
  stay_of s' = stay_of s.
Proof. intros Hp Hp'. unfold stay_of. by rewrite Hp, Hp'. Qed.

(** C4.  With a plan loaded, [editActivity day (-1) patch] makes [patch]
    the plan's stay location and leaves the itinerary, hence every day's
    activities, as it was, whatever [day] is.  For an index [i] of an
    activity of a day of the plan, [editActivity day i patch] puts [patch]
    at position [i] of that day, leaves the other positions of that day,
    the other days and the stay location as they were. *)
Theorem edit_activity_targets_one_slot
    (s : App.State) (p : TripPlan.t) (dayIndex : nat) (patch : Activity.t) :
  App.plan s = Some p ->
  (exists s',
      App.handleEditActivity dayIndex (-1) patch s = Js.Returns s'
      /\ App.plan s' = Some (TripPlan.set_stayLocation (Some patch) p)
      /\ stay_of s' = Some patch
      /\ (forall d, activities_of s' d = activities_of s d))
  /\ (forall (i : nat) (day : DayPlan.t),
        TripPlan.itinerary p !! dayIndex = Some day ->
        i < length (DayPlan.activities day) ->
        exists s' acts',
          App.handleEditActivity dayIndex (Z.of_nat i) patch s = Js.Returns s'
          /\ activities_of s' dayIndex = Some acts'
          /\ acts' !! i = Some patch
          /\ length acts' = length (DayPlan.activities day)
          /\ (forall j, j ≠ i -> acts' !! j = DayPlan.activities day !! j)
          /\ (forall d, d ≠ dayIndex -> activities_of s' d = activities_of s d)
          /\ stay_of s' = stay_of s).
Proof.
  intros Hp. split.
  - eexists. unfold App.handleEditActivity. rewrite Hp. simpl.
    split; [reflexivity|]. repeat split.
    intros d. unfold activities_of. by rewrite Hp.
  - intros i day Hday Hi.
    exists (App.setPlan
              (Some (App.with_activities dayIndex
                       (<[i := patch]> (DayPlan.activities day)) p)) s),
           (<[i := patch]> (DayPlan.activities day)).
    assert (Hrun : App.handleEditActivity dayIndex (Z.of_nat i) patch s
                   = Js.Returns
                       (App.setPlan
                          (Some (App.with_activities dayIndex
                                   (<[i := patch]> (DayPlan.activities day)) p)) s)).
    { unfold App.handleEditActivity, TripPlan.day. rewrite Hp, Hday.
      destruct (Z.eqb_spec (Z.of_nat i) (-1)) as [Hbad|_]; [lia|].
      cbn [mbind outcome_bind Js.bind]. by rewrite (assign_in_range _ _ _ Hi). }
    pose proof (plan_setPlan
                  (Some (App.with_activities dayIndex
                           (<[i := patch]> (DayPlan.activities day)) p)) s) as Hp'.
    split; [exact Hrun|]. split; [|split; [|split; [|split; [|split]]]].
    + rewrite (activities_of_with_activities s _ p dayIndex dayIndex _ Hp Hp').
      rewrite decide_True by done. by rewrite Hday.
    + by apply list_lookup_insert_eq.
    + apply length_insert.
    + intros j Hj. by apply list_lookup_insert_ne.
    + intros d Hd.
      rewrite (activities_of_with_activities s _ p dayIndex d _ Hp Hp').
      by rewrite decide_False.
    + by apply (stay_of_with_activities s _ p dayIndex _ Hp Hp').
Qed.

Lemma edit_activity_targets_one_slot_witness :
  (exists s',
      App.handleEditActivity 0 (-1) Sample.museum Sample.loaded = Js.Returns s'
      /\ stay_of s' = Some Sample.museum
      /\ activities_of s' 0 = Some [Sample.louvre; Sample.bistro; Sample.tower; Sample.river])
  /\ (exists s' acts',
        App.handleEditActivity 0 1 Sample.museum Sample.loaded = Js.Returns s'
        /\ activities_of s' 0 = Some acts'
        /\ acts' !! 1 = Some Sample.museum
        /\ acts' !! 0 = Some Sample.louvre
        /\ stay_of s' = Some Sample.hotel).
Proof.
  destruct (edit_activity_targets_one_slot Sample.loaded Sample.paris 0 Sample.museum)
    as [(s1 & Hrun1 & _ & Hstay1 & Hdays1) Hslot]; [reflexivity|].
  split.
  - exists s1. split; [exact Hrun1|]. split; [exact Hstay1|]. by rewrite Hdays1.
  - destruct (Hslot 1 Sample.day1) as (s2 & acts & Hrun2 & Hread & Hat & _ & Hothers & _ & Hstay2);
      [reflexivity | simpl; lia |].
    exists s2, acts. split; [exact Hrun2|]. split; [exact Hread|].
    split; [exact Hat|]. split; [|by rewrite Hstay2].
    by rewrite Hothers.
Defined.

(** What the array write does past the last activity: at the length the
    patch is appended, further out the array gets holes. *)
Lemma edit_activity_past_the_end
    (s : App.State) (p : TripPlan.t) (dayIndex : nat) (day : DayPlan.t)
    (patch : Activity.t) :
  App.plan s = Some p ->
  TripPlan.itinerary p !! dayIndex = Some day ->
  App.handleEditActivity dayIndex (Z.of_nat (length (DayPlan.activities day))) patch s
    = Js.Returns
        (App.setPlan
           (Some (App.with_activities dayIndex (DayPlan.activities day ++ [patch]) p)) s)
  /\ (forall i, length (DayPlan.activities day) < i ->
        App.handleEditActivity dayIndex (Z.of_nat i) patch s = Js.Untyped).
Proof.
  intros Hp Hday. split.
  - unfold App.handleEditActivity, TripPlan.day. rewrite Hp, Hday.
    destruct (Z.eqb_spec (Z.of_nat (length (DayPlan.activities day))) (-1)); [lia|].
    cbn [mbind outcome_bind Js.bind]. by rewrite assign_at_length.
  - intros i Hi. unfold App.handleEditActivity, TripPlan.day. rewrite Hp, Hday.
    destruct (Z.eqb_spec (Z.of_nat i) (-1)); [lia|].
    cbn [mbind outcome_bind Js.bind]. by rewrite (assign_past_length _ _ _ Hi).
Qed.

(** ** Swapping an activity *)

Lemma excludedPlaces_covers (p : TripPlan.t) (day : DayPlan.t) (act : Activity.t) :
  day ∈ TripPlan.itinerary p ->
  act ∈ DayPlan.activities day ->
  Activity.name act ∈ App.excludedPlaces p.
Proof.
  intros Hday Hact. unfold App.excludedPlaces.
  apply list_elem_of_In, in_flat_map. exists day. split.
  - by apply list_elem_of_In.
  - apply in_map. by apply list_elem_of_In.
Qed.

(** X19.  The call awaited by [handleReplaceActivity] carries the names of all
    activities of all days, and the prompt built from it lists them. *)
Lemma replace_activity_excludes_every_name
    (s : App.State) (p : TripPlan.t) (d : nat) (day : DayPlan.t)
    (i : Z) (current : Activity.t) :
  App.plan s = Some p ->
  TripPlan.itinerary p !! d = Some day ->
  exists call,
    issued (App.handleReplaceActivity d i current s) = Some call
    /\ App.rc_excludedPlaces call = App.excludedPlaces p
    /\ (forall day' act, day' ∈ TripPlan.itinerary p ->
          act ∈ DayPlan.activities day' ->
          Activity.name act ∈ App.rc_excludedPlaces call)
    /\ GeminiService.replacement_prompt (App.rc_currentActivity call)
         (App.rc_destination call) (App.rc_excludedPlaces call)
       = "Alternative to " +:+ GeminiService.dquote +:+ Activity.name current
         +:+ GeminiService.dquote +:+ " in " +:+ TripPlan.destination p
         +:+ ". Exclude: " +:+ Js.join "," (App.excludedPlaces p) +:+ ".".
Proof.
  intros Hp Hday. eexists.
  unfold App.handleReplaceActivity, TripPlan.day. rewrite Hp, Hday. simpl.
  split; [reflexivity|]. split; [reflexivity|]. split; [|reflexivity].
  intros day' act. apply excludedPlaces_covers.
Qed.

(** On an index of an activity of the day, a successful swap puts the
    returned activity at that index and changes nothing else. *)
Lemma replace_activity_in_range
    (s : App.State) (p : TripPlan.t) (d : nat) (day : DayPlan.t)
    (i : nat) (current new : Activity.t) :
  App.plan s = Some p ->
  TripPlan.itinerary p !! d = Some day ->
  i < length (DayPlan.activities day) ->
  exists s',
    complete (fun _ => Js.Returns new)
      (App.handleReplaceActivity d (Z.of_nat i) current s) = Js.Returns (s', Some new)
    /\ activities_of s' d = Some (<[i := new]> (DayPlan.activities day))
    /\ (forall d', d' ≠ d -> activities_of s' d' = activities_of s d')
    /\ stay_of s' = stay_of s.
Proof.
  intros Hp Hday Hi. eexists.
  unfold App.handleReplaceActivity, TripPlan.day. rewrite Hp, Hday.
  cbn [complete mbind outcome_bind Js.bind].
  rewrite (assign_in_range _ _ _ Hi). split; [reflexivity|].
  pose proof (plan_setPlan
                (Some (App.with_activities d
                         (<[i := new]> (DayPlan.activities day)) p)) s) as Hp'.
  split; [|split].
  - rewrite (activities_of_with_activities s _ p d d _ Hp Hp').
    rewrite decide_True by done. by rewrite Hday.
  - intros d' Hd'. rewrite (activities_of_with_activities s _ p d d' _ Hp Hp').
    by rewrite decide_False.
  - by apply (stay_of_with_activities s _ p d _ Hp Hp').
Qed.

(** A failure of the collaborator reaches the caller and no state is set. *)
Lemma replace_activity_failure_propagates
    (s : App.State) (d : nat) (i : Z) (current : Activity.t) (e : Js.error) :
  is_Some (App.plan s) ->
  exists e',
    complete (fun _ => Js.Throws e) (App.handleReplaceActivity d i current s)
    = Js.Throws e'
    /\ visible s (App.handleReplaceActivity d i current s) = s.
Proof.
  intros [p Hp]. unfold App.handleReplaceActivity, TripPlan.day. rewrite Hp.
  destruct (TripPlan.itinerary p !! d) as [day|]; simpl; by eexists.
Qed.

Lemma with_activities_same (p : TripPlan.t) (d : nat) (day : DayPlan.t) :
  TripPlan.itinerary p !! d = Some day ->
  App.with_activities d (DayPlan.activities day) p = p.
Proof.
  intros Hday. unfold App.with_activities, TripPlan.set_itinerary.
  assert (alter (DayPlan.set_activities (DayPlan.activities day)) d
            (TripPlan.itinerary p) = TripPlan.itinerary p) as ->.
  { apply list_eq. intros j. destruct (decide (d = j)) as [<-|Hne].
    - rewrite list_lookup_alter_eq, Hday. simpl. by destruct day.
    - by rewrite list_lookup_alter_ne. }
  by destruct p.
Qed.

Lemma setPlan_same (s : App.State) (p : TripPlan.t) :
  App.plan s = Some p -> App.setPlan (Some p) s = s.
Proof. destruct s. simpl. by intros ->. Qed.

(** C6 (the code departs from the claim).  The base-camp card selects the
    stay location under index [-1], and "Swap Spot" is offered for it.
    [handleReplaceActivity] then asks the collaborator for an alternative
    and, when it gets one, writes it under the key [-1] of the day's
    array: the activities of every day and the stay location are what
    they were, although the handler returns the new activity.
    [handleEditActivity] treats the same index as the stay location. *)
Theorem replace_on_stay_card_replaces_nothing
    (s : App.State) (p : TripPlan.t) (d : nat) (day : DayPlan.t)
    (u : ItineraryList.State) (stay new : Activity.t) :
  App.plan s = Some p ->
  TripPlan.itinerary p !! d = Some day ->
  TripPlan.stayLocation p = Some stay ->
  ItineraryList.handleReplace d (ItineraryList.selectStayCard p u)
    = Some (ItineraryList.onReplaceActivity d (-1) stay)
  /\ complete (fun _ => Js.Returns new) (App.handleReplaceActivity d (-1) stay s)
     = Js.Returns (s, Some new)
  /\ exists s',
       App.handleEditActivity d (-1) new s = Js.Returns s'
       /\ stay_of s' = Some new.
Proof.
  intros Hp Hday Hstay. split; [|split].
  - unfold ItineraryList.handleReplace, ItineraryList.selectStayCard.
    by rewrite Hstay.
  - unfold App.handleReplaceActivity, TripPlan.day. rewrite Hp, Hday.
    cbn [complete mbind outcome_bind Js.bind].
    rewrite assign_negative by lia. cbn [mbind outcome_bind Js.bind].
    by rewrite (with_activities_same _ _ _ Hday), (setPlan_same _ _ Hp).
  - eexists. unfold App.handleEditActivity. rewrite Hp. simpl.
    split; reflexivity.
Qed.

Lemma replace_on_stay_card_replaces_nothing_witness :
  ItineraryList.handleReplace 0 Sample.stay_selected
    = Some (ItineraryList.onReplaceActivity 0 (-1) Sample.hotel)
  /\ complete (fun _ => Js.Returns Sample.museum)
       (App.handleReplaceActivity 0 (-1) Sample.hotel Sample.loaded)
     = Js.Returns (Sample.loaded, Some Sample.museum).
Proof.
  destruct (replace_on_stay_card_replaces_nothing Sample.loaded Sample.paris 0
              Sample.day1 (ItineraryList.mk None false "" "" None None None)
              Sample.hotel Sample.museum)
    as (Hcall & Hrun & _); [reflexivity | reflexivity | reflexivity |].
  split; [exact Hcall | exact Hrun].
Defined.

(** ** Rounding to a double

    [Js.binary64] is monotone and leaves a double as it is: rounding a
    positive number stays between the powers of two around it, and a
    whole multiple of a power of two is on every finer grid. *)

Section Binary64.
Local Open Scope Q_scope.

Lemma pow2_pos k : 0 < Js.pow2 k.
Proof. by apply Qpower_0_lt. Qed.

Lemma pow2_plus a b : Js.pow2 (a + b) == Js.pow2 a * Js.pow2 b.
Proof. by apply Qpower_plus. Qed.

Lemma pow2_le a b : (a <= b)%Z -> Js.pow2 a <= Js.pow2 b.
Proof. intros H. by apply Qpower_le_compat_l. Qed.

Lemma pow2_lt_inv a b : Js.pow2 a < Js.pow2 b -> (a < b)%Z.
Proof. intros H. by apply (Qpower_lt_compat_l_inv (2 # 1)). Qed.

Lemma pow2_whole k : (0 <= k)%Z -> Js.pow2 k == inject_Z (2 ^ k).
Proof. intros H. unfold Js.pow2. by rewrite (Zpower_Qpower 2 k H). Qed.

Lemma pow2_log2 (n : Z) :
  (0 < n)%Z -> Js.pow2 (Z.log2 n) <= inject_Z n < Js.pow2 (Z.log2 n + 1).
Proof.
  intros Hn. destruct (Z.log2_spec n Hn) as [Hlo Hhi].
  rewrite !pow2_whole by (pose proof (Z.log2_nonneg n); lia).
  rewrite <- Zle_Qle, <- Zlt_Qlt. rewrite <- Z.add_1_r in Hhi. by split.
Qed.

Lemma ilog2_spec q : 0 < q -> Js.pow2 (Js.ilog2 q) <= q < Js.pow2 (Js.ilog2 q + 1).
Proof.
  intros Hq. destruct q as [n d]. unfold Js.ilog2. cbn [Qnum Qden].
  assert (Hn : (0 < n)%Z).
  { unfold Qlt in Hq. simpl in Hq. lia. }
  destruct (pow2_log2 n Hn) as [Hn1 Hn2].
  destruct (pow2_log2 (Z.pos d) eq_refl) as [Hd1 Hd2].
  set (ln := Z.log2 n) in *. set (ld := Z.log2 (Z.pos d)) in *.
  assert (Hval : (n # d) * inject_Z (Z.pos d) == inject_Z n).
  { unfold Qeq, Qmult, inject_Z. simpl. lia. }
  assert (Hd : 0 < inject_Z (Z.pos d)) by (by rewrite <- (Zlt_Qlt 0)).
  pose proof (pow2_pos ld) as Hpd. pose proof (pow2_pos (ln - ld)) as Hpe.
  destruct (Qle_bool (Js.pow2 (ln - ld)) (n # d)) eqn:Hle.
  - apply Qle_bool_iff in Hle. split; [done|].
    apply Qnot_le_lt. intros Hbad.
    assert (Heq : Js.pow2 (ln + 1) == Js.pow2 (ln - ld + 1) * Js.pow2 ld).
    { rewrite <- pow2_plus. f_equiv. lia. }
    pose proof (pow2_pos (ln - ld + 1)).
    nra.
  - assert (Hlt : (n # d) < Js.pow2 (ln - ld)).
    { apply Qnot_le_lt. intros Hbad. apply Qle_bool_iff in Hbad. congruence. }
    replace (ln - ld - 1 + 1)%Z with (ln - ld)%Z by lia.
    split; [|done].
    assert (Heq : Js.pow2 ln == Js.pow2 (ln - ld - 1) * Js.pow2 (ld + 1)).
    { rewrite <- pow2_plus. f_equiv. lia. }
    pose proof (pow2_pos (ln - ld - 1)). pose proof (pow2_pos (ld + 1)).
    apply Qnot_lt_le. intros Hbad.
    nra.
Qed.

Lemma ilog2_mono x y : 0 < x -> x <= y -> (Js.ilog2 x <= Js.ilog2 y)%Z.
Proof.
  intros Hx Hxy. destruct (ilog2_spec x Hx) as [Hlo _].
  destruct (ilog2_spec y) as [_ Hhi]; [lra|].
  assert (Hlt : Js.pow2 (Js.ilog2 x) < Js.pow2 (Js.ilog2 y + 1)) by lra.
  apply pow2_lt_inv in Hlt. lia.
Qed.

Lemma ilog2_below x b : 0 < x -> x < Js.pow2 b -> (Js.ilog2 x < b)%Z.
Proof.
  intros Hx Hb. destruct (ilog2_spec x Hx) as [Hlo _].
  apply pow2_lt_inv. lra.
Qed.

Lemma ilog2_pow2 b : Js.ilog2 (Js.pow2 b) = b.
Proof.
  pose proof (pow2_pos b) as Hpos.
  destruct (ilog2_spec (Js.pow2 b) Hpos) as [Hlo Hhi].
  apply pow2_lt_inv in Hhi.
  assert (Hlt : (Js.ilog2 (Js.pow2 b) < b + 1)%Z).
  { apply pow2_lt_inv. pose proof (pow2_le b (b + 1)).
    assert (Js.pow2 b < Js.pow2 (b + 1)); [|lra].
    apply Qpower_lt_compat_l; [lia|done]. }
  lia.
Qed.

Lemma exponent_mono x y : 0 < x -> x <= y -> (Js.exponent x <= Js.exponent y)%Z.
Proof. intros Hx Hxy. unfold Js.exponent. pose proof (ilog2_mono x y Hx Hxy). lia. Qed.

Lemma nearest_even_bounds q :
  (Qfloor q <= Js.nearest_even q <= Qfloor q + 1)%Z.
Proof.
  unfold Js.nearest_even.
  destruct (q - inject_Z (Qfloor q) ?= 1 # 2); [destruct (Z.even _)|..]; lia.
Qed.

Lemma nearest_even_whole (z : Z) : Js.nearest_even (inject_Z z) = z.
Proof.
  unfold Js.nearest_even. rewrite Qfloor_Z.
  destruct (Qcompare_spec (inject_Z z - inject_Z z) (1 # 2)) as [H|H|H];
    [lra | done | lra].
Qed.

#[local] Instance nearest_even_proper : Proper (Qeq ==> eq) Js.nearest_even.
Proof.
  intros x y Hxy. unfold Js.nearest_even.
  rewrite (Qfloor_comp _ _ Hxy). by rewrite Hxy.
Qed.

Lemma nearest_even_mono x y : x <= y -> (Js.nearest_even x <= Js.nearest_even y)%Z.
Proof.
  intros Hxy. pose proof (Qfloor_resp_le _ _ Hxy) as Hfloor.
  destruct (Z.eq_dec (Qfloor x) (Qfloor y)) as [Heq|Hne].
  - unfold Js.nearest_even. rewrite Heq.
    destruct (Qcompare_spec (x - inject_Z (Qfloor y)) (1 # 2)) as [Hx|Hx|Hx];
      destruct (Qcompare_spec (y - inject_Z (Qfloor y)) (1 # 2)) as [Hy|Hy|Hy];
      try destruct (Z.even _); try lia; lra.
  - pose proof (nearest_even_bounds x). pose proof (nearest_even_bounds y). lia.
Qed.

Lemma to_grid_mono k x y : x <= y -> Js.to_grid k x <= Js.to_grid k y.
Proof.
  intros Hxy. unfold Js.to_grid. pose proof (pow2_pos k) as Hk.
  apply Qmult_le_compat_r; [|lra].
  rewrite <- Zle_Qle. apply nearest_even_mono.
  apply Qmult_le_compat_r; [done|]. apply Qinv_le_0_compat. lra.
Qed.

Lemma to_grid_proper k x y : x == y -> Js.to_grid k x == Js.to_grid k y.
Proof. intros Hxy. unfold Js.to_grid. by rewrite Hxy. Qed.

(** A multiple of a power of two is on every finer grid. *)
Lemma to_grid_fixed k j (m : Z) :
  (0 <= j)%Z -> Js.to_grid k (inject_Z m * Js.pow2 (k + j)) == inject_Z m * Js.pow2 (k + j).
Proof.
  intros Hj. unfold Js.to_grid. pose proof (pow2_pos k) as Hk.
  assert (Hwhole : inject_Z m * Js.pow2 (k + j) / Js.pow2 k == inject_Z (m * 2 ^ j)).
  { rewrite inject_Z_mult, <- (pow2_whole j Hj), pow2_plus. field. lra. }
  rewrite Hwhole, nearest_even_whole.
  rewrite inject_Z_mult, <- (pow2_whole j Hj), pow2_plus. ring.
Qed.

Lemma to_grid_nonneg k q : 0 <= q -> 0 <= Js.to_grid k q.
Proof.
  intros Hq. pose proof (to_grid_mono k 0 q Hq) as Hle.
  pose proof (to_grid_fixed k 0 0 (Z.le_refl _)) as Hzero.
  assert (Hz : inject_Z 0 * Js.pow2 (k + 0) == 0) by ring.
  rewrite (to_grid_proper k _ _ Hz), Hz in Hzero. lra.
Qed.

Lemma exponent_proper x y : 0 < x -> x == y -> Js.exponent x = Js.exponent y.
Proof.
  intros Hx Hxy.
  pose proof (exponent_mono x y Hx ltac:(lra)).
  pose proof (exponent_mono y x ltac:(lra) ltac:(lra)). lia.
Qed.

(** Rounding a positive number never leaves its binade: the result lies
    between the powers of two around the number. *)
Lemma to_grid_below k b q :
  (k <= b)%Z -> q <= Js.pow2 b -> Js.to_grid k q <= Js.pow2 b.
Proof.
  intros Hkb Hq. pose proof (to_grid_mono k _ _ Hq) as Hle.
  pose proof (to_grid_fixed k (b - k) 1 ltac:(lia)) as Hfix.
  replace (k + (b - k))%Z with b in Hfix by lia.
  assert (Hone : inject_Z 1 * Js.pow2 b == Js.pow2 b) by ring.
  rewrite (to_grid_proper k _ _ Hone), Hone in Hfix. lra.
Qed.

Lemma to_grid_above k b q :
  (k <= b)%Z -> Js.pow2 b <= q -> Js.pow2 b <= Js.to_grid k q.
Proof.
  intros Hkb Hq. pose proof (to_grid_mono k _ _ Hq) as Hle.
  pose proof (to_grid_fixed k (b - k) 1 ltac:(lia)) as Hfix.
  replace (k + (b - k))%Z with b in Hfix by lia.
  assert (Hone : inject_Z 1 * Js.pow2 b == Js.pow2 b) by ring.
  rewrite (to_grid_proper k _ _ Hone), Hone in Hfix. lra.
Qed.

Lemma rounded_mono x y :
  0 < x -> x <= y -> Js.to_grid (Js.exponent x) x <= Js.to_grid (Js.exponent y) y.
Proof.
  intros Hx Hxy. pose proof (exponent_mono x y Hx Hxy) as Hexp.
  destruct (Z.eq_dec (Js.exponent x) (Js.exponent y)) as [Heq|Hne].
  - rewrite Heq. by apply to_grid_mono.
  - assert (Hy : 0 < y) by lra.
    destruct (ilog2_spec x Hx) as [_ Hxhi].
    destruct (ilog2_spec y Hy) as [Hylo _].
    unfold Js.exponent in *.
    apply Qle_trans with (Js.pow2 (Js.ilog2 y)).
    + apply to_grid_below; [lia|].
      pose proof (pow2_le (Js.ilog2 x + 1) (Js.ilog2 y) ltac:(lia)). lra.
    + apply to_grid_above; [lia|done].
Qed.

Lemma rounded_fixed q :
  0 < q -> 0 < Js.to_grid (Js.exponent q) q ->
  Js.to_grid (Js.exponent (Js.to_grid (Js.exponent q) q)) (Js.to_grid (Js.exponent q) q)
  == Js.to_grid (Js.exponent q) q.
Proof.
  intros Hq. set (k := Js.exponent q). set (r := Js.to_grid k q). intros Hr.
  destruct (ilog2_spec q Hq) as [_ Hhi].
  assert (Hk : (Js.ilog2 q + 1 <= k + 53)%Z) by (unfold k, Js.exponent; lia).
  assert (Hmin : (-1074 <= k)%Z) by (unfold k, Js.exponent; lia).
  assert (Hupper : r <= Js.pow2 (k + 53)).
  { apply to_grid_below; [lia|].
    pose proof (pow2_le _ _ Hk). lra. }
  destruct (Qlt_le_dec r (Js.pow2 (k + 53))) as [Hin|Hout].
  - pose proof (ilog2_below r (k + 53) Hr Hin) as Hlog.
    assert (Hfiner : (Js.exponent r <= k)%Z) by (unfold Js.exponent; lia).
    assert (Hform : r == inject_Z (Js.nearest_even (q / Js.pow2 k))
                         * Js.pow2 (Js.exponent r + (k - Js.exponent r))).
    { unfold r, Js.to_grid. f_equiv. f_equiv. lia. }
    apply Qeq_trans with (Js.to_grid (Js.exponent r)
                            (inject_Z (Js.nearest_even (q / Js.pow2 k))
                             * Js.pow2 (Js.exponent r + (k - Js.exponent r))));
      [by apply to_grid_proper|].
    apply Qeq_trans with (inject_Z (Js.nearest_even (q / Js.pow2 k))
                          * Js.pow2 (Js.exponent r + (k - Js.exponent r)));
      [apply to_grid_fixed; lia | by symmetry].
  - assert (Hr53 : r == Js.pow2 (k + 53)) by lra.
    assert (Hexp : Js.exponent r = (k + 1)%Z).
    { rewrite (exponent_proper _ _ Hr Hr53). unfold Js.exponent.
      rewrite ilog2_pow2. lia. }
    rewrite Hexp.
    assert (Hform : r == inject_Z 1 * Js.pow2 (k + 1 + 52)).
    { rewrite Hr53. replace (k + 1 + 52)%Z with (k + 53)%Z by lia. ring. }
    apply Qeq_trans with (Js.to_grid (k + 1) (inject_Z 1 * Js.pow2 (k + 1 + 52)));
      [by apply to_grid_proper|].
    apply Qeq_trans with (inject_Z 1 * Js.pow2 (k + 1 + 52));
      [by apply to_grid_fixed | by symmetry].
Qed.

Lemma binary64_cases q :
  (q == 0 /\ Js.binary64 q = 0)
  \/ (0 < q /\ Js.binary64 q = Js.to_grid (Js.exponent q) q)
  \/ (q < 0 /\ Js.binary64 q = - Js.to_grid (Js.exponent (- q)) (- q)).
Proof.
  destruct q as [[|n|n] d]; unfold Js.binary64; cbn [Qnum].
  - left. by split.
  - right. left. by split.
  - right. right. by split.
Qed.

Lemma binary64_zero q : q == 0 -> Js.binary64 q = 0.
Proof. destruct (binary64_cases q) as [[_ ?]|[[? _]|[? _]]]; [done|lra..]. Qed.

Lemma binary64_pos q : 0 < q -> Js.binary64 q = Js.to_grid (Js.exponent q) q.
Proof. destruct (binary64_cases q) as [[? _]|[[_ ?]|[? _]]]; [lra|done|lra]. Qed.

Lemma binary64_neg q : q < 0 -> Js.binary64 q = - Js.to_grid (Js.exponent (- q)) (- q).
Proof. destruct (binary64_cases q) as [[? _]|[[? _]|[_ ?]]]; [lra|lra|done]. Qed.

Lemma binary64_monotone x y : x <= y -> Js.binary64 x <= Js.binary64 y.
Proof.
  intros Hxy.
  destruct (binary64_cases x) as [[Hx ->]|[[Hx ->]|[Hx ->]]];
    destruct (binary64_cases y) as [[Hy ->]|[[Hy ->]|[Hy ->]]]; try lra.
  - apply to_grid_nonneg. lra.
  - by apply rounded_mono.
  - pose proof (to_grid_nonneg (Js.exponent (- x)) (- x)). lra.
  - pose proof (to_grid_nonneg (Js.exponent (- x)) (- x)).
    pose proof (to_grid_nonneg (Js.exponent y) y). lra.
  - pose proof (rounded_mono (- y) (- x)). lra.
Qed.

Lemma binary64_pos_fixed q :
  0 < q -> Js.binary64 (Js.to_grid (Js.exponent q) q) == Js.to_grid (Js.exponent q) q.
Proof.
  intros Hq. pose proof (to_grid_nonneg (Js.exponent q) q ltac:(lra)) as Hr.
  destruct (Qlt_le_dec 0 (Js.to_grid (Js.exponent q) q)) as [Hpos|Hzero].
  - rewrite (binary64_pos _ Hpos). by apply rounded_fixed.
  - rewrite binary64_zero; lra.
Qed.

Lemma binary64_opp q : Js.binary64 (- q) == - Js.binary64 q.
Proof.
  destruct (binary64_cases q) as [[Hq ->]|[[Hq ->]|[Hq ->]]].
  - rewrite binary64_zero; lra.
  - rewrite binary64_neg by lra.
    assert (Hqq : - - q == q) by ring.
    rewrite (exponent_proper (- - q) q) by lra.
    by rewrite (to_grid_proper _ _ _ Hqq).
  - rewrite binary64_pos by lra. ring.
Qed.

Lemma binary64_idempotent q : Js.binary64 (Js.binary64 q) == Js.binary64 q.
Proof.
  destruct (binary64_cases q) as [[Hq ->]|[[Hq ->]|[Hq ->]]].
  - reflexivity.
  - by apply binary64_pos_fixed.
  - rewrite binary64_opp. rewrite binary64_pos_fixed; lra.
Qed.
Lemma binary64_rounding : Js.Rounding Js.binary64.
Proof. split; [apply binary64_monotone | apply binary64_idempotent]. Qed.

End Binary64.

(** ** Split pane *)

Lemma resize_ignored (round : Q -> Q) (e : App.PointerEvent)
    (container : option App.DOMRect) (s : App.State) :
  App.isResizing s = false \/ container = None ->
  App.resize round e container s = Js.Returns s.
Proof.
  intros [Hoff | ->]; unfold App.resize.
  - by rewrite Hoff.
  - by destruct (App.isResizing s).
Qed.

(** A number that is below a rounded bound is below the bound itself. *)
Lemma below_rounded_bound (round : Q -> Q) `{!Js.Rounding round} (z y : Q) :
  (round z < round y)%Q -> (round z < y)%Q.
Proof.
  intros Hlt. apply Qnot_le_lt. intros Hle.
  apply (Qlt_not_le _ _ Hlt).
  rewrite <- (Js.round_idempotent z). by apply Js.round_monotone.
Qed.

Lemma passes_test_in_band (round : Q -> Q) `{!Js.Rounding round}
    (x containerLeft containerWidth : Q) :
  passes_test round (Js.sub round x containerLeft) containerWidth ->
  in_band (Js.sub round x containerLeft) containerWidth.
Proof.
  intros [Hlo Hhi]. split; [exact Hlo|].
  by apply (below_rounded_bound round).
Qed.



(** ** Form submission *)

Lemma trimStart_blank (s : string) :
  blank s -> Js.trimStart s = EmptyString.
Proof.
  unfold blank. induction s as [|c s IH]; simpl; [done|].
  intros Hall. apply Forall_cons in Hall as [Hc Hs]. rewrite Hc. by apply IH.
Qed.

Lemma trimStart_head (s : string) (c : Ascii.ascii) (t : string) :
  Js.trimStart s = String c t -> Js.is_white_space c = false.
Proof.
  induction s as [|c' s IH]; simpl; [done|].
  destruct (Js.is_white_space c') eqn:Hc'; [exact IH|].
  by intros [= <- _].
Qed.

Lemma trimStart_empty (s : string) :
  Js.trimStart s = EmptyString -> blank s.
Proof.
  unfold blank. induction s as [|c s IH]; simpl; [constructor|].
  destruct (Js.is_white_space c) eqn:Hc; [|done].
  intros Hs. constructor; [done | by apply IH].
Qed.

Lemma trimEnd_empty_head (c : Ascii.ascii) (t : string) :
  Js.trimEnd (String c t) = EmptyString -> Js.is_white_space c = true.
Proof.
  simpl. destruct (Js.trimEnd t); [|done].
  by destruct (Js.is_white_space c).
Qed.

(** [!destination.trim()] holds exactly for a blank destination. *)
Lemma trim_falsy_iff_blank (s : string) :
  Js.truthy (Js.trim s) = false <-> blank s.
Proof.
  unfold Js.trim. split.
  - intros Hfalsy.
    assert (Js.trimEnd (Js.trimStart s) = EmptyString) as Hend
      by (by destruct (Js.trimEnd (Js.trimStart s))).
    destruct (Js.trimStart s) as [|c t] eqn:Hstart.
    + by apply trimStart_empty.
    + apply trimEnd_empty_head in Hend.
      apply trimStart_head in Hstart. congruence.
  - intros Hblank. by rewrite (trimStart_blank _ Hblank).
Qed.

(** C8.  Submitting the form with a blank destination (empty or white
    space only) and no selected region makes no [onPlanTrip] call: no
    planning request is awaited and the application state is what it was.
    With a destination that is not blank, or with at least one selected
    region, the request is handed to [handlePlanTrip], which awaits the
    generation collaborator on it. *)
Theorem blank_submission_issues_no_request
    (selectedAreas : list TripBounds.t) (f : TripInput.State) (s : App.State) :
  (blank (TripInput.destination f) -> selectedAreas = [] ->
   TripInput.handleSubmit selectedAreas f = None
   /\ issued (submit selectedAreas f s) = None
   /\ visible s (submit selectedAreas f s) = s)
  /\ (~ blank (TripInput.destination f) \/ selectedAreas ≠ [] ->
      exists request,
        TripInput.handleSubmit selectedAreas f = Some request
        /\ issued (submit selectedAreas f s) = Some request
        /\ TripRequest.destination request = TripInput.destination f
        /\ TripRequest.selectedAreas request
           = (if decide (selectedAreas = []) then None else Some selectedAreas)
        /\ App.loading (visible s (submit selectedAreas f s)) = true).
Proof.
  split.
  - intros Hblank ->. apply trim_falsy_iff_blank in Hblank.
    unfold submit, TripInput.handleSubmit. rewrite Hblank. by simpl.
  - intros Hsome. unfold submit, TripInput.handleSubmit.
    assert (negb (Js.truthy (Js.trim (TripInput.destination f)))
            && (length selectedAreas =? 0)%nat = false) as ->.
    { apply andb_false_iff. destruct Hsome as [Hdest|Hareas].
      - left. apply negb_false_iff.
        destruct (Js.truthy (Js.trim (TripInput.destination f))) eqn:Ht; [done|].
        by apply trim_falsy_iff_blank in Ht.
      - right. by destruct selectedAreas. }
    eexists. split; [reflexivity|]. split; [reflexivity|].
    split; [reflexivity|]. split; [|reflexivity].
    simpl. by destruct selectedAreas.
Qed.

Lemma blank_submission_issues_no_request_witness :
  (issued (submit [] (Sample.form "  ") Sample.archive) = None
   /\ visible Sample.archive (submit [] (Sample.form "  ") Sample.archive)
      = Sample.archive)
  /\ (exists request,
        issued (submit [] (Sample.form "Paris") Sample.archive) = Some request
        /\ TripRequest.destination request = "Paris")
  /\ (exists request,
        issued (submit [Sample.box] (Sample.form "") Sample.archive) = Some request
        /\ TripRequest.selectedAreas request = Some [Sample.box]).
Proof.
  split; [|split].
  - destruct (blank_submission_issues_no_request [] (Sample.form "  ") Sample.archive)
      as [Hblocked _].
    destruct Hblocked as (_ & Hnone & Hsame); [|reflexivity|by split].
    repeat constructor.
  - destruct (blank_submission_issues_no_request [] (Sample.form "Paris") Sample.archive)
      as [_ Hgoes].
    destruct Hgoes as (request & _ & Hcall & Hdest & _).
    + left. intros Hblank. apply Forall_cons in Hblank as [Hp _]. discriminate Hp.
    + by exists request.
  - destruct (blank_submission_issues_no_request [Sample.box] (Sample.form "")
                Sample.archive) as [_ Hgoes].
    destruct Hgoes as (request & _ & Hcall & _ & Hareas & _).
    + right. discriminate.
    + by exists request.
Defined.

(** ** Plan generation *)

Lemma generateTripPlan_inv (API_KEY : option string) (uuid : string)
    (request : TripRequest.t)
    (reply : GeminiService.generated
               (GeminiService.RawTripPlan.t * list GeminiService.GroundingChunk))
    (plan : TripPlan.t) :
  GeminiService.generateTripPlan API_KEY uuid request reply = Js.Returns plan ->
  exists data chunks days,
    reply = GeminiService.Parsed (data, chunks)
    /\ GeminiService.RawTripPlan.itinerary data = Some days
    /\ TripPlan.id plan = uuid
    /\ TripPlan.currency plan = TripRequest.currency request
    /\ TripPlan.stayLocation plan
       = match TripRequest.preSelectedStay request with
         | Some chosen => Some chosen
         | None => GeminiService.RawTripPlan.stayLocation data
         end.
Proof.
  unfold GeminiService.generateTripPlan.
  destruct (GeminiService.getApiKey API_KEY); [|done..].
  destruct reply as [r| |[data chunks]]; simpl; [done..|].
  destruct (GeminiService.RawTripPlan.itinerary data) as [days|] eqn:Hdays; [|done].
  intros [= <-]. by exists data, chunks, days.
Qed.

(** C9.  A plan returned by [generateTripPlan] has the currency of the
    request and the id drawn from [crypto.randomUUID()] for this call,
    whatever currency or id the collaborator's output carried; and when
    the request has a pre-selected stay, that activity is the plan's stay
    location, whatever stay the collaborator produced.  With an API key
    configured, every parsed output that has an itinerary yields a
    plan. *)
Theorem generated_plan_takes_currency_id_and_stay_from_the_call
    (uuid : string) (request : TripRequest.t)
    (reply : GeminiService.generated
               (GeminiService.RawTripPlan.t * list GeminiService.GroundingChunk)) :
  (forall API_KEY plan,
      GeminiService.generateTripPlan API_KEY uuid request reply = Js.Returns plan ->
      TripPlan.currency plan = TripRequest.currency request
      /\ TripPlan.id plan = uuid
      /\ (forall chosen,
            TripRequest.preSelectedStay request = Some chosen ->
            TripPlan.stayLocation plan = Some chosen))
  /\ (forall key data chunks days,
        Js.truthy key = true ->
        reply = GeminiService.Parsed (data, chunks) ->
        GeminiService.RawTripPlan.itinerary data = Some days ->
        exists plan,
          GeminiService.generateTripPlan (Some key) uuid request reply
          = Js.Returns plan).
Proof.
  split.
  - intros API_KEY plan Hplan.
    destruct (generateTripPlan_inv _ _ _ _ _ Hplan)
      as (data & chunks & days & _ & _ & Hid & Hcur & Hstay).
    split; [exact Hcur|]. split; [exact Hid|].
    intros chosen Hchosen. by rewrite Hstay, Hchosen.
  - intros key data chunks days Hkey -> Hdays.
    unfold GeminiService.generateTripPlan.
    rewrite (getApiKey_configured _ Hkey). simpl. rewrite Hdays. by eexists.
Qed.

Lemma generated_plan_takes_currency_id_and_stay_from_the_call_witness :
  exists plan,
    GeminiService.generateTripPlan (Some "k") "uuid-1" Sample.request
      (GeminiService.Parsed (Sample.raw_paris, Sample.chunks)) = Js.Returns plan
    /\ TripPlan.currency plan = INR
    /\ TripPlan.id plan = "uuid-1"
    /\ TripPlan.stayLocation plan = Some Sample.hotel.
Proof.
  destruct (generated_plan_takes_currency_id_and_stay_from_the_call "uuid-1"
              Sample.request (GeminiService.Parsed (Sample.raw_paris, Sample.chunks)))
    as [Hshape Hruns].
  destruct (Hruns "k" Sample.raw_paris Sample.chunks [Sample.day1; Sample.day2])
    as [plan Hplan]; [reflexivity | reflexivity | reflexivity |].
  destruct (Hshape (Some "k") plan Hplan) as (Hcur & Hid & Hstay).
  exists plan. split; [exact Hplan|]. split; [exact Hcur|]. split; [exact Hid|].
  by apply Hstay.
Defined.

(** ** Drawing a region *)

Section MinMax.
Local Open Scope Q_scope.

Lemma Qmin_le_Qmax (a b : Q) : Qmin a b <= Qmax a b.
Proof. eapply Qle_trans; [apply Q.le_min_l | apply Q.le_max_l]. Qed.

Lemma Qmin_lt_Qmax_iff (a b : Q) : Qmin a b < Qmax a b <-> ~ a == b.
Proof.
  destruct (Q.max_spec a b) as [[Hlt Hmax]|[Hle Hmax]];
    destruct (Q.min_spec a b) as [[Hlt' Hmin]|[Hle' Hmin]];
    rewrite Hmax, Hmin.
  - split; [apply Qlt_not_eq | done].
  - by apply Qle_not_lt in Hle'.
  - by apply Qle_not_lt in Hle.
  - split.
    + intros Hba Heq. apply (Qlt_not_eq _ _ Hba). by symmetry.
    + intros Hne. apply Qle_lteq in Hle as [Hba|Heq]; [done|].
      destruct Hne. by symmetry.
Qed.

Lemma Qmax_neq_Qmin_iff (a b : Q) : ~ Qmax a b == Qmin a b <-> ~ a == b.
Proof.
  rewrite <- (Qmin_lt_Qmax_iff a b). split.
  - intros Hne. pose proof (Qmin_le_Qmax a b) as Hle.
    apply Qle_lteq in Hle as [Hlt|Heq]; [done|].
    destruct Hne. by symmetry.
  - intros Hlt Heq. apply (Qlt_not_eq _ _ Hlt). by symmetry.
Qed.

End MinMax.

Lemma last_cons_default {A} (x d : A) (l : list A) :
  List.last (x :: l) d = List.last l x.
Proof.
  revert x d. induction l as [|y l IH]; intros x d; [done|].
  change (List.last (x :: y :: l) d) with (List.last (y :: l) d).
  by rewrite (IH y d), (IH y x).
Qed.

Lemma run_mousemoves (distanceTo : HomeMap.LatLng -> HomeMap.LatLng -> Q)
    (a c : HomeMap.LatLng) (path : list HomeMap.LatLng)
    (sel : list TripBounds.t) :
  HomeMap.AreaDrawer.run distanceTo true (map HomeMap.mousemove path)
    (HomeMap.AreaDrawer.mk (Some a) (Some c), sel)
  = (HomeMap.AreaDrawer.mk (Some a) (Some (List.last path c)), sel).
Proof.
  revert c. induction path as [|x path IH]; intros c; [done|].
  rewrite last_cons_default. simpl. apply IH.
Qed.

Lemma run_gesture (distanceTo : HomeMap.LatLng -> HomeMap.LatLng -> Q)
    (d0 : HomeMap.AreaDrawer.State) (sel : list TripBounds.t)
    (anchor : HomeMap.LatLng) (path : list HomeMap.LatLng) :
  HomeMap.AreaDrawer.run distanceTo true
    (HomeMap.AreaDrawer.gesture anchor path) (d0, sel)
  = (HomeMap.AreaDrawer.idle,
     if Qlt_le_dec (100 # 1)
          (distanceTo anchor (HomeMap.AreaDrawer.release anchor path))
     then sel ++ [drawn_box anchor (HomeMap.AreaDrawer.release anchor path)]
     else sel).
Proof.
  unfold HomeMap.AreaDrawer.gesture, HomeMap.AreaDrawer.run,
    HomeMap.AreaDrawer.release.
  cbn [foldl HomeMap.AreaDrawer.step HomeMap.AreaDrawer.handle].
  rewrite foldl_app.
  pose proof (run_mousemoves distanceTo anchor anchor path sel) as Hmoves.
  unfold HomeMap.AreaDrawer.run in Hmoves. rewrite Hmoves. simpl.
  by destruct (Qlt_le_dec (100 # 1) (distanceTo anchor (List.last path anchor))).
Qed.

(** Outside drawing mode the map events leave the drawer and the
    selection alone. *)
Lemma run_not_drawing (distanceTo : HomeMap.LatLng -> HomeMap.LatLng -> Q)
    (events : list HomeMap.MapEvent) (sel : list TripBounds.t) :
  HomeMap.AreaDrawer.run distanceTo false events (HomeMap.AreaDrawer.idle, sel)
  = (HomeMap.AreaDrawer.idle, sel).
Proof.
  induction events as [|e events IH]; [done|].
  unfold HomeMap.AreaDrawer.run in *. cbn [foldl].
  by destruct e.
Qed.

(** C5 as stated fails: a drag of one degree along the equator is far
    longer than 100 m and appends a box, but the box is flat: its north
    and south edges coincide. *)
Lemma level_drag_appends_flat_box :
  (100 # 1 < HomeMap.arcDistance (Sample.at_ 0 0) (Sample.at_ 0 1))%Q
  /\ exists b,
       HomeMap.AreaDrawer.run HomeMap.arcDistance true
         (HomeMap.AreaDrawer.gesture (Sample.at_ 0 0) [Sample.at_ 0 1])
         (HomeMap.AreaDrawer.idle, [])
       = (HomeMap.AreaDrawer.idle, [b])
       /\ ~ ((TripBounds.south b < TripBounds.north b)%Q
             /\ ~ (TripBounds.east b == TripBounds.west b)%Q).
Proof.
  split; [reflexivity|]. eexists. split; [reflexivity|].
  intros [Hflat _]. discriminate Hflat.
Qed.

(** C5, amended.  In drawing mode a completed gesture (press at the
    anchor, drag, release) leaves the drawer idle and, if the distance
    between anchor and release point exceeds 100 m, appends exactly one
    box to the selection; otherwise the selection is unchanged and nothing
    is thrown.  The box spans the two points: north and east are the
    larger, south and west the smaller latitude and longitude, so
    north >= south and east >= west, with north > south exactly when the
    two latitudes differ and east ≠ west exactly when the two longitudes
    differ. *)
Theorem drawn_region_appends_spanning_box
    (distanceTo : HomeMap.LatLng -> HomeMap.LatLng -> Q)
    (d0 : HomeMap.AreaDrawer.State) (sel : list TripBounds.t)
    (anchor : HomeMap.LatLng) (path : list HomeMap.LatLng) :
  let released := HomeMap.AreaDrawer.release anchor path in
  let b := drawn_box anchor released in
  exists sel',
    HomeMap.AreaDrawer.run distanceTo true
      (HomeMap.AreaDrawer.gesture anchor path) (d0, sel)
    = (HomeMap.AreaDrawer.idle, sel')
    /\ ((100 # 1 < distanceTo anchor released)%Q -> sel' = sel ++ [b])
    /\ ((distanceTo anchor released <= 100 # 1)%Q -> sel' = sel)
    /\ (TripBounds.south b <= TripBounds.north b)%Q
    /\ (TripBounds.west b <= TripBounds.east b)%Q
    /\ ((TripBounds.south b < TripBounds.north b)%Q
        <-> ~ (Coordinates.lat anchor == Coordinates.lat released)%Q)
    /\ (~ (TripBounds.east b == TripBounds.west b)%Q
        <-> ~ (Coordinates.lng anchor == Coordinates.lng released)%Q).
Proof.
  intros released b. eexists. split; [apply run_gesture|].
  fold released. fold b.
  split; [|split; [|split; [|split; [|split]]]].
  - intros Hfar. destruct (Qlt_le_dec (100 # 1) (distanceTo anchor released)) as [_|Hle];
      [done | by apply Qle_not_lt in Hle].
  - intros Hnear. destruct (Qlt_le_dec (100 # 1) (distanceTo anchor released)) as [Hlt|_];
      [by apply Qle_not_lt in Hnear | done].
  - apply Qmin_le_Qmax.
  - apply Qmin_le_Qmax.
  - apply Qmin_lt_Qmax_iff.
  - apply Qmax_neq_Qmin_iff.
Qed.

Lemma drawn_region_appends_spanning_box_witness :
  (exists sel',
      HomeMap.AreaDrawer.run HomeMap.arcDistance true
        (HomeMap.AreaDrawer.gesture (Sample.at_ 48 2) [Sample.at_ 48 3; Sample.at_ 49 3])
        (HomeMap.AreaDrawer.idle, [])
      = (HomeMap.AreaDrawer.idle, sel')
      /\ sel' = [] ++ [drawn_box (Sample.at_ 48 2) (Sample.at_ 49 3)])
  /\ (exists sel',
        HomeMap.AreaDrawer.run HomeMap.arcDistance true
          (HomeMap.AreaDrawer.gesture (Sample.at_ 48 2) [])
          (HomeMap.AreaDrawer.idle, [Sample.box])
        = (HomeMap.AreaDrawer.idle, sel')
        /\ sel' = [Sample.box]).
Proof.
  split.
  - destruct (drawn_region_appends_spanning_box HomeMap.arcDistance
                HomeMap.AreaDrawer.idle [] (Sample.at_ 48 2)
                [Sample.at_ 48 3; Sample.at_ 49 3])
      as (sel' & Hrun & Hfar & _).
    exists sel'. split; [exact Hrun|]. apply Hfar. reflexivity.
  - destruct (drawn_region_appends_spanning_box HomeMap.arcDistance
                HomeMap.AreaDrawer.idle [Sample.box] (Sample.at_ 48 2) [])
      as (sel' & Hrun & _ & Hnear & _).
    exists sel'. split; [exact Hrun|]. apply Hnear. discriminate.
Defined.

(** ** The service without a key, and what it does with a reply *)

(** X1.  Without an API key, or with an empty one, each of the four service
    functions fails with the same error before it looks at any reply. *)
Theorem missing_api_key_fails_every_call (API_KEY : option string) :
  API_KEY = None \/ API_KEY = Some "" ->
  let failure : Js.error := Js.Error "API Key not found in environment variables" in
  (forall uuid request reply,
      GeminiService.generateTripPlan API_KEY uuid request reply = Js.Throws failure)
  /\ (forall acts dest stay start reply,
        GeminiService.recalculateLogistics API_KEY acts dest stay start reply
        = Js.Throws failure)
  /\ (forall current dest theme currency excluded reply,
        GeminiService.generateReplacementActivity API_KEY current dest theme
          currency excluded reply = Js.Throws failure)
  /\ (forall plan reply,
        GeminiService.generateTripPoster API_KEY plan reply = Js.Throws failure).
Proof.
  intros [-> | ->]; repeat split; intros; reflexivity.
Qed.

Lemma missing_api_key_fails_every_call_witness :
  GeminiService.generateTripPlan None "uuid-1" Sample.request
    (GeminiService.Parsed (Sample.raw_paris, Sample.chunks))
  = Js.Throws (Js.Error "API Key not found in environment variables")
  /\ GeminiService.generateTripPoster None Sample.paris
       (GeminiService.PosterResponse (GeminiService.Parts [Some "AAAA"]))
     = Js.Throws (Js.Error "API Key not found in environment variables").
Proof.
  destruct (missing_api_key_fails_every_call None) as (Hplan & _ & _ & Hposter);
    [by left|].
  split; [apply Hplan | apply Hposter].
Defined.




Lemma or_else_or_else (x : option string) (y : string) :
  Js.or_else x (Js.or_else x y) = Js.or_else x y.
Proof. destruct x as [s|]; [|done]. simpl. by destruct (Js.truthy s). Qed.

(** X3.  Refreshing twice with the same reply gives what refreshing once
    gives: the reply's times and legs are taken by position, and what the
    first pass kept or blanked the second keeps or blanks again. *)
Theorem logistics_refresh_is_idempotent
    (API_KEY : option string) (acts : list Activity.t) (dest : string)
    (stay : option Activity.t) (start : option string)
    (reply : GeminiService.generated (list (option GeminiService.RawActivity.t)))
    (out : list Activity.t) :
  GeminiService.recalculateLogistics API_KEY acts dest stay start reply
    = Js.Returns out ->
  GeminiService.recalculateLogistics API_KEY out dest stay start reply
    = Js.Returns out.
Proof.
  intros Hout.
  destruct (recalculateLogistics_inv _ _ _ _ _ _ _ Hout) as (l & -> & ->).
  revert Hout. unfold GeminiService.recalculateLogistics.
  destruct (GeminiService.getApiKey API_KEY) as [key|err|]; [|done..].
  simpl. intros _. f_equal.
  apply list_eq. intros i. rewrite !merge_logistics_lookup.
  destruct (acts !! i) as [a|]; [|done]. simpl. f_equal.
  unfold Activity.with_logistics. simpl.
  by rewrite or_else_or_else.
Qed.

Lemma logistics_refresh_is_idempotent_witness :
  exists out,
    GeminiService.recalculateLogistics (Some "k") (DayPlan.activities Sample.day1)
      "Paris" None None (GeminiService.Parsed Sample.short_reply) = Js.Returns out
    /\ GeminiService.recalculateLogistics (Some "k") out
         "Paris" None None (GeminiService.Parsed Sample.short_reply) = Js.Returns out.
Proof.
  eexists. split; [reflexivity|].
  apply (logistics_refresh_is_idempotent (Some "k") (DayPlan.activities Sample.day1)).
  reflexivity.
Defined.

(** ** The trip postcard *)

Lemma omap_all_none {A} (l : list (option A)) :
  Forall (fun p => p = None) l -> omap (fun p => p) l = [].
Proof.
  induction 1 as [|p l -> _ IH]; [done|]. simpl. exact IH.
Qed.

(** X4.  With a key, [generateTripPoster] returns the PNG data URL of the
    first part of the reply that carries inline data, whatever follows
    it; a reply with no content or with no such part fails with "No image
    data received from model", a content without parts with a type error,
    and a rejected call with its own reason. *)
Theorem poster_is_first_inline_image (key : string) (plan : TripPlan.t) :
  Js.truthy key = true ->
  (forall before data rest,
      Forall (fun p => p = None) before ->
      GeminiService.generateTripPoster (Some key) plan
        (GeminiService.PosterResponse
           (GeminiService.Parts (before ++ Some data :: rest)))
      = Js.Returns ("data:image/png;base64," +:+ data))
  /\ (forall parts,
        Forall (fun p => p = None) parts ->
        GeminiService.generateTripPoster (Some key) plan
          (GeminiService.PosterResponse (GeminiService.Parts parts))
        = Js.Throws (Js.Error "No image data received from model"))
  /\ GeminiService.generateTripPoster (Some key) plan
       (GeminiService.PosterResponse GeminiService.NoContent)
     = Js.Throws (Js.Error "No image data received from model")
  /\ GeminiService.generateTripPoster (Some key) plan
       (GeminiService.PosterResponse GeminiService.NoParts)
     = Js.Throws Js.TypeError
  /\ (forall reason,
        GeminiService.generateTripPoster (Some key) plan
          (GeminiService.PosterFailed reason)
        = Js.Throws (Js.Rejection reason)).
Proof.
  intros Hkey. unfold GeminiService.generateTripPoster.
  rewrite (getApiKey_configured _ Hkey). cbn [mbind outcome_bind Js.bind].
  repeat split.
  - intros before data rest Hnone.
    by rewrite omap_app, (omap_all_none _ Hnone).
  - intros parts Hnone. by rewrite (omap_all_none _ Hnone).
Qed.

Lemma poster_is_first_inline_image_witness :
  GeminiService.generateTripPoster (Some "k") Sample.paris
    (GeminiService.PosterResponse
       (GeminiService.Parts [None; Some "AAAA"; Some "BBBB"]))
  = Js.Returns "data:image/png;base64,AAAA"
  /\ GeminiService.generateTripPoster (Some "k") Sample.paris
       (GeminiService.PosterResponse (GeminiService.Parts [None; None]))
     = Js.Throws (Js.Error "No image data received from model").
Proof.
  destruct (poster_is_first_inline_image "k" Sample.paris) as (Hfirst & Hnone & _);
    [reflexivity|].
  split.
  - apply (Hfirst [None] "AAAA" [Some "BBBB"]). by repeat constructor.
  - apply Hnone. by repeat constructor.
Defined.

(** X5.  The poster prompt names at most four places, and each is the name of
    an activity of type landmark of some day of the plan. *)
Theorem poster_names_at_most_four_landmarks (plan : TripPlan.t) :
  length (GeminiService.landmarkNames plan) <= 4
  /\ (forall n, n ∈ GeminiService.landmarkNames plan ->
        exists day a,
          day ∈ TripPlan.itinerary plan
          /\ a ∈ DayPlan.activities day
          /\ Activity.type a = ActivityType.landmark
          /\ Activity.name a = n)
  /\ GeminiService.PosterPrompt.landmarks (GeminiService.poster_prompt plan)
     = Js.join ", " (GeminiService.landmarkNames plan).
Proof.
  split; [|split; [|done]].
  - unfold GeminiService.landmarkNames. rewrite length_take. lia.
  - intros n Hn. unfold GeminiService.landmarkNames in Hn.
    apply elem_of_take in Hn as (i & Hn & _).
    apply list_elem_of_lookup_2 in Hn.
    apply list_elem_of_In, in_flat_map in Hn as (day & Hday & Hn).
    apply in_map_iff in Hn as (a & Hname & Ha).
    apply list_elem_of_In, list_elem_of_filter in Ha as [Htype Ha].
    exists day, a. split; [by apply list_elem_of_In|]. by repeat split.
Qed.

(** X6.  A postcard is generated at most once per view.  With a postcard URL
    in hand the button only opens the modal and awaits nothing.  Without
    one it awaits [generateTripPoster] on the plan with the spinner on;
    on success the URL is kept, the modal opens, the spinner stops and a
    further click awaits nothing; on failure the user is alerted, the
    spinner stops and neither the URL nor the modal changes. *)
Theorem postcard_is_generated_once (plan : TripPlan.t) (w : ItineraryList.View) :
  (forall url,
      ItineraryList.postcardUrl (ItineraryList.cells w) = Some url ->
      Js.truthy url = true ->
      issued (ItineraryList.handleGeneratePostcard plan w) = None
      /\ visible w (ItineraryList.handleGeneratePostcard plan w)
         = ItineraryList.setShowPostcardModal true w)
  /\ (ItineraryList.postcardUrl (ItineraryList.cells w) = None
      \/ ItineraryList.postcardUrl (ItineraryList.cells w) = Some "" ->
      issued (ItineraryList.handleGeneratePostcard plan w) = Some plan
      /\ ItineraryList.isGeneratingPostcard
           (visible w (ItineraryList.handleGeneratePostcard plan w)) = true
      /\ (forall url,
            exists w',
              complete (fun _ => Js.Returns url)
                (ItineraryList.handleGeneratePostcard plan w) = Js.Returns (w', None)
              /\ ItineraryList.postcardUrl (ItineraryList.cells w') = Some url
              /\ ItineraryList.showPostcardModal w' = true
              /\ ItineraryList.isGeneratingPostcard w' = false
              /\ (Js.truthy url = true ->
                  issued (ItineraryList.handleGeneratePostcard plan w') = None))
      /\ (forall e,
            exists w',
              complete (fun _ => Js.Throws e)
                (ItineraryList.handleGeneratePostcard plan w)
              = Js.Returns
                  (w', Some "Failed to generate AI postcard. Please try again.")
              /\ ItineraryList.postcardUrl (ItineraryList.cells w')
                 = ItineraryList.postcardUrl (ItineraryList.cells w)
              /\ ItineraryList.showPostcardModal w' = ItineraryList.showPostcardModal w
              /\ ItineraryList.isGeneratingPostcard w' = false)).
Proof.
  split.
  - intros url Hurl Htruthy. unfold ItineraryList.handleGeneratePostcard.
    by rewrite Hurl, Htruthy.
  - intros Hnone.
    assert (match ItineraryList.postcardUrl (ItineraryList.cells w) with
            | Some url => Js.truthy url
            | None => false
            end = false) as Hfalsy by (by destruct Hnone as [-> | ->]).
    unfold ItineraryList.handleGeneratePostcard. rewrite Hfalsy.
    split; [done|]. split; [done|]. split.
    + intros url. eexists. split; [reflexivity|]. repeat split.
      intros Htruthy. simpl. by rewrite Htruthy.
    + intros e. eexists. split; [reflexivity|]. by repeat split.
Qed.

Lemma postcard_is_generated_once_witness :
  issued (ItineraryList.handleGeneratePostcard Sample.paris Sample.view)
    = Some Sample.paris
  /\ exists w',
       complete
         (fun plan =>
            GeminiService.generateTripPoster (Some "k") plan
              (GeminiService.PosterResponse (GeminiService.Parts [Some "AAAA"])))
         (ItineraryList.handleGeneratePostcard Sample.paris Sample.view)
       = Js.Returns (w', None)
       /\ issued (ItineraryList.handleGeneratePostcard Sample.paris w') = None.
Proof.
  destruct (postcard_is_generated_once Sample.paris Sample.view) as [_ Hfresh].
  destruct Hfresh as (Hcall & _ & Hok & _); [by left|].
  split; [exact Hcall|].
  destruct (Hok "data:image/png;base64,AAAA") as (w' & Hrun & _ & _ & _ & Hagain).
  exists w'. split; [exact Hrun|]. by apply Hagain.
Defined.

(** ** The exported file *)

Lemma chars_append (s t : string) :
  String.list_ascii_of_string (s +:+ t)
  = String.list_ascii_of_string s ++ String.list_ascii_of_string t.
Proof. induction s as [|c s IH]; [done|]. simpl. by rewrite IH. Qed.

Lemma replaceRuns_no_white_space (inRun : bool) (s : string) :
  no_white_space (Js.replaceRuns inRun s).
Proof.
  unfold no_white_space. revert inRun.
  induction s as [|c s IH]; intros inRun; simpl; [constructor|].
  destruct (Js.is_white_space c) eqn:Hc.
  - destruct inRun; [apply IH|]. simpl. constructor; [done | apply IH].
  - simpl. constructor; [done | apply IH].
Qed.

Lemma replaceRuns_unchanged (inRun : bool) (s : string) :
  no_white_space s -> Js.replaceRuns inRun s = s.
Proof.
  unfold no_white_space. revert inRun.
  induction s as [|c s IH]; intros inRun; simpl; [done|].
  intros Hs. apply Forall_cons in Hs as [Hc Hs]. rewrite Hc. f_equal. by apply IH.
Qed.

Lemma replaceRuns_length (inRun : bool) (s : string) :
  String.length (Js.replaceRuns inRun s) <= String.length s.
Proof.
  revert inRun. induction s as [|c s IH]; intros inRun; simpl; [done|].
  destruct (Js.is_white_space c).
  - destruct inRun; simpl.
    + specialize (IH true). lia.
    + specialize (IH true). lia.
  - simpl. specialize (IH false). lia.
Qed.

(** X7.  The name of the exported PDF never contains white space: each run of
    white space in the destination becomes a single dash, so the dashed
    text is no longer than the destination, and a destination without
    white space is used as it is. *)
Theorem pdf_file_name_has_no_white_space (plan : TripPlan.t) :
  no_white_space (ItineraryList.pdfFileName plan)
  /\ String.length (Js.dashed (TripPlan.destination plan))
     <= String.length (TripPlan.destination plan)
  /\ (no_white_space (TripPlan.destination plan) ->
      ItineraryList.pdfFileName plan
      = "TripGenie-" +:+ TripPlan.destination plan +:+ ".pdf").
Proof.
  split; [|split].
  - unfold no_white_space, ItineraryList.pdfFileName.
    rewrite !chars_append. rewrite !Forall_app. split; [|split].
    + by repeat constructor.
    + apply replaceRuns_no_white_space.
    + by repeat constructor.
  - apply replaceRuns_length.
  - intros Hclean. unfold ItineraryList.pdfFileName, Js.dashed.
    by rewrite (replaceRuns_unchanged _ _ Hclean).
Qed.

Lemma pdf_file_name_has_no_white_space_witness :
  ItineraryList.pdfFileName Sample.paris = "TripGenie-Paris.pdf"
  /\ Js.dashed "New  York City" = "New-York-City".
Proof.
  destruct (pdf_file_name_has_no_white_space Sample.paris) as (_ & _ & Hclean).
  split; [|reflexivity]. rewrite Hclean; [reflexivity|]. by repeat constructor.
Defined.

(** ** Saving, deleting and reloading *)

Section Filtered.
Context {A : Type} (P : A -> Prop) `{!forall x, Decision (P x)}.

Lemma filter_all (l : list A) : Forall P l -> filter P l = l.
Proof.
  induction 1 as [|x l Hx _ IH]; [done|].
  rewrite filter_cons_True by done. by rewrite IH.
Qed.

Lemma filter_twice (l : list A) : filter P (filter P l) = filter P l.
Proof.
  apply filter_all, Forall_forall. intros x Hx.
  by apply list_elem_of_filter in Hx as [HP _].
Qed.

Lemma NoDup_fmap_filter {B} (f : A -> B) (l : list A) :
  NoDup (f <$> l) -> NoDup (f <$> filter P l).
Proof.
  induction l as [|x l IH]; [done|].
  rewrite fmap_cons, NoDup_cons. intros [Hx Hl].
  destruct (decide (P x)) as [HP|HP].
  - rewrite filter_cons_True by done. rewrite fmap_cons, NoDup_cons.
    split; [|by apply IH].
    intros Hin. apply Hx. apply list_elem_of_fmap in Hin as (y & -> & Hy).
    apply list_elem_of_filter in Hy as [_ Hy]. by apply list_elem_of_fmap_2.
  - rewrite filter_cons_False by done. by apply IH.
Qed.

End Filtered.

(** X8.  Saving and deleting keep the ids of the archive pairwise distinct:
    an archive without two entries of the same id never gets any,
    whichever plan is saved and whichever id is deleted. *)
Theorem archive_ids_stay_distinct (now : Z) (p : TripPlan.t) (id : string)
    (s : App.State) :
  NoDup (archive_ids s) ->
  NoDup (archive_ids (App.handleSavePlan now p s))
  /\ NoDup (archive_ids (App.handleDeleteSaved id s)).
Proof.
  intros Hnd. unfold archive_ids in *. split.
  - change (App.savedPlans (App.handleSavePlan now p s))
      with (TripPlan.set_createdAt (Some now) p
              :: filter (other_id p) (App.savedPlans s)).
    rewrite fmap_cons, NoDup_cons. split.
    + intros Hin. apply list_elem_of_fmap in Hin as (q & Hid & Hq).
      apply list_elem_of_filter in Hq as [Hother _]. by apply Hother.
    + by apply NoDup_fmap_filter.
  - by apply NoDup_fmap_filter.
Qed.

Lemma archive_ids_stay_distinct_witness :
  NoDup (archive_ids (App.handleSavePlan 9 Sample.paris Sample.archive))
  /\ NoDup (archive_ids (App.handleDeleteSaved "plan-2" Sample.archive)).
Proof.
  apply archive_ids_stay_distinct.
  apply (bool_decide_unpack _). vm_compute. exact I.
Defined.

(** X9.  Deleting an id removes every archive entry with that id and nothing
    else: the other entries stay, in their order, and the same list is
    written to local storage.  Deleting an id that is not archived changes
    nothing in the archive, deleting twice is deleting once, and deleting a
    plan's id right after saving the plan gives the archive that deleting
    alone gives.  The live plan is not touched. *)
Theorem delete_saved_removes_that_id (id : string) (s : App.State) :
  let saved := App.savedPlans s in
  let saved' := App.savedPlans (App.handleDeleteSaved id s) in
  (forall q, q ∈ saved' <-> q ∈ saved /\ TripPlan.id q ≠ id)
  /\ saved' `sublist_of` saved
  /\ App.storedPlans (App.handleDeleteSaved id s) = Some saved'
  /\ App.plan (App.handleDeleteSaved id s) = App.plan s
  /\ ((forall q, q ∈ saved -> TripPlan.id q ≠ id) -> saved' = saved)
  /\ App.savedPlans (App.handleDeleteSaved id (App.handleDeleteSaved id s)) = saved'
  /\ (forall now p,
        TripPlan.id p = id ->
        App.savedPlans (App.handleDeleteSaved id (App.handleSavePlan now p s))
        = saved').
Proof.
  cbn zeta.
  change (App.savedPlans (App.handleDeleteSaved id s))
    with (filter (fun q => TripPlan.id q ≠ id) (App.savedPlans s)).
  split; [|split; [|split; [|split; [|split; [|split]]]]].
  - intros q. rewrite list_elem_of_filter. tauto.
  - apply sublist_filter.
  - reflexivity.
  - reflexivity.
  - intros Habsent. apply filter_all, Forall_forall. exact Habsent.
  - apply (filter_twice (fun q => TripPlan.id q ≠ id)).
  - intros now p <-.
    change (App.savedPlans
              (App.handleDeleteSaved (TripPlan.id p) (App.handleSavePlan now p s)))
      with (filter (other_id p)
              (TripPlan.set_createdAt (Some now) p
                 :: filter (other_id p) (App.savedPlans s))).
    rewrite filter_cons_False by (unfold other_id; simpl; tauto).
    apply (filter_twice (other_id p)).
Qed.

Lemma delete_saved_removes_that_id_witness :
  App.savedPlans (App.handleDeleteSaved "plan-1" Sample.archive) = [Sample.rome]
  /\ App.savedPlans (App.handleDeleteSaved "plan-9" Sample.archive)
     = App.savedPlans Sample.archive
  /\ App.savedPlans
       (App.handleDeleteSaved "plan-1" (App.handleSavePlan 9 Sample.paris Sample.archive))
     = App.savedPlans (App.handleDeleteSaved "plan-1" Sample.archive).
Proof.
  destruct (delete_saved_removes_that_id "plan-1" Sample.archive)
    as (_ & _ & _ & _ & _ & _ & Hundo).
  destruct (delete_saved_removes_that_id "plan-9" Sample.archive)
    as (_ & _ & _ & _ & Habsent & _).
  split; [reflexivity|]. split.
  - apply Habsent. intros q Hq.
    apply elem_of_cons in Hq as [-> | Hq]; [discriminate|].
    apply elem_of_cons in Hq as [-> | Hq]; [discriminate|].
    by apply elem_of_nil in Hq.
  - by apply Hundo.
Defined.

(** X10.  What a page reload finds is the archive as the last save or delete
    left it; the "saved" badge of a plan is on right after the plan is
    saved and off right after its id is deleted; and the entry written by
    the "Save" button carries the plan's id, the save time and the
    postcard URL of the view (none when the view has none or an empty
    one). *)
Theorem archive_survives_reload (now : Z) (p : TripPlan.t) (id : string)
    (u : ItineraryList.State) (s : App.State) :
  App.savedPlans (reloaded (App.handleSavePlan now p s))
    = App.savedPlans (App.handleSavePlan now p s)
  /\ App.savedPlans (reloaded (App.handleDeleteSaved id s))
     = App.savedPlans (App.handleDeleteSaved id s)
  /\ App.isAlreadySaved p (App.handleSavePlan now p s) = true
  /\ App.isAlreadySaved p (App.handleDeleteSaved (TripPlan.id p) s) = false
  /\ exists entry,
       head (App.savedPlans (save_from_list now p s u)) = Some entry
       /\ TripPlan.id entry = TripPlan.id p
       /\ TripPlan.createdAt entry = Some now
       /\ TripPlan.itinerary entry = TripPlan.itinerary p
       /\ TripPlan.postcardUrl entry
          = match ItineraryList.postcardUrl u with
            | Some url => if Js.truthy url then Some url else None
            | None => None
            end.
Proof.
  split; [reflexivity|]. split; [reflexivity|]. split; [|split].
  - apply bool_decide_eq_true. apply Exists_exists.
    exists (TripPlan.set_createdAt (Some now) p). split; [left|reflexivity].
  - apply bool_decide_eq_false. rewrite Exists_exists. intros (q & Hq & Hid).
    change (App.savedPlans (App.handleDeleteSaved (TripPlan.id p) s))
      with (filter (other_id p) (App.savedPlans s)) in Hq.
    apply list_elem_of_filter in Hq as [Hother _]. by apply Hother.
  - eexists. split; [reflexivity|]. by repeat split.
Qed.

(** ** Planning a trip *)

Lemma or_else_truthy (x : option string) (fallback : string) :
  Js.truthy fallback = true -> Js.truthy (Js.or_else x fallback) = true.
Proof.
  intros Hfb. destruct x as [m|]; [|done]. simpl.
  by destruct (Js.truthy m) eqn:Hm.
Qed.

(** X11.  While the plan is awaited the application shows the spinner with the
    first message, no plan and no error.  When generation fails, for
    whatever reason, the application ends with no plan, the spinner off
    and an error text that is never empty; the archive and the region
    selection are as before. *)
Theorem failed_generation_leaves_no_plan
    (API_KEY : option string) (uuid : string) (request : TripRequest.t)
    (reply : GeminiService.generated
               (GeminiService.RawTripPlan.t * list GeminiService.GroundingChunk))
    (e : Js.error) (s : App.State) :
  GeminiService.generateTripPlan API_KEY uuid request reply = Js.Throws e ->
  (let waiting := visible s (App.handlePlanTrip request s) in
   App.loading waiting = true
   /\ App.plan waiting = None
   /\ App.error waiting = None
   /\ App.shownMessage waiting = Some "Scouring the map for hidden gems...")
  /\ exists s' text,
       complete (fun r => GeminiService.generateTripPlan API_KEY uuid r reply)
         (App.handlePlanTrip request s) = Js.Returns (s', tt)
       /\ App.plan s' = None
       /\ App.loading s' = false
       /\ App.error s' = Some text
       /\ Js.truthy text = true
       /\ App.savedPlans s' = App.savedPlans s
       /\ App.areaSelections s' = App.areaSelections s.
Proof.
  intros Hfail. split; [by repeat split|].
  eexists _, _. unfold App.handlePlanTrip. cbn [complete]. rewrite Hfail.
  split; [reflexivity|]. repeat split.
  exact (or_else_truthy (Some (App.message e))
           "Something went wrong. Please try a different area." eq_refl).
Qed.

Lemma failed_generation_leaves_no_plan_witness :
  exists s' text,
    complete
      (fun r => GeminiService.generateTripPlan (Some "k") "uuid-1" r
                  GeminiService.Malformed)
      (App.handlePlanTrip Sample.request Sample.archive) = Js.Returns (s', tt)
    /\ App.plan s' = None
    /\ App.error s' = Some text
    /\ Js.truthy text = true.
Proof.
  destruct (failed_generation_leaves_no_plan (Some "k") "uuid-1" Sample.request
              GeminiService.Malformed Js.SyntaxError Sample.archive)
    as (_ & s' & text & Hrun & Hplan & _ & Herr & Htext & _); [reflexivity|].
  by exists s', text.
Defined.

(** X12.  When generation succeeds the returned plan is loaded with its first
    day selected, the spinner is off and no error is shown; the archive
    and the region selection are as before. *)
Theorem successful_generation_loads_the_plan
    (API_KEY : option string) (uuid : string) (request : TripRequest.t)
    (reply : GeminiService.generated
               (GeminiService.RawTripPlan.t * list GeminiService.GroundingChunk))
    (plan : TripPlan.t) (s : App.State) :
  GeminiService.generateTripPlan API_KEY uuid request reply = Js.Returns plan ->
  exists s',
    complete (fun r => GeminiService.generateTripPlan API_KEY uuid r reply)
      (App.handlePlanTrip request s) = Js.Returns (s', tt)
    /\ App.plan s' = Some plan
    /\ App.selectedDayIndex s' = 0
    /\ App.loading s' = false
    /\ App.error s' = None
    /\ App.savedPlans s' = App.savedPlans s
    /\ App.areaSelections s' = App.areaSelections s.
Proof.
  intros Hok. eexists. unfold App.handlePlanTrip. cbn [complete]. rewrite Hok.
  split; [reflexivity|]. by repeat split.
Qed.

Lemma successful_generation_loads_the_plan_witness :
  exists s' plan,
    complete
      (fun r => GeminiService.generateTripPlan (Some "k") "uuid-1" r
                  (GeminiService.Parsed (Sample.raw_paris, Sample.chunks)))
      (App.handlePlanTrip Sample.request Sample.archive) = Js.Returns (s', tt)
    /\ App.plan s' = Some plan
    /\ TripPlan.id plan = "uuid-1"
    /\ App.selectedDayIndex s' = 0.
Proof.
  destruct (successful_generation_loads_the_plan (Some "k") "uuid-1" Sample.request
              (GeminiService.Parsed (Sample.raw_paris, Sample.chunks))
              _ Sample.archive eq_refl)
    as (s' & Hrun & Hplan & Hday & _).
  eexists s', _. split; [exact Hrun|]. split; [exact Hplan|]. by split.
Defined.

(** X13.  The text under the spinner is always one of the seven messages: an
    index below seven stays below seven at every firing of the interval,
    seven firings while loading bring the same message back, and outside
    loading the interval does nothing. *)
Theorem loading_message_cycles (s : App.State) :
  App.loadingMsgIndex s < 7 ->
  App.loadingMsgIndex (App.tick s) < 7
  /\ is_Some (App.shownMessage (App.tick s))
  /\ (App.loading s = true -> Nat.iter 7 App.tick s = s)
  /\ (App.loading s = false -> App.tick s = s).
Proof.
  intros Hlt.
  assert (Hnext : App.loadingMsgIndex (App.tick s) < 7).
  { unfold App.tick. destruct (App.loading s); [|done].
    cbn [App.loadingMsgIndex App.setLoadingMsgIndex].
    change (length App.LOADING_MESSAGES) with 7.
    apply Nat.mod_upper_bound. lia. }
  split; [exact Hnext|]. split; [|split].
  - unfold App.shownMessage. apply lookup_lt_is_Some. exact Hnext.
  - intros Hloading. destruct s as [pl ld er sd ar idx sv sh rf wd rs st].
    simpl in *. subst ld.
    do 7 (destruct idx as [|idx]; [reflexivity|]). lia.
  - intros Hidle. unfold App.tick. by rewrite Hidle.
Qed.

Lemma loading_message_cycles_witness :
  Nat.iter 7 App.tick (visible Sample.loaded (App.handlePlanTrip Sample.request Sample.loaded))
  = visible Sample.loaded (App.handlePlanTrip Sample.request Sample.loaded).
Proof.
  destruct (loading_message_cycles
              (visible Sample.loaded (App.handlePlanTrip Sample.request Sample.loaded)))
    as (_ & _ & Hcycle & _); [simpl; lia|].
  by apply Hcycle.
Defined.

(** ** Resizing, event after event *)

Lemma setItineraryWidth_same (s : App.State) :
  App.setItineraryWidth (App.itineraryWidth s) s = s.
Proof. by destruct s. Qed.

Lemma resize_step (round : Q -> Q) (e : App.PointerEvent)
    (c : option App.DOMRect) (s s' : App.State) :
  App.resize round e c s = Js.Returns s' ->
  s' = s
  \/ exists rect x, c = Some rect
       /\ App.itineraryWidth s' = Js.sub round x (App.left rect)
       /\ passes_test round (App.itineraryWidth s') (App.width rect)
       /\ s' = App.setItineraryWidth (App.itineraryWidth s') s.
Proof.
  unfold App.resize.
  destruct (App.isResizing s); [|intros [= <-]; by left].
  destruct c as [rect|]; [|intros [= <-]; by left].
  destruct (App.clientX e) as [x|err|]; simpl; [|done..].
  destruct (Qlt_le_dec (320 # 1) (Js.sub round x (App.left rect))) as [Hlo|_];
    [|intros [= <-]; by left].
  destruct (Qlt_le_dec (Js.sub round x (App.left rect))
              (Js.mul round (App.width rect) (3 # 4))) as [Hhi|_];
    [|intros [= <-]; by left].
  intros [= <-]. right. exists rect, x. by repeat split.
Qed.

(** X14.  A resize event changes nothing but the pane width.  It throws only
    for a touch event without touch points that arrives while resizing
    over a mounted container, and once resizing has stopped every event
    is ignored. *)
Theorem resize_changes_the_width_only
    (round : Q -> Q) (e : App.PointerEvent) (c : option App.DOMRect)
    (s : App.State) :
  (forall s', App.resize round e c s = Js.Returns s' ->
     s' = App.setItineraryWidth (App.itineraryWidth s') s)
  /\ (forall err, App.resize round e c s = Js.Throws err ->
        err = Js.TypeError /\ e = App.TouchEvent []
        /\ App.isResizing s = true /\ is_Some c)
  /\ App.resize round e c s ≠ Js.Untyped
  /\ App.resize round e c (App.stopResizing s)
     = Js.Returns (App.stopResizing s).
Proof.
  split; [|split; [|split]].
  - intros s' Hrun.
    destruct (resize_step _ _ _ _ _ Hrun) as [-> | (rect & x & _ & _ & _ & Hs')].
    + by rewrite setItineraryWidth_same.
    + exact Hs'.
  - intros err. unfold App.resize.
    destruct (App.isResizing s); [|done].
    destruct c as [rect|]; [|done].
    destruct e as [x|[|x touches]]; simpl.
    + by repeat destruct (Qlt_le_dec _ _).
    + intros [= <-]. by repeat split.
    + by repeat destruct (Qlt_le_dec _ _).
  - unfold App.resize.
    destruct (App.isResizing s); [|done].
    destruct c as [rect|]; [|done].
    destruct e as [x|[|x touches]]; simpl; [|done|];
      by repeat destruct (Qlt_le_dec _ _).
  - reflexivity.
Qed.

Lemma resize_changes_the_width_only_witness :
  App.resize Js.exactly (App.TouchEvent []) (Some Sample.container)
    (App.startResizing Sample.loaded) = Js.Throws Js.TypeError
  /\ exists s',
       App.resize Js.exactly (App.MouseEvent (600 # 1)) (Some Sample.container)
         (App.startResizing Sample.loaded) = Js.Returns s'
       /\ s' = App.setItineraryWidth (App.itineraryWidth s')
                 (App.startResizing Sample.loaded).
Proof.
  split; [reflexivity|]. eexists. split; [reflexivity|].
  destruct (resize_changes_the_width_only Js.exactly (App.MouseEvent (600 # 1))
              (Some Sample.container) (App.startResizing Sample.loaded))
    as (Hframe & _).
  by apply Hframe.
Defined.

Lemma resize_all_cons (round : Q -> Q)
    (ev : App.PointerEvent * option App.DOMRect)
    (events : list (App.PointerEvent * option App.DOMRect)) (s : App.State) :
  resize_all round (ev :: events) s
  = resize_all round events
      (match App.resize round ev.1 ev.2 s with
       | Js.Returns s' => s'
       | _ => s
       end).
Proof. reflexivity. Qed.

(** X15.  However long the drag and whatever the container does meanwhile, a
    pane wider than 320 stays wider than 320; and while the container
    keeps one rectangle, a width inside the band of that rectangle stays
    inside it, however the arithmetic rounds. *)
Theorem resize_run_stays_in_band
    (round : Q -> Q)
    (events : list (App.PointerEvent * option App.DOMRect)) (s : App.State) :
  ((320 # 1 < App.itineraryWidth s)%Q ->
   (320 # 1 < App.itineraryWidth (resize_all round events s))%Q)
  /\ (Js.Rounding round ->
      forall rect,
        Forall (fun ev => ev.2 = Some rect \/ ev.2 = None) events ->
        width_in_band (App.width rect) s ->
        width_in_band (App.width rect) (resize_all round events s)).
Proof.
  split.
  - revert s. induction events as [|ev events IH]; intros s Hs; [done|].
    rewrite resize_all_cons. apply IH.
    destruct (App.resize round ev.1 ev.2 s) as [s'|err|] eqn:Hrun; [|done..].
    destruct (resize_step _ _ _ _ _ Hrun)
      as [-> | (rect & x & _ & _ & [Hlo _] & _)]; done.
  - intros Hround rect. revert s.
    induction events as [|ev events IH]; intros s Hall Hs; [done|].
    apply Forall_cons in Hall as [Hev Hall].
    rewrite resize_all_cons. apply IH; [done|].
    destruct (App.resize round ev.1 ev.2 s) as [s'|err|] eqn:Hrun; [|done..].
    destruct (resize_step _ _ _ _ _ Hrun)
      as [-> | (rect' & x & Hc & Hw & Hband & _)]; [done|].
    destruct Hev as [Hev|Hev]; rewrite Hev in Hc; [|done].
    injection Hc as <-. unfold width_in_band. rewrite Hw in Hband |- *.
    by apply (passes_test_in_band round).
Qed.

Lemma resize_run_stays_in_band_witness :
  (320 # 1
   < App.itineraryWidth
       (resize_all Js.exactly
          [ (App.MouseEvent (600 # 1), Some Sample.container);
            (App.MouseEvent (100 # 1), Some Sample.container);
            (App.TouchEvent [], Some Sample.container);
            (App.MouseEvent (5000 # 1), None) ]
          (App.startResizing Sample.loaded)))%Q
  /\ width_in_band (1600 # 1)
       (resize_all Js.binary64
          [ (App.MouseEvent (2401 # 2), Some Sample.container);
            (App.MouseEvent (1300 # 1), Some Sample.container) ]
          (App.setItineraryWidth (400 # 1) (App.startResizing Sample.loaded))).
Proof.
  split.
  - apply resize_run_stays_in_band. reflexivity.
  - destruct (resize_run_stays_in_band Js.binary64
                [ (App.MouseEvent (2401 # 2), Some Sample.container);
                  (App.MouseEvent (1300 # 1), Some Sample.container) ]
                (App.setItineraryWidth (400 # 1)
                   (App.startResizing Sample.loaded))) as [_ Hband].
    apply (Hband binary64_rounding Sample.container).
    + repeat constructor.
    + split; reflexivity.
Defined.

(** ** Reorder, edit and swap at the edges *)

Lemma reorder_then_refresh_witness :
  (exists s',
      complete (fun _ => Js.Returns [Sample.tower; Sample.louvre])
        (App.handleReorderActivities 0 [Sample.louvre; Sample.tower] Sample.loaded)
      = Js.Returns (s', tt)
      /\ activities_of s' 0 = Some [Sample.tower; Sample.louvre]
      /\ App.isRefreshingLogistics s' = false)
  /\ (exists s',
        complete (fun _ => Js.Throws Js.SyntaxError)
          (App.handleReorderActivities 0 [Sample.louvre; Sample.tower] Sample.loaded)
        = Js.Returns (s', tt)
        /\ activities_of s' 0 = Some [Sample.louvre; Sample.tower]
        /\ App.isRefreshingLogistics s' = false).
Proof.
  destruct (reorder_then_refresh Sample.loaded Sample.paris 0 Sample.day1
              [Sample.louvre; Sample.tower]) as [Hok Hfail];
    [reflexivity | reflexivity |].
  split; [apply Hok | apply Hfail].
Defined.

(** X17.  A reorder awaits one logistics refresh, for the new order, the
    plan's destination and its stay, with the syncing flag on; the
    refresh is asked as of the default "09:00 AM", names and locations
    only.  Without a plan nothing happens, and for a day the plan does
    not have the handler ends with a type error; in both cases no refresh
    is awaited and the state is what it was. *)
Theorem reorder_awaits_one_refresh
    (d : nat) (newActivities : list Activity.t) (s : App.State) :
  (App.plan s = None ->
   issued (App.handleReorderActivities d newActivities s) = None
   /\ forall answer,
        complete answer (App.handleReorderActivities d newActivities s)
        = Js.Returns (s, tt))
  /\ (forall p,
        App.plan s = Some p ->
        length (TripPlan.itinerary p) <= d ->
        issued (App.handleReorderActivities d newActivities s) = None
        /\ visible s (App.handleReorderActivities d newActivities s) = s
        /\ forall answer,
             complete answer (App.handleReorderActivities d newActivities s)
             = Js.Throws Js.TypeError)
  /\ (forall p day,
        App.plan s = Some p ->
        TripPlan.itinerary p !! d = Some day ->
        exists call,
          issued (App.handleReorderActivities d newActivities s) = Some call
          /\ call = App.mkLogisticsCall newActivities (TripPlan.destination p)
                      (TripPlan.stayLocation p)
          /\ App.isRefreshingLogistics
               (visible s (App.handleReorderActivities d newActivities s)) = true
          /\ GeminiService.logistics_prompt (App.lc_activities call)
               (App.lc_destination call) (App.lc_stayLocation call) None
             = GeminiService.LogisticsPrompt.mk (TripPlan.destination p)
                 (map (fun a => (Activity.name a, Activity.location a)) newActivities)
                 "09:00 AM"
                 ((fun a => (Activity.name a, Activity.location a))
                    <$> TripPlan.stayLocation p)).
Proof.
  split; [|split].
  - intros Hnone. unfold App.handleReorderActivities. by rewrite Hnone.
  - intros p Hp Hshort. unfold App.handleReorderActivities, TripPlan.day.
    rewrite Hp. by rewrite (lookup_ge_None_2 _ _ Hshort).
  - intros p day Hp Hday. eexists.
    unfold App.handleReorderActivities, TripPlan.day. rewrite Hp, Hday.
    by repeat split.
Qed.

Lemma reorder_awaits_one_refresh_witness :
  (forall answer,
      complete answer (App.handleReorderActivities 5 [Sample.louvre] Sample.loaded)
      = Js.Throws Js.TypeError)
  /\ issued (App.handleReorderActivities 1 [Sample.garden] Sample.loaded)
     = Some (App.mkLogisticsCall [Sample.garden] "Paris" (Some Sample.hotel)).
Proof.
  destruct (reorder_awaits_one_refresh 5 [Sample.louvre] Sample.loaded)
    as (_ & Hmissing & _).
  destruct (reorder_awaits_one_refresh 1 [Sample.garden] Sample.loaded)
    as (_ & _ & Hcall).
  split.
  - apply (Hmissing Sample.paris); [reflexivity | simpl; lia].
  - destruct (Hcall Sample.paris Sample.day2) as (call & Hissued & -> & _);
      [reflexivity | reflexivity |].
    exact Hissued.
Defined.

(** X18.  An edit outside the day's activities.  At the index just past the
    last activity the patch is appended; further out the write leaves
    holes, which the typed model does not follow; under a negative index
    other than [-1] the write is to a property, not to an element, and the
    plan is what it was; for a day the plan does not have, any index but
    [-1] ends in a type error; and without a plan every edit is ignored. *)
Theorem edit_outside_the_day
    (s : App.State) (dayIndex : nat) (patch : Activity.t) :
  (App.plan s = None ->
   forall i, App.handleEditActivity dayIndex i patch s = Js.Returns s)
  /\ (forall p,
        App.plan s = Some p ->
        length (TripPlan.itinerary p) <= dayIndex ->
        forall i, i ≠ (-1)%Z ->
          App.handleEditActivity dayIndex i patch s = Js.Throws Js.TypeError)
  /\ (forall p day,
        App.plan s = Some p ->
        TripPlan.itinerary p !! dayIndex = Some day ->
        (exists s',
            App.handleEditActivity dayIndex
              (Z.of_nat (length (DayPlan.activities day))) patch s = Js.Returns s'
            /\ activities_of s' dayIndex = Some (DayPlan.activities day ++ [patch]))
        /\ (forall i, length (DayPlan.activities day) < i ->
              App.handleEditActivity dayIndex (Z.of_nat i) patch s = Js.Untyped)
        /\ (forall i, (i < -1)%Z ->
              App.handleEditActivity dayIndex i patch s = Js.Returns s)).
Proof.
  split; [|split].
  - intros Hnone i. unfold App.handleEditActivity. by rewrite Hnone.
  - intros p Hp Hshort i Hi. unfold App.handleEditActivity, TripPlan.day.
    rewrite Hp, (lookup_ge_None_2 _ _ Hshort).
    by destruct (Z.eqb_spec i (-1)).
  - intros p day Hp Hday.
    destruct (edit_activity_past_the_end s p dayIndex day patch Hp Hday)
      as [Happend Hholes].
    split; [|split].
    + eexists. split; [exact Happend|].
      unfold activities_of. simpl. by rewrite list_lookup_alter_eq, Hday.
    + exact Hholes.
    + intros i Hi. unfold App.handleEditActivity, TripPlan.day. rewrite Hp, Hday.
      destruct (Z.eqb_spec i (-1)); [lia|].
      cbn [mbind outcome_bind Js.bind]. rewrite assign_negative by lia.
      cbn [mbind outcome_bind Js.bind].
      by rewrite (with_activities_same _ _ _ Hday), (setPlan_same _ _ Hp).
Qed.

Lemma edit_outside_the_day_witness :
  App.handleEditActivity 1 1 Sample.museum Sample.loaded
    = Js.Returns
        (App.setPlan
           (Some (App.with_activities 1 [Sample.garden; Sample.museum] Sample.paris))
           Sample.loaded)
  /\ App.handleEditActivity 1 3 Sample.museum Sample.loaded = Js.Untyped
  /\ App.handleEditActivity 1 (-2) Sample.museum Sample.loaded
     = Js.Returns Sample.loaded
  /\ App.handleEditActivity 7 0 Sample.museum Sample.loaded = Js.Throws Js.TypeError.
Proof.
  destruct (edit_outside_the_day Sample.loaded 1 Sample.museum) as (_ & _ & Hday).
  destruct (edit_outside_the_day Sample.loaded 7 Sample.museum) as (_ & Hmissing & _).
  destruct (Hday Sample.paris Sample.day2) as (_ & Hholes & Hneg);
    [reflexivity | reflexivity |].
  split; [reflexivity|]. split; [|split].
  - apply (Hholes 3). simpl. lia.
  - apply Hneg. lia.
  - apply (Hmissing Sample.paris); [reflexivity | simpl; lia | lia].
Defined.

Lemma replace_activity_excludes_every_name_witness :
  exists call,
    issued (App.handleReplaceActivity 0 1 Sample.bistro Sample.loaded) = Some call
    /\ App.rc_excludedPlaces call = ["Louvre"; "Bistro"; "Tower"; "River"; "Garden"].
Proof.
  destruct (replace_activity_excludes_every_name Sample.loaded Sample.paris 0
              Sample.day1 1 Sample.bistro) as (call & Hissued & Hnames & _);
    [reflexivity | reflexivity |].
  exists call. split; [exact Hissued|]. rewrite Hnames. reflexivity.
Defined.

Lemma replace_activity_in_range_witness :
  exists s',
    complete (fun _ => Js.Returns Sample.museum)
      (App.handleReplaceActivity 0 1 Sample.bistro Sample.loaded)
    = Js.Returns (s', Some Sample.museum)
    /\ activities_of s' 0
       = Some [Sample.louvre; Sample.museum; Sample.tower; Sample.river].
Proof.
  destruct (replace_activity_in_range Sample.loaded Sample.paris 0 Sample.day1 1
              Sample.bistro Sample.museum) as (s' & Hrun & Hread & _);
    [reflexivity | reflexivity | simpl; lia |].
  exists s'. split; [exact Hrun | exact Hread].
Defined.

(** ** Dragging *)

Lemma requested_order_undo {A} (l : list A) (src tgt : nat) :
  src < length l -> tgt < length l ->
  requested_order tgt src (requested_order src tgt l) = l.
Proof.
  intros Hsrc Htgt.
  destruct (lookup_lt_is_Some_2 _ _ Hsrc) as [x Hx].
  unfold requested_order at 2. rewrite Hx. cbn zeta.
  assert (Hrest : length (delete src l) = length l - 1)
    by (rewrite length_delete; [lia | by eexists]).
  assert (Hlen : length (take tgt (delete src l)) = tgt)
    by (rewrite length_take; lia).
  unfold requested_order.
  rewrite (list_lookup_middle _ _ x tgt) by done. cbn zeta.
  replace (delete tgt (take tgt (delete src l) ++ x :: drop tgt (delete src l)))
    with (delete src l).
  2:{ rewrite <- Hlen at 1. rewrite delete_middle. by rewrite take_drop. }
  rewrite delete_take_drop.
  rewrite take_app_length', drop_app_length' by (rewrite length_take; lia).
  by apply take_drop_middle.
Qed.

(** X21.  Dragging a card somewhere and then dragging it back restores the
    day: after a drop of the card at [src] on [tgt], a drop of the card
    now at [tgt] on [src] asks for the original order. *)
Theorem drag_back_restores_the_order
    (p : TripPlan.t) (d : nat) (day : DayPlan.t) (u : ItineraryList.State)
    (src tgt : nat) :
  TripPlan.itinerary p !! d = Some day ->
  src < length (DayPlan.activities day) ->
  tgt < length (DayPlan.activities day) ->
  src ≠ tgt ->
  exists u1 moved u2,
    ItineraryList.onDrop p d tgt (ItineraryList.onDragStart src u)
    = Js.Returns (u1, Some (ItineraryList.onReorderActivities d moved))
    /\ ItineraryList.onDrop (App.with_activities d moved p) d src
         (ItineraryList.onDragStart tgt u1)
       = Js.Returns
           (u2, Some (ItineraryList.onReorderActivities d (DayPlan.activities day))).
Proof.
  intros Hday Hsrc Htgt Hne. eexists _, _, _. split.
  - by apply (onDrop_requested_order p d day).
  - rewrite (onDrop_requested_order _ d
               (DayPlan.set_activities
                  (requested_order src tgt (DayPlan.activities day)) day)
               _ tgt src).
    + simpl. by rewrite requested_order_undo.
    + simpl. by rewrite list_lookup_alter_eq, Hday.
    + done.
    + simpl. by rewrite requested_order_length.
    + done.
Qed.

Lemma drag_back_restores_the_order_witness :
  exists u1 moved u2,
    ItineraryList.onDrop Sample.paris 0 0
      (ItineraryList.onDragStart 2 (ItineraryList.cells Sample.view))
    = Js.Returns (u1, Some (ItineraryList.onReorderActivities 0 moved))
    /\ ItineraryList.onDrop (App.with_activities 0 moved Sample.paris) 0 2
         (ItineraryList.onDragStart 0 u1)
       = Js.Returns
           (u2, Some (ItineraryList.onReorderActivities 0
                        [Sample.louvre; Sample.bistro; Sample.tower; Sample.river])).
Proof.
  apply (drag_back_restores_the_order Sample.paris 0 Sample.day1);
    [reflexivity | simpl; lia | simpl; lia | lia].
Defined.

(** X22.  Whatever a drop does, it ends the drag: afterwards no card is
    dragged and no drop target is shown, and the rest of the view (the
    selected card, the editor and the postcard) is as it was.  A drop with
    no drag in progress, or on the dragged card itself, returns and makes
    no call; a drop of a card of the displayed day returns, and any call
    that is made asks to reorder the displayed day with a permutation of
    its activities.  A dragged index past the day's last activity would
    put [undefined] into the list, and a displayed day the plan does not
    have ends in a type error. *)
Theorem drop_ends_the_drag
    (p : TripPlan.t) (d tgt : nat) (u : ItineraryList.State) :
  (forall u' call,
      ItineraryList.onDrop p d tgt u = Js.Returns (u', call) ->
      u' = ItineraryList.setDropTargetIndex None (ItineraryList.setDraggedIndex None u)
      /\ (ItineraryList.draggedIndex u = None
          \/ ItineraryList.draggedIndex u = Some tgt -> call = None)
      /\ (forall c, call = Some c ->
            exists day moved,
              TripPlan.itinerary p !! d = Some day
              /\ c = ItineraryList.onReorderActivities d moved
              /\ moved ≡ₚ DayPlan.activities day)
      /\ ItineraryList.draggedIndex u' = None
      /\ ItineraryList.dropTargetIndex u' = None
      /\ ItineraryList.selectedActivity u' = ItineraryList.selectedActivity u
      /\ ItineraryList.isEditing u' = ItineraryList.isEditing u
      /\ ItineraryList.editName u' = ItineraryList.editName u
      /\ ItineraryList.editDesc u' = ItineraryList.editDesc u
      /\ ItineraryList.postcardUrl u' = ItineraryList.postcardUrl u)
  /\ (forall src day,
        ItineraryList.draggedIndex u = Some src -> src ≠ tgt ->
        TripPlan.itinerary p !! d = Some day ->
        length (DayPlan.activities day) <= src ->
        ItineraryList.onDrop p d tgt u = Js.Untyped)
  /\ (forall src,
        ItineraryList.draggedIndex u = Some src -> src ≠ tgt ->
        length (TripPlan.itinerary p) <= d ->
        ItineraryList.onDrop p d tgt u = Js.Throws Js.TypeError)
  /\ (ItineraryList.draggedIndex u = None
      \/ ItineraryList.draggedIndex u = Some tgt ->
      exists u',
        ItineraryList.onDrop p d tgt u = Js.Returns (u', None)
        /\ ItineraryList.draggedIndex u' = None
        /\ ItineraryList.dropTargetIndex u' = None)
  /\ (forall src day,
        ItineraryList.draggedIndex u = Some src -> src ≠ tgt ->
        TripPlan.itinerary p !! d = Some day ->
        src < length (DayPlan.activities day) ->
        exists u' moved,
          ItineraryList.onDrop p d tgt u
          = Js.Returns (u', Some (ItineraryList.onReorderActivities d moved))
          /\ length moved = length (DayPlan.activities day)
          /\ ItineraryList.draggedIndex u' = None
          /\ ItineraryList.dropTargetIndex u' = None).
Proof.
  assert (Hframe : forall u',
             u' = ItineraryList.setDropTargetIndex None
                    (ItineraryList.setDraggedIndex None u) ->
             ItineraryList.draggedIndex u' = None
             /\ ItineraryList.dropTargetIndex u' = None
             /\ ItineraryList.selectedActivity u' = ItineraryList.selectedActivity u
             /\ ItineraryList.isEditing u' = ItineraryList.isEditing u
             /\ ItineraryList.editName u' = ItineraryList.editName u
             /\ ItineraryList.editDesc u' = ItineraryList.editDesc u
             /\ ItineraryList.postcardUrl u' = ItineraryList.postcardUrl u).
  { intros u' ->. by repeat split. }
  split; [|split; [|split; [|split]]].
  - intros u' call. unfold ItineraryList.onDrop.
    destruct (ItineraryList.draggedIndex u) as [src|] eqn:Hdrag.
    2:{ intros [= <- <-]. split; [done|]. split; [done|].
        split; [by intros c|]. by apply Hframe. }
    destruct (decide (src = tgt)) as [->|Hne].
    { intros [= <- <-]. split; [done|]. split; [done|].
      split; [by intros c|]. by apply Hframe. }
    unfold TripPlan.day. destruct (TripPlan.itinerary p !! d) as [day|] eqn:Hday;
      [|done].
    cbn [mbind outcome_bind Js.bind].
    destruct (DayPlan.activities day !! src) as [item|] eqn:Hitem.
    + rewrite (splice_delete1_lookup _ _ _ Hitem).
      intros [= <- <-]. split; [done|]. split; [|split; [|by apply Hframe]].
      * intros [Hno|Hsame]; [done|]. by injection Hsame as ->.
      * intros c [= <-]. eexists day, _. split; [done|]. split; [done|].
        unfold Js.splice_insert.
        rewrite <- Permutation_middle, take_drop.
        symmetry. by apply delete_Permutation.
    + rewrite splice_delete1_out_of_range by (by apply lookup_ge_None). done.
  - intros src day Hdrag Hne Hday Hpast. unfold ItineraryList.onDrop, TripPlan.day.
    rewrite Hdrag, Hday, decide_False by done.
    cbn [mbind outcome_bind Js.bind].
    by rewrite splice_delete1_out_of_range.
  - intros src Hdrag Hne Hshort. unfold ItineraryList.onDrop, TripPlan.day.
    rewrite Hdrag, decide_False by done.
    by rewrite (lookup_ge_None_2 _ _ Hshort).
  - intros Hidle. eexists. unfold ItineraryList.onDrop.
    destruct Hidle as [-> | ->]; [|rewrite decide_True by done];
      (split; [reflexivity|]; by split).
  - intros src day Hdrag Hne Hday Hsrc.
    destruct (lookup_lt_is_Some_2 _ _ Hsrc) as [item Hitem].
    eexists _, _. unfold ItineraryList.onDrop, TripPlan.day.
    rewrite Hdrag, Hday, decide_False by done.
    cbn [mbind outcome_bind Js.bind].
    rewrite (splice_delete1_lookup _ _ _ Hitem).
    split; [reflexivity|]. split; [|by split].
    apply Permutation_length. unfold Js.splice_insert.
    rewrite <- Permutation_middle, take_drop.
    symmetry. by apply delete_Permutation.
Qed.

Lemma drop_ends_the_drag_witness :
  ItineraryList.onDrop Sample.paris 0 0
    (ItineraryList.onDragStart 9 (ItineraryList.cells Sample.view)) = Js.Untyped
  /\ ItineraryList.onDrop Sample.paris 4 0
       (ItineraryList.onDragStart 1 (ItineraryList.cells Sample.view))
     = Js.Throws Js.TypeError
  /\ ItineraryList.dropTargetIndex Sample.dragging = Some 0
  /\ (exists u' call,
        ItineraryList.onDrop Sample.paris 0 0 Sample.dragging
        = Js.Returns (u', call)
        /\ ItineraryList.draggedIndex u' = None
        /\ ItineraryList.dropTargetIndex u' = None)
  /\ (exists u',
        ItineraryList.onDrop Sample.paris 0 2 Sample.dragging
        = Js.Returns (u', None)
        /\ ItineraryList.dropTargetIndex u' = None).
Proof.
  split; [|split; [|split; [reflexivity|split]]].
  - destruct (drop_ends_the_drag Sample.paris 0 0
                (ItineraryList.onDragStart 9 (ItineraryList.cells Sample.view)))
      as (_ & Hpast & _).
    apply (Hpast 9 Sample.day1); [reflexivity | lia | reflexivity | simpl; lia].
  - destruct (drop_ends_the_drag Sample.paris 4 0
                (ItineraryList.onDragStart 1 (ItineraryList.cells Sample.view)))
      as (_ & _ & Hmissing & _).
    apply (Hmissing 1); [reflexivity | lia | simpl; lia].
  - destruct (drop_ends_the_drag Sample.paris 0 0 Sample.dragging)
      as (Hends & _).
    eexists _, _. split; [reflexivity|].
    destruct (Hends _ _ eq_refl) as (_ & _ & _ & Hdragged & Htarget & _).
    split; [exact Hdragged | exact Htarget].
  - destruct (drop_ends_the_drag Sample.paris 0 2 Sample.dragging)
      as (_ & _ & _ & Hidle & _).
    destruct Hidle as (u' & Hrun & _ & Htarget); [by right|].
    exists u'. split; [exact Hrun | exact Htarget].
Defined.

(** ** The editor and "Swap Spot" *)




(** X20.  "Swap Spot" from the click to the end.  While the collaborator is
    awaited the button shows the spinner.  When an alternative comes back
    it takes the place of the selected activity, the detail modal closes
    and the spinner stops.  When the collaborator fails, its error leaves
    the handler, the plan is what it was, the modal stays open on the same
    activity and the spinner stops all the same. *)
Theorem swap_spot_closes_or_keeps_the_modal
    (s : App.State) (p : TripPlan.t) (d : nat) (day : DayPlan.t) (i : nat)
    (a new : Activity.t) (e : Js.error) (w : ItineraryList.View) :
  App.plan s = Some p ->
  TripPlan.itinerary p !! d = Some day ->
  i < length (DayPlan.activities day) ->
  ItineraryList.selectedActivity (ItineraryList.cells w) = Some (a, Z.of_nat i) ->
  ItineraryList.isReplacing
    (visible w (ItineraryList.handleReplaceAsync d w)) = true
  /\ (exists s' w',
        swap_spot (fun _ => Js.Returns new) d s w = Js.Returns (s', w', None)
        /\ activities_of s' d = Some (<[i := new]> (DayPlan.activities day))
        /\ stay_of s' = stay_of s
        /\ ItineraryList.selectedActivity (ItineraryList.cells w') = None
        /\ ItineraryList.isReplacing w' = false)
  /\ (exists w',
        swap_spot (fun _ => Js.Throws e) d s w = Js.Returns (s, w', Some e)
        /\ ItineraryList.selectedActivity (ItineraryList.cells w')
           = Some (a, Z.of_nat i)
        /\ ItineraryList.isReplacing w' = false).
Proof.
  intros Hp Hday Hi Hsel.
  assert (Hasync : ItineraryList.handleReplaceAsync d w
                   = Awaiting (ItineraryList.setIsReplacing true w)
                       (ItineraryList.onReplaceActivity d (Z.of_nat i) a)
                       (fun reply w =>
                          match reply with
                          | Js.Returns _ =>
                              Js.Returns
                                (ItineraryList.setIsReplacing false
                                   (ItineraryList.setCells
                                      (ItineraryList.setSelectedActivity None
                                         (ItineraryList.cells w)) w), None)
                          | Js.Throws e => Js.Returns (ItineraryList.setIsReplacing false w, Some e)
                          | Js.Untyped => Js.Untyped
                          end)).
  { unfold ItineraryList.handleReplaceAsync, ItineraryList.handleReplace.
    by rewrite Hsel. }
  split; [by rewrite Hasync|]. split.
  - destruct (replace_activity_in_range s p d day i a new Hp Hday Hi)
      as (s' & Hrun & Hread & _ & Hstay).
    eexists s', _. unfold swap_spot. rewrite Hasync, Hrun.
    cbn [mbind outcome_bind Js.bind]. split; [reflexivity|]. by repeat split.
  - eexists. unfold swap_spot. rewrite Hasync.
    unfold App.handleReplaceActivity, TripPlan.day. rewrite Hp, Hday.
    cbn [complete mbind outcome_bind Js.bind]. split; [reflexivity|].
    split; [exact Hsel | reflexivity].
Qed.

Lemma swap_spot_closes_or_keeps_the_modal_witness :
  (exists s' w',
      swap_spot (fun _ => Js.Returns Sample.museum) 0 Sample.loaded
        Sample.bistro_selected = Js.Returns (s', w', None)
      /\ activities_of s' 0
         = Some [Sample.louvre; Sample.museum; Sample.tower; Sample.river])
  /\ (exists w',
        swap_spot (fun _ => Js.Throws (Js.Rejection "offline")) 0 Sample.loaded
          Sample.bistro_selected
        = Js.Returns (Sample.loaded, w', Some (Js.Rejection "offline"))).
Proof.
  destruct (swap_spot_closes_or_keeps_the_modal Sample.loaded Sample.paris 0
              Sample.day1 1 Sample.bistro Sample.museum (Js.Rejection "offline")
              Sample.bistro_selected)
    as (_ & (s' & w' & Hok & Hread & _) & (w2 & Hfail & _));
    [reflexivity | reflexivity | simpl; lia | reflexivity |].
  split; [by exists s', w' | by exists w2].
Defined.

(** ** The form: regions, hotel search *)

(** X24.  A submitted request names the place in one way only.  Once the
    effect on the region selection has run, a submission with regions
    carries the regions and an empty destination text, whatever had been
    typed before, and a submission without regions carries no region list
    and a destination that is not blank. *)
Theorem request_has_regions_or_a_destination
    (selectedAreas : list TripBounds.t) (f : TripInput.State)
    (request : TripRequest.t) :
  TripInput.handleSubmit selectedAreas (TripInput.onSelectedAreas selectedAreas f)
    = Some request ->
  (selectedAreas ≠ []
   /\ TripRequest.selectedAreas request = Some selectedAreas
   /\ TripRequest.destination request = "")
  \/ (selectedAreas = []
      /\ TripRequest.selectedAreas request = None
      /\ TripRequest.destination request = TripInput.destination f
      /\ ~ blank (TripRequest.destination request)).
Proof.
  destruct selectedAreas as [|area areas].
  - unfold TripInput.onSelectedAreas, TripInput.handleSubmit. simpl.
    destruct (Js.truthy (Js.trim (TripInput.destination f))) eqn:Htrim; [|done].
    intros [= <-]. right. simpl. repeat split.
    intros Hblank. apply trim_falsy_iff_blank in Hblank. congruence.
  - unfold TripInput.onSelectedAreas, TripInput.handleSubmit. simpl.
    intros [= <-]. left. by repeat split.
Qed.

Lemma request_has_regions_or_a_destination_witness :
  exists request,
    TripInput.handleSubmit [Sample.box]
      (TripInput.onSelectedAreas [Sample.box] (Sample.form "Paris")) = Some request
    /\ TripRequest.selectedAreas request = Some [Sample.box]
    /\ TripRequest.destination request = "".
Proof.
  eexists. split; [reflexivity|].
  destruct (request_has_regions_or_a_destination [Sample.box] (Sample.form "Paris")
              _ eq_refl) as [(_ & Hareas & Hdest) | (Hnil & _)];
    [by split | discriminate Hnil].
Defined.






(** ** The selection list *)

(** X26.  Undo removes exactly the last selection: it undoes a completed
    drawing and a "Select Whole View" alike, and on an empty list it does
    nothing.  "Select Whole View" selects nothing when the map mounts and
    then appends one box per click, also when the bounds repeat; the
    north, south, east and west of each box are those of the visible
    bounds at that click, that is the latitudes and longitudes of their
    north-east and south-west corners. *)
Theorem selection_appends_and_undoes (selectedAreas : list TripBounds.t) :
  HomeMap.handleUndo [] = []
  /\ (forall b, HomeMap.handleUndo (HomeMap.handleDrawComplete selectedAreas b)
                = selectedAreas)
  /\ (forall trigger bounds,
        HomeMap.handleUndo
          (HomeMap.clickSelectVisible (trigger, selectedAreas) bounds).2
        = selectedAreas)
  /\ (forall bounds, HomeMap.selectVisibleEffect 0 bounds selectedAreas = selectedAreas)
  /\ (forall trigger views,
        foldl HomeMap.clickSelectVisible (trigger, selectedAreas) views
        = (trigger + length views, selectedAreas ++ map HomeMap.boundsBox views))
  /\ (forall trigger views,
        exists added,
          (foldl HomeMap.clickSelectVisible (trigger, selectedAreas) views).2
          = selectedAreas ++ added
          /\ Forall2 (fun v b =>
                        TripBounds.north b = HomeMap.getNorth v
                        /\ TripBounds.south b = HomeMap.getSouth v
                        /\ TripBounds.east b = HomeMap.getEast v
                        /\ TripBounds.west b = HomeMap.getWest v
                        /\ TripBounds.north b
                           = Coordinates.lat (HomeMap.northEast v)
                        /\ TripBounds.south b
                           = Coordinates.lat (HomeMap.southWest v)
                        /\ TripBounds.east b
                           = Coordinates.lng (HomeMap.northEast v)
                        /\ TripBounds.west b
                           = Coordinates.lng (HomeMap.southWest v))
               views added)
  /\ (forall trigger bounds,
        0 < trigger ->
        exists b,
          HomeMap.selectVisibleEffect trigger bounds selectedAreas
          = selectedAreas ++ [b]
          /\ TripBounds.north b = HomeMap.getNorth bounds
          /\ TripBounds.south b = HomeMap.getSouth bounds
          /\ TripBounds.east b = HomeMap.getEast bounds
          /\ TripBounds.west b = HomeMap.getWest bounds).
Proof.
  assert (Hundo : forall (sel : list TripBounds.t) b,
             HomeMap.handleUndo (HomeMap.handleDrawComplete sel b) = sel).
  { intros sel b. unfold HomeMap.handleUndo, HomeMap.handleDrawComplete.
    rewrite length_app. simpl.
    destruct (Nat.ltb_spec 0 (length sel + 1)); [|lia].
    by rewrite take_app_length' by lia. }
  assert (Hclicks : forall views trigger (sel : list TripBounds.t),
             foldl HomeMap.clickSelectVisible (trigger, sel) views
             = (trigger + length views, sel ++ map HomeMap.boundsBox views)).
  { induction views as [|v views IH]; intros trigger sel.
    + simpl. by rewrite Nat.add_0_r, app_nil_r.
    + cbn [foldl]. unfold HomeMap.clickSelectVisible at 2,
        HomeMap.selectVisibleEffect, HomeMap.handleSelectVisible,
        HomeMap.handleDrawComplete. cbn [fst snd].
      destruct (Nat.ltb_spec 0 (trigger + 1)); [|lia].
      rewrite IH. f_equal; [simpl; lia|].
      by rewrite <- app_assoc. }
  split; [reflexivity|]. split; [apply Hundo|].
  split; [|split; [reflexivity|split; [|split]]].
  - intros trigger bounds. unfold HomeMap.clickSelectVisible,
      HomeMap.selectVisibleEffect, HomeMap.handleSelectVisible. simpl.
    destruct (Nat.ltb_spec 0 (trigger + 1)); [|lia]. apply Hundo.
  - intros trigger views. apply Hclicks.
  - intros trigger views. exists (map HomeMap.boundsBox views).
    rewrite Hclicks. split; [reflexivity|].
    clear. induction views as [|v views IH]; constructor;
      [by repeat split | exact IH].
  - intros trigger bounds Hpos. eexists.
    unfold HomeMap.selectVisibleEffect, HomeMap.handleDrawComplete.
    destruct (Nat.ltb_spec 0 trigger); [|lia].
    split; [reflexivity|]. by repeat split.
Qed.

Lemma selection_appends_and_undoes_witness :
  exists b,
    HomeMap.selectVisibleEffect 1 Sample.viewport [Sample.box]
    = [Sample.box; b]
    /\ TripBounds.north b = (50 # 1)%Q
    /\ TripBounds.south b = (47 # 1)%Q
    /\ TripBounds.east b = (4 # 1)%Q
    /\ TripBounds.west b = (1 # 1)%Q.
Proof.
  destruct (selection_appends_and_undoes [Sample.box])
    as (_ & _ & _ & _ & _ & _ & Hclick).
  destruct (Hclick 1 Sample.viewport) as (b & Hrun & Hn & Hs & He & Hw); [lia|].
  exists b. split; [exact Hrun|].
  split; [exact Hn|]. split; [exact Hs|]. split; [exact He | exact Hw].
Defined.

(** ** Map events in any order *)

Lemma drawn_box_upright (a b : HomeMap.LatLng) : upright (drawn_box a b).
Proof. split; apply Qmin_le_Qmax. Qed.

Lemma handle_step (distanceTo : HomeMap.LatLng -> HomeMap.LatLng -> Q)
    (mode : bool) (e : HomeMap.MapEvent) (d : HomeMap.AreaDrawer.State) :
  let '(d', call) := HomeMap.AreaDrawer.handle distanceTo mode e d in
  (paired d -> paired d')
  /\ (mode = false -> d' = d /\ call = None)
  /\ (forall b, call = Some b -> e = HomeMap.mouseup /\ upright b).
Proof.
  unfold paired.
  destruct d as [[start|] [current|]], e as [latlng|latlng|], mode; simpl;
    try destruct (Qlt_le_dec _ _);
    (split; [|split]); try (intuition congruence).
  intros b [= <-]. split; [done|]. apply (drawn_box_upright start current).
Qed.

(** X27.  Whatever map events arrive, in whatever order and mode, earlier
    selections are never removed or changed: the selection after the
    events is the selection before them followed by new boxes, at most one
    per release, each with its south edge not above its north edge and its
    west edge not right of its east edge.  The drawer keeps holding both
    points or neither, and outside drawing mode neither the drawer nor the
    selection changes. *)
Theorem map_events_only_append
    (distanceTo : HomeMap.LatLng -> HomeMap.LatLng -> Q) (mode : bool)
    (events : list HomeMap.MapEvent)
    (d : HomeMap.AreaDrawer.State) (selectedAreas : list TripBounds.t) :
  exists d' added,
    HomeMap.AreaDrawer.run distanceTo mode events (d, selectedAreas)
    = (d', selectedAreas ++ added)
    /\ length added <= releases events
    /\ Forall upright added
    /\ (paired d -> paired d')
    /\ (mode = false -> d' = d /\ added = []).
Proof.
  revert d selectedAreas. induction events as [|e events IH]; intros d sel.
  - exists d, []. simpl. rewrite app_nil_r.
    split; [done|]. split; [done|]. split; [constructor|]. by split.
  - unfold HomeMap.AreaDrawer.run. cbn [foldl].
    unfold HomeMap.AreaDrawer.step at 2.
    pose proof (handle_step distanceTo mode e d) as Hstep.
    destruct (HomeMap.AreaDrawer.handle distanceTo mode e d) as [d1 [b|]].
    + destruct Hstep as (Hpair & Hoff & Hbox).
      destruct (Hbox b eq_refl) as [-> Hup].
      destruct (IH d1 (HomeMap.handleDrawComplete sel b))
        as (d' & added & Hrun & Hlen & Hall & Hpair' & Hoff').
      exists d', (b :: added). unfold HomeMap.AreaDrawer.run in Hrun.
      rewrite Hrun. unfold HomeMap.handleDrawComplete.
      rewrite <- app_assoc. split; [done|]. simpl.
      split; [lia|]. split; [by constructor|]. split; [tauto|].
      intros Hmode. by destruct (Hoff Hmode).
    + destruct Hstep as (Hpair & Hoff & _).
      destruct (IH d1 sel) as (d' & added & Hrun & Hlen & Hall & Hpair' & Hoff').
      exists d', added. unfold HomeMap.AreaDrawer.run in Hrun. rewrite Hrun.
      split; [done|]. split; [destruct e; simpl; lia|].
      split; [done|]. split; [tauto|].
      intros Hmode. destruct (Hoff Hmode) as [-> _]. by apply Hoff'.
Qed.

(** ** The map of a day *)

(** X28.  With a stay location the path of a day starts and ends at the stay,
    with the day's activities in order between, so it is never empty: the
    map is always fitted to it and the connecting line is always drawn,
    also for a day without activities.  Without a stay the path is the
    activities' positions; the map is fitted to it unless the day is
    empty, in which case it is centred on the plan's centre at zoom 13, and
    the line is drawn from two activities on.  A day the plan does not
    have ends in a type error. *)
Theorem map_path_runs_through_the_stay (plan : TripPlan.t) (d : nat) :
  (forall day st,
      TripPlan.itinerary plan !! d = Some day ->
      TripPlan.stayLocation plan = Some st ->
      exists path,
        TripMap.pathPositions plan d = Js.Returns path
        /\ path = TripMap.position st
                  :: map TripMap.position (DayPlan.activities day)
                  ++ [TripMap.position st]
        /\ head path = Some (TripMap.position st)
        /\ last path = Some (TripMap.position st)
        /\ TripMap.mapView plan d = Js.Returns (TripMap.fitBounds path)
        /\ TripMap.showsPath path = true)
  /\ (forall day,
        TripPlan.itinerary plan !! d = Some day ->
        TripPlan.stayLocation plan = None ->
        TripMap.pathPositions plan d
          = Js.Returns (map TripMap.position (DayPlan.activities day))
        /\ TripMap.mapView plan d
           = Js.Returns
               (match DayPlan.activities day with
                | [] => TripMap.setView
                          (Coordinates.lat (TripPlan.centerCoordinates plan),
                           Coordinates.lng (TripPlan.centerCoordinates plan)) 13
                | _ => TripMap.fitBounds (map TripMap.position (DayPlan.activities day))
                end)
        /\ TripMap.showsPath (map TripMap.position (DayPlan.activities day))
           = bool_decide (2 <= length (DayPlan.activities day)))
  /\ (length (TripPlan.itinerary plan) <= d ->
      TripMap.pathPositions plan d = Js.Throws Js.TypeError
      /\ TripMap.mapView plan d = Js.Throws Js.TypeError
      /\ TripMap.markers plan d = Js.Throws Js.TypeError).
Proof.
  split; [|split].
  - intros day st Hday Hstay. eexists.
    unfold TripMap.mapView, TripMap.pathPositions, TripPlan.day.
    rewrite Hday, Hstay. cbn [mbind outcome_bind Js.bind].
    split; [reflexivity|]. split; [reflexivity|]. split; [reflexivity|].
    split; [|split].
    + rewrite app_assoc. apply last_snoc.
    + reflexivity.
    + unfold TripMap.showsPath. simpl. rewrite length_app. simpl.
      apply Nat.ltb_lt. lia.
  - intros day Hday Hstay.
    unfold TripMap.mapView, TripMap.pathPositions, TripPlan.day.
    rewrite Hday, Hstay. cbn [mbind outcome_bind Js.bind].
    split; [reflexivity|]. split.
    + by destruct (DayPlan.activities day).
    + unfold TripMap.showsPath. rewrite length_map.
      destruct (DayPlan.activities day) as [|a [|b acts]]; try reflexivity.
  - intros Hshort.
    unfold TripMap.mapView, TripMap.markers, TripMap.pathPositions, TripPlan.day.
    by rewrite (lookup_ge_None_2 _ _ Hshort).
Qed.

Lemma map_path_runs_through_the_stay_witness :
  exists path,
    TripMap.pathPositions Sample.paris 1 = Js.Returns path
    /\ path = [ TripMap.position Sample.hotel; TripMap.position Sample.garden;
                TripMap.position Sample.hotel ]
    /\ TripMap.mapView Sample.paris 1 = Js.Returns (TripMap.fitBounds path).
Proof.
  destruct (map_path_runs_through_the_stay Sample.paris 1) as (Hstay & _).
  destruct (Hstay Sample.day2 Sample.hotel) as (path & Hpath & Hshape & _ & _ & Hview & _);
    [reflexivity | reflexivity |].
  exists path. split; [exact Hpath|]. split; [exact Hshape | exact Hview].
Defined.

(** X29.  A marker's colour tells the type of its activity: the five types get
    five different colour classes on the map.  The markers of a day are
    numbered from 1 in the order of the day, except that an activity of
    type stay shows the house instead of its number, as the marker of the
    stay location does, which comes first when the plan has one.  In the
    list the five types get five different icons, but stay and plain
    activity share one colour. *)
Theorem markers_tell_type_and_order (plan : TripPlan.t) (d : nat) (day : DayPlan.t) :
  TripPlan.itinerary plan !! d = Some day ->
  (forall i j t t',
      (TripMap.createCustomIcon i t).1 = (TripMap.createCustomIcon j t').1 -> t = t')
  /\ (forall t t',
        (ItineraryList.ActivityIcon t).1 = (ItineraryList.ActivityIcon t').1 -> t = t')
  /\ (ItineraryList.ActivityIcon ActivityType.stay).2
     = (ItineraryList.ActivityIcon ActivityType.activity).2
  /\ exists ms,
       TripMap.markers plan d = Js.Returns ms
       /\ length ms
          = length (DayPlan.activities day)
            + (match TripPlan.stayLocation plan with Some _ => 1 | None => 0 end)
       /\ (forall st, TripPlan.stayLocation plan = Some st ->
             head ms = Some (TripMap.position st,
                             ("bg-blue-700 ring-4 ring-blue-200", TripMap.House)))
       /\ (forall i a,
             DayPlan.activities day !! i = Some a ->
             exists colour,
               ms !! ((match TripPlan.stayLocation plan with Some _ => 1 | None => 0 end) + i)
               = Some (TripMap.position a,
                       (colour,
                        if decide (Activity.type a = ActivityType.stay)
                        then TripMap.House
                        else TripMap.Number (Z.of_nat i + 1)))).
Proof.
  intros Hday. split; [|split; [|split]].
  - intros i j t t'. by destruct t, t'.
  - intros t t'. by destruct t, t'.
  - reflexivity.
  - eexists. unfold TripMap.markers, TripPlan.day. rewrite Hday.
    cbn [mbind outcome_bind Js.bind]. split; [reflexivity|]. split; [|split].
    + rewrite length_app, length_imap.
      destruct (TripPlan.stayLocation plan); simpl; lia.
    + by intros st ->.
    + intros i a Ha.
      exists (TripMap.createCustomIcon (Z.of_nat i) (Activity.type a)).1.
      assert (Hicon : TripMap.createCustomIcon (Z.of_nat i) (Activity.type a)
                      = ((TripMap.createCustomIcon (Z.of_nat i) (Activity.type a)).1,
                         if decide (Activity.type a = ActivityType.stay)
                         then TripMap.House
                         else TripMap.Number (Z.of_nat i + 1)))
        by (by destruct (Activity.type a)).
      destruct (TripPlan.stayLocation plan) as [st|].
      * rewrite lookup_app_r by (simpl; lia).
        replace (1 + i - length [(TripMap.position st,
                                  TripMap.createCustomIcon (-1) ActivityType.stay)])
          with i by (simpl; lia).
        rewrite list_lookup_imap, Ha. cbn [fmap option_fmap option_map].
        by rewrite Hicon at 1.
      * cbn [app Nat.add]. rewrite list_lookup_imap, Ha.
        cbn [fmap option_fmap option_map]. by rewrite Hicon at 1.
Qed.

Lemma markers_tell_type_and_order_witness :
  exists ms,
    TripMap.markers Sample.paris 0 = Js.Returns ms
    /\ length ms = 5
    /\ ms !! 2 = Some (TripMap.position Sample.bistro,
                       ("bg-orange-500", TripMap.Number 2)).
Proof.
  destruct (markers_tell_type_and_order Sample.paris 0 Sample.day1)
    as (_ & _ & _ & ms & Hms & Hlen & _ & Hat); [reflexivity|].
  exists ms. split; [exact Hms|]. split; [exact Hlen|].
  destruct (Hat 1 Sample.bistro) as (colour & Hcolour); [reflexivity|].
  injection Hms as <-. reflexivity.
Defined.

Lemma poster_names_at_most_four_landmarks_witness :
  exists day a,
    day ∈ TripPlan.itinerary Sample.paris
    /\ a ∈ DayPlan.activities day
    /\ Activity.type a = ActivityType.landmark
    /\ Activity.name a = "Tower".
Proof.
  destruct (poster_names_at_most_four_landmarks Sample.paris) as (_ & Hnames & _).
  apply Hnames. right. left.
Defined.

Lemma map_events_only_append_witness :
  HomeMap.AreaDrawer.run HomeMap.arcDistance false
    (HomeMap.AreaDrawer.gesture (Sample.at_ 48 2) [Sample.at_ 49 3])
    (HomeMap.AreaDrawer.idle, [Sample.box])
  = (HomeMap.AreaDrawer.idle, [Sample.box] ++ []).
Proof.
  destruct (map_events_only_append HomeMap.arcDistance false
              (HomeMap.AreaDrawer.gesture (Sample.at_ 48 2) [Sample.at_ 49 3])
              HomeMap.AreaDrawer.idle [Sample.box])
    as (d' & added & Hrun & _ & _ & _ & Hoff).
  destruct (Hoff eq_refl) as [-> ->]. exact Hrun.
Defined.
